(** * mlimplicitsolvent: the GB-Neck graph network and its datasets

    A shallow embedding of [MachineLearning/GNN_Models.py] and
    [datasets/bigbind_solv.py].

    Conventions.
    - A float is read as a real number ([R]); rounding, infinities and NaN
      are outside the model.
    - A tensor that takes part in automatic differentiation is a list of
      dual numbers: a value together with its derivative along one
      direction of the atom positions.  [torch.autograd.grad] with respect
      to the positions is the family of these derivatives, one direction per
      coordinate of every atom.
    - Python exceptions are values of [exn]; a function that can raise
      returns a [result]. *)

From Stdlib Require Import String.
From Stdlib Require Import ZArith Reals Lra Lia List Arith Bool PeanoNat.
Import ListNotations.

(** ** Exceptions and results *)

Inductive exn : Type :=
| TypeError (msg : string)
| IndexError (msg : string)
| RuntimeError (msg : string)
| ZeroDivisionError (msg : string)
| KeyError (msg : string)
| AttributeError (msg : string)
| Exception (msg : string).

Inductive result (A : Type) : Type :=
| Ok (a : A)
| Raise (e : exn).

Arguments Ok {A} a.
Arguments Raise {A} e.

Definition bind {A B : Type} (r : result A) (k : A -> result B) : result B :=
  match r with
  | Ok a => k a
  | Raise e => Raise e
  end.

Notation "x <- r ;; k" := (bind r (fun x => k))
  (at level 61, r at next level, right associativity).

Definition raises {A : Type} (r : result A) : Prop :=
  exists e, r = Raise e.

(** ** Dual numbers: a tracked scalar and its derivative *)

Open Scope R_scope.

Record D : Type := mkD { val : R; tan : R }.

Definition sigmoidR (x : R) : R := 1 / (1 + exp (- x)).

Module Dual.

Definition const (r : R) : D := mkD r 0.
Definition zero : D := const 0.

Definition add (a b : D) : D := mkD (val a + val b) (tan a + tan b).
Definition sub (a b : D) : D := mkD (val a - val b) (tan a - tan b).
Definition mul (a b : D) : D :=
  mkD (val a * val b) (tan a * val b + val a * tan b).
Definition neg (a : D) : D := mkD (- val a) (- tan a).

(** [a.pow(2)], [a ** 2] *)
Definition sq (a : D) : D := mul a a.

Definition sqrt (a : D) : D :=
  mkD (sqrt (val a)) (tan a / (2 * sqrt (val a))).

(** [nn.Sigmoid] *)
Definition sigmoid (a : D) : D :=
  mkD (sigmoidR (val a))
      (sigmoidR (val a) * (1 - sigmoidR (val a)) * tan a).

(** [nn.SiLU]: [x * sigmoid(x)] *)
Definition silu (a : D) : D := mul a (sigmoid a).

(** A value computed under [torch.no_grad()] carries no gradient
    function: for the differentiation that follows it is a constant. *)
Definition no_grad (a : D) : D := const (val a).

Definition sum (l : list D) : D := fold_right add zero l.

End Dual.

Declare Scope dual_scope.
Delimit Scope dual_scope with D.
Bind Scope dual_scope with D.
Infix "+" := Dual.add : dual_scope.
Infix "-" := Dual.sub : dual_scope.
Infix "*" := Dual.mul : dual_scope.

(** Rows of a per-atom tensor, one for each atom index below [n]. *)
Definition rows {A : Type} (n : nat) (f : nat -> A) : list A :=
  map f (seq 0 n).

(** ** The radial basis encoding, [GNN_GBNeck.get_edge_features] *)

(** [torch.linspace(start, end, steps)] *)
Definition linspace (start stop : R) (steps : nat) : list R :=
  map (fun i => start + INR i * ((stop - start) / INR (steps - 1)))
      (seq 0 steps).

Definition margin (alpha max_range min_range : R) (num_kernels : nat) : R :=
  alpha * (max_range - min_range) / (INR num_kernels + 1).

Definition centers (alpha max_range min_range : R) (num_kernels : nat)
  : list R :=
  let m := margin alpha max_range min_range num_kernels in
  let lower_bound := min_range + m in
  let upper_bound := max_range - m in
  linspace lower_bound upper_bound num_kernels.

Definition bump (m k : R) : R := Rmax 0 ((1 - (k / m) ^ 2) ^ 3).

Definition get_edge_features (distances : R)
  (alpha max_range min_range : R) (num_kernels : nat) : list R :=
  let m := margin alpha max_range min_range num_kernels in
  map (fun c => let k := distances - c in bump m k)
      (centers alpha max_range min_range num_kernels).

(** The statement of the encoder's contract at one distance [d]: the
    number of entries, the spacing of the centers, the value of every
    entry, its sign, and its support. *)
Definition rbf_contract (d alpha max_range min_range : R) (num_kernels : nat)
  : Prop :=
  let m := margin alpha max_range min_range num_kernels in
  let cs := centers alpha max_range min_range num_kernels in
  let out := get_edge_features d alpha max_range min_range num_kernels in
  length out = num_kernels /\
  length cs = num_kernels /\
  (forall i, (i < num_kernels)%nat ->
     nth i cs 0 =
     (min_range + m) +
     INR i * (((max_range - m) - (min_range + m)) / INR (num_kernels - 1))) /\
  ((1 <= num_kernels)%nat -> nth 0 cs 0 = min_range + m) /\
  ((2 <= num_kernels)%nat -> nth (num_kernels - 1) cs 0 = max_range - m) /\
  (forall i, (i < num_kernels)%nat ->
     let c := nth i cs 0 in
     nth i out 0 = Rmax 0 ((1 - ((d - c) / m) ^ 2) ^ 3) /\
     0 <= nth i out 0 /\
     (m <= Rabs (d - c) -> nth i out 0 = 0)).

(** ** The bounded correction of the Born radius *)

(** Lines 428-430 of [forward]:
    [Bc[:, 0] * (fraction + sigmoid(c_scale) * (1 - fraction) * 2)] *)
Definition scale_born (fraction : R) (B c_scale : D) : D :=
  (B * (Dual.const fraction +
        Dual.sigmoid c_scale * Dual.const (1 - fraction) * Dual.const 2))%D.

Definition correction_bound (fraction : R) (B c_scale : D) : Prop :=
  fraction * val B <= val (scale_born fraction B c_scale) /\
  val (scale_born fraction B c_scale) <= (1 + (1 - fraction)) * val B.

(** ** Positions, edges and neighbour graphs *)

Definition vec3 : Type := (D * D * D)%type.
Definition zero3 : vec3 := (Dual.zero, Dual.zero, Dual.zero).

(** One column of a [2 x E] [edge_index] tensor:
    [(edge_index[0][e], edge_index[1][e])], source then target. *)
Definition edge : Type := (nat * nat)%type.

(** The squared 2-norm of [x1 - x2 + eps]. *)
Definition shifted_norm2 (eps : D) (x1 x2 : vec3) : D :=
  let '(ax, ay, az) := x1 in
  let '(bx, b_y, bz) := x2 in
  (Dual.sq (ax - bx + eps) + Dual.sq (ay - b_y + eps)
   + Dual.sq (az - bz + eps))%D.

(** [torch.nn.PairwiseDistance()], with its defaults [p = 2] and
    [eps = 1e-6]: the 2-norm of [x1 - x2 + eps]. *)
Definition distancer (x1 x2 : vec3) : D :=
  Dual.sqrt (shifted_norm2 (Dual.const 1e-6) x1 x2).

(** [self._distancer(positions[edge_index[0]], positions[edge_index[1]])] *)
Definition edge_distances (positions : list vec3) (edge_index : list edge)
  : list D :=
  map (fun e => distancer (nth (fst e) positions zero3)
                          (nth (snd e) positions zero3)) edge_index.

Definition euclid2 (a b : vec3) : R :=
  let '(ax, ay, az) := a in
  let '(bx, b_y, bz) := b in
  (val ax - val bx) ^ 2 + (val ay - val b_y) ^ 2 + (val az - val bz) ^ 2.

Definition within (r : R) (a b : vec3) : bool :=
  if Rle_dec (sqrt (euclid2 a b)) r then true else false.

(** The batch vector has one id per atom. *)
Definition same_batch (batch : option (list nat)) (s t : nat) : bool :=
  match batch with
  | None => true
  | Some b => Nat.eqb (nth s b 0%nat) (nth t b 0%nat)
  end.

Fixpoint insert_by (key : nat -> R) (a : nat) (l : list nat) : list nat :=
  match l with
  | [] => [a]
  | b :: l' =>
      if Rle_dec (key a) (key b) then a :: l else b :: insert_by key a l'
  end.

Definition sort_by (key : nat -> R) (l : list nat) : list nat :=
  fold_right (insert_by key) [] l.

(** Modelled from the spec: [radius_graph] of torch_geometric and
    torch_cluster is not part of the sources.  Section 4.1 gives its
    contract and names the all-pairs scan as reference: for a target atom,
    the sources are the atoms of the same batch within the radius, the atom
    itself only when [loop] is set, nearest first (a tie keeps the lower
    index first), cut at [max_num_neighbors].  Without [batch] all atoms
    are one molecule. *)
Definition neighbours (x : list vec3) (r : R) (batch : option (list nat))
  (loop : bool) (max_num_neighbors : nat) (t : nat) : list nat :=
  firstn max_num_neighbors
    (sort_by (fun s => euclid2 (nth s x zero3) (nth t x zero3))
       (filter (fun s => (loop || negb (s =? t)%nat)
                         && same_batch batch s t
                         && within r (nth s x zero3) (nth t x zero3))
               (seq 0 (length x)))).

Definition radius_graph (x : list vec3) (r : R) (batch : option (list nat))
  (loop : bool) (max_num_neighbors : nat) : list edge :=
  flat_map (fun t => map (fun s => (s, t))
                         (neighbours x r batch loop max_num_neighbors t))
           (seq 0 (length x)).

(** ** Loops and item assignment *)

Fixpoint for_range {S : Type} (range : list nat)
  (body : nat -> S -> result S) (s : S) : result S :=
  match range with
  | [] => Ok s
  | i :: range' => s' <- body i s ;; for_range range' body s'
  end.

(** [t[i] = v] on a one-dimensional tensor; an index past the end raises. *)
Definition setitem (t : list nat) (i v : nat) : result (list nat) :=
  if (i <? length t)%nat
  then Ok (firstn i t ++ v :: skipn (S i) t)
  else Raise (IndexError "index is out of bounds").

(** [edge_index[0, i] = s; edge_index[1, i] = t] on the two rows. *)
Definition set_edge (edge_index : list nat * list nat) (i s t : nat)
  : result (list nat * list nat) :=
  row0 <- setitem (fst edge_index) i s ;;
  row1 <- setitem (snd edge_index) i t ;;
  Ok (row0, row1).

Definition columns (edge_index : list nat * list nat) : list edge :=
  combine (fst edge_index) (snd edge_index).

(** ** Small feed-forward networks on lambda *)

(** [nn.Sequential(nn.Linear(1, H), nn.SiLU(), nn.Linear(H, 1),
    nn.Sigmoid())].  [H] is [CONFIG.sterics_hidden_dim] or
    [CONFIG.electrostatics_hidden_dim], here the number of hidden units:
    each carries its weight and bias in the first layer and its weight in
    the second. *)
Record ff_params : Type := mk_ff {
  hidden_units : list (R * R * R);
  out_bias : R
}.

Definition ff (p : ff_params) (x : D) : D :=
  Dual.sigmoid
    (Dual.sum
       (map (fun u => let '(w1, b1, w2) := u in
                      (Dual.silu (Dual.const w1 * x + Dual.const b1)
                       * Dual.const w2)%D)
            (hidden_units p))
     + Dual.const (out_bias p))%D.

(** [ff(lambda.view(-1, 1)) * lambda.view(-1, 1)] *)
Definition scales (p : ff_params) (lambda : list R) : list D :=
  map (fun l => (ff p (Dual.const l) * Dual.const l)%D) lambda.

(** ** Tensor helpers *)

Definition lift (t : list (list R)) : list (list D) :=
  map (map Dual.const) t.

(** [t.view(-1, 1).expand(n, 1)] *)
Definition expand (t : list D) (n : nat) : result (list D) :=
  if (length t =? n)%nat then Ok t
  else if (length t =? 1)%nat then Ok (repeat (hd Dual.zero t) n)
  else Raise (RuntimeError "The expanded size of the tensor must match the existing size").

(** [torch.cat([a, b, c], dim=-1)] with [b] and [c] of one column. *)
Definition cat_columns (a : list (list D)) (b c : list D)
  : result (list (list D)) :=
  if ((length a =? length b) && (length b =? length c))%nat
  then Ok (rows (length a)
             (fun i => nth i a [] ++ [nth i b Dual.zero; nth i c Dual.zero]))
  else Raise (RuntimeError "Sizes of tensors must match except in dimension 1").

(** [scale[batch]] *)
Fixpoint gather (scale : list D) (batch : list nat) : result (list D) :=
  match batch with
  | [] => Ok []
  | b :: batch' =>
      match nth_error scale b with
      | Some v => rest <- gather scale batch' ;; Ok (v :: rest)
      | None => Raise (IndexError "index out of range in self")
      end
  end.

(** Positions as [autograd] sees them: coordinate [c] of atom [i] carries
    derivative one along the direction [(i, c)] and zero along any other;
    without a direction the positions are plain values. *)
Definition seed (direction : option (nat * nat)) (i c : nat) : R :=
  match direction with
  | Some (j, c') => if ((i =? j) && (c =? c'))%nat then 1 else 0
  | None => 0
  end.

Definition track (direction : option (nat * nat))
  (positions : list (R * R * R)) : list vec3 :=
  map (fun ip => let '(i, (x, y, z)) := ip in
                 (mkD x (seed direction i 0), mkD y (seed direction i 1),
                  mkD z (seed direction i 2)))
      (combine (seq 0 (length positions)) positions).

(** ** The main model *)

Module GNN3.

(** [GNN3_all_swish_multiple_peptides_GBNeck_trainable_dif_graphs_corr_with_separate_SA].
    The four layers come from [MachineLearning/GNN_Layers.py], which is not
    among the sources: they are fields of the model, and each gives the
    output row of one atom index. *)
Record t : Type := mk {
  _fraction : R;
  _gnn_radius : R;
  _max_num_neighbors : nat;
  gnn_params : option (list (list R));
  sterics_ff : ff_params;
  electrostatics_ff : ff_params;
  aggregate_information :
    list (list D) -> list edge -> list D -> nat -> D * D;
  interaction1 : list edge -> list (list D) -> list D -> nat -> list D;
  interaction2 : list edge -> list (list D) -> list D -> nat -> D * D;
  calculate_energies : list (D * D) -> list edge -> list D -> nat -> D
}.

Definition gbneck_radius : R := 13.0.
Definition gamma : R := 0.00542.
Definition offset : R := 0.0195141.

(** Lines 358-365: the long-range graph of the GB terms and the
    short-range graph of the correction network. *)
Definition edge_index (self : t) (positions : list vec3)
  (batch : option (list nat)) : list edge :=
  radius_graph positions gbneck_radius batch false (_max_num_neighbors self).

Definition gnn_edge_index (self : t) (positions : list vec3)
  (batch : option (list nat)) : list edge :=
  radius_graph positions (_gnn_radius self) batch false
               (_max_num_neighbors self).

(** Lines 380-381. *)
Definition default_batch (self : t) (batch : option (list nat))
  : result (list nat) :=
  match batch with
  | Some b => Ok b
  | None =>
      match gnn_params self with
      | Some gp => Ok (repeat 0%nat (length gp))
      | None => Raise (TypeError "object of type 'NoneType' has no len()")
      end
  end.

(** Lines 383-396. *)
Definition node_features (self : t) (num_positions : nat)
  (lambda_sterics lambda_electrostatics : list R)
  (atom_features : option (list (list R))) : result (list (list D)) :=
  match gnn_params self with
  | Some gp =>
      le <- expand (map Dual.const lambda_electrostatics) num_positions ;;
      ls <- expand (map Dual.const lambda_sterics) num_positions ;;
      cat_columns (lift gp) le ls
  | None =>
      match atom_features with
      | Some af => Ok (lift af)
      | None => Raise (Exception "No GNN Params Given")
      end
  end.

(** Lines 424-425: the SA term of one atom, from its SA-scale channel and
    the second column of its feature row. *)
Definition sa_energy (sa_scale x1 : D) : D :=
  let radius := (x1 + Dual.const offset)%D in
  (Dual.const 4.184 * Dual.const gamma * sa_scale
   * Dual.sq (radius + Dual.const 0.14) * Dual.const 100)%D.

(** Lines 402-442, once the inputs are in place.  [under_no_grad] is what
    the [with torch.no_grad()] block does to the tensor computed in it. *)
Definition atom_energies (under_no_grad : D -> D) (self : t)
  (edge_index : list edge) (edge_attributes : list D)
  (gnn_edge_index : list edge) (gnn_edge_attributes : list D)
  (x : list (list D)) (l_sterics l_electrostatics : list D) : list D :=
  let n := length x in
  let Bc := rows n (aggregate_information self x edge_index edge_attributes) in
  let Bcn :=
    rows n (fun i => [fst (nth i Bc (Dual.zero, Dual.zero));
                      snd (nth i Bc (Dual.zero, Dual.zero));
                      nth 1 (nth i x []) Dual.zero;
                      nth i l_sterics Dual.zero;
                      nth i l_electrostatics Dual.zero]) in
  let Bcn := rows n (interaction1 self gnn_edge_index Bcn gnn_edge_attributes) in
  let Bcn := map (map Dual.silu) Bcn in
  let Bcn := rows n (interaction2 self gnn_edge_index Bcn gnn_edge_attributes) in
  let c_scale := map fst Bcn in
  let sa_scale := map snd Bcn in
  let sa_energies :=
    rows n (fun i => sa_energy (nth i sa_scale Dual.zero)
                               (nth 1 (nth i x []) Dual.zero)) in
  let Bcn :=
    rows n (fun i => scale_born (_fraction self)
                       (fst (nth i Bc (Dual.zero, Dual.zero)))
                       (nth i c_scale Dual.zero)) in
  let Bc :=
    rows n (fun i => (nth i Bcn Dual.zero,
                      snd (nth i Bc (Dual.zero, Dual.zero)))) in
  let elec_energies :=
    map under_no_grad
        (rows n (calculate_energies self Bc edge_index edge_attributes)) in
  rows n (fun i => (nth i elec_energies Dual.zero
                    * nth i l_electrostatics Dual.zero
                    + nth i sa_energies Dual.zero
                      * nth i l_sterics Dual.zero)%D).

(** Lines 380-400 and the shape tests of line 407: the batch vector, the
    feature rows [x] and the per-atom scales [l_sterics] and
    [l_electrostatics], or the exception raised on the way. *)
Definition inputs (self : t) (num_positions : nat)
  (lambda_sterics lambda_electrostatics : list R)
  (batch : option (list nat)) (atom_features : option (list (list R)))
  : result (list (list D) * list D * list D) :=
  let sterics_scale := scales (sterics_ff self) lambda_sterics in
  let electrostatics_scale :=
    scales (electrostatics_ff self) lambda_electrostatics in
  batch <- default_batch self batch ;;
  x <- node_features self num_positions lambda_sterics
         lambda_electrostatics atom_features ;;
  l_electrostatics <- gather electrostatics_scale batch ;;
  l_sterics <- gather sterics_scale batch ;;
  if negb (forallb (fun row => (2 <=? length row)%nat) x)
  then Raise (IndexError "index 1 is out of bounds for dimension 1")
  else if negb (length batch =? length x)%nat
  then Raise (RuntimeError "Sizes of tensors must match except in dimension 1")
  else Ok (x, l_sterics, l_electrostatics).

(** Lines 358-442: [energies], one entry per atom, or the exception raised
    on the way. *)
Definition energies_with (under_no_grad : D -> D) (self : t)
  (positions : list vec3) (lambda_sterics lambda_electrostatics : list R)
  (batch : option (list nat)) (atom_features : option (list (list R)))
  : result (list D) :=
  let edge_index := edge_index self positions batch in
  let gnn_edge_index := gnn_edge_index self positions batch in
  let edge_attributes := edge_distances positions edge_index in
  let gnn_edge_attributes := edge_distances positions gnn_edge_index in
  xl <- inputs self (length positions) lambda_sterics lambda_electrostatics
          batch atom_features ;;
  let '(x, l_sterics, l_electrostatics) := xl in
  Ok (atom_energies under_no_grad self edge_index edge_attributes
        gnn_edge_index gnn_edge_attributes x l_sterics l_electrostatics).

(** Lines 444-460.  [torch.autograd.grad] of [energies.sum()] with respect
    to [positions]: entry [(i, c)] is the derivative of the sum along the
    direction of coordinate [c] of atom [i].  The value it returns is never
    [None], so the inner test is on [retrieve_forces] alone; a call that
    reaches the end of the body returns [None]. *)
Definition forward_with (under_no_grad : D -> D) (self : t)
  (positions : list (R * R * R))
  (lambda_sterics lambda_electrostatics : list R) (retrieve_forces : bool)
  (batch : option (list nat)) (atom_features : option (list (list R)))
  : result (option (R * list (R * R * R))) :=
  energies <- energies_with under_no_grad self (track None positions)
                lambda_sterics lambda_electrostatics batch atom_features ;;
  let derivative (i c : nat) : R :=
    match energies_with under_no_grad self (track (Some (i, c)) positions)
            lambda_sterics lambda_electrostatics batch atom_features with
    | Ok e => tan (Dual.sum e)
    | Raise _ => 0
    end in
  let gradients_f :=
    rows (length positions)
         (fun i => (derivative i 0%nat, derivative i 1%nat,
                    derivative i 2%nat)) in
  let forces :=
    map (fun g => let '(gx, gy, gz) := g in (- gx, - gy, - gz)) gradients_f in
  if retrieve_forces
  then Ok (Some (val (Dual.sum energies), forces))
  else Ok None.

(** [forward] as the source has it: the GB energies are computed under
    [torch.no_grad()].  The parameter [jit_compile_mode] is not used by the
    body and is left out. *)
Definition forward : t -> list (R * R * R) -> list R -> list R -> bool ->
  option (list nat) -> option (list (list R)) ->
  result (option (R * list (R * R * R))) :=
  forward_with Dual.no_grad.

(** The differentiation section 4.6 asks for: the same evaluation with
    the GB energies left in the graph. *)
Definition forward_connected : t -> list (R * R * R) -> list R -> list R ->
  bool -> option (list nat) -> option (list (list R)) ->
  result (option (R * list (R * R * R))) :=
  forward_with (fun e => e).

Definition returned_energy (r : result (option (R * list (R * R * R))))
  : option R :=
  match r with
  | Ok (Some (energy, _)) => Some energy
  | _ => None
  end.

End GNN3.

(** ** The model that runs several replicas of one system *)

Module RunMultiple.

(** [GNN3_all_swish_multiple_peptides_GBNeck_trainable_dif_graphs_corr_with_separate_SA_run_multiple]:
    the attributes of an object.  [_num_reps] is what the last call of
    [set_num_reps] left; [_edge_index] is what [__init__] stored. *)
Record t : Type := mk {
  _fraction : R;
  _num_reps : nat;
  _gbparameters : list (list R);
  _edge_index : list edge;
  aggregate_information :
    list (list D) -> list edge -> list D -> nat -> D * D;
  interaction1 : list edge -> list (list D) -> list D -> nat -> list D;
  interaction2 : list edge -> list (list D) -> list D -> nat -> list D;
  interaction3 : list edge -> list (list D) -> list D -> nat -> D * D;
  calculate_energies : list (D * D) -> list edge -> list D -> nat -> D
}.

Definition build_edge_idx (num_nodes num_reps : nat)
  : result (list nat * list nat) :=
  let elements_per_rep := (num_nodes * (num_nodes - 1))%nat in
  let edge_index :=
    (repeat 0%nat (num_reps * elements_per_rep),
     repeat 0%nat (num_reps * elements_per_rep)) in
  for_range (seq 0 num_reps) (fun rep =>
    for_range (seq 0 num_nodes) (fun node =>
      for_range (seq 0 num_nodes) (fun con edge_index =>
        if (con <? node)%nat then
          set_edge edge_index
            (rep * elements_per_rep + node * (num_nodes - 1) + con)%nat
            (rep * num_nodes + node)%nat
            (rep * num_nodes + con)%nat
        else if (node <? con)%nat then
          set_edge edge_index
            (rep * elements_per_rep + node * (num_nodes - 1) + con - 1)%nat
            (rep * num_nodes + node)%nat
            (rep * num_nodes + con)%nat
        else Ok edge_index)))
    edge_index.

(** [set_num_reps] (lines 679-691) writes [_num_reps], and with it
    [_batch] and [_batch_gbparameters]; it leaves [_edge_index] as it
    is. *)
Definition set_num_reps (self : t) (num_reps : nat) : t :=
  {| _fraction := _fraction self;
     _num_reps := num_reps;
     _gbparameters := _gbparameters self;
     _edge_index := _edge_index self;
     aggregate_information := aggregate_information self;
     interaction1 := interaction1 self;
     interaction2 := interaction2 self;
     interaction3 := interaction3 self;
     calculate_energies := calculate_energies self |}.

(** [__init__] (lines 630-677), for [parameters] that are given: it calls
    [set_num_reps(num_reps)] and stores
    [build_edge_idx(len(parameters), num_reps)] in [_edge_index].  The
    layers it creates are passed in. *)
Definition __init__ (fraction : R) (parameters : list (list R))
  (num_reps : nat)
  (aggregate_information :
     list (list D) -> list edge -> list D -> nat -> D * D)
  (interaction1 interaction2 :
     list edge -> list (list D) -> list D -> nat -> list D)
  (interaction3 : list edge -> list (list D) -> list D -> nat -> D * D)
  (calculate_energies : list (D * D) -> list edge -> list D -> nat -> D)
  : result t :=
  edge_index <- build_edge_idx (length parameters) num_reps ;;
  Ok {| _fraction := fraction;
        _num_reps := num_reps;
        _gbparameters := parameters;
        _edge_index := columns edge_index;
        aggregate_information := aggregate_information;
        interaction1 := interaction1;
        interaction2 := interaction2;
        interaction3 := interaction3;
        calculate_energies := calculate_energies |}.

(** [self._batch_gbparameters], set in [set_num_reps]:
    [self._gbparameters.repeat(self._num_reps, 1)]. *)
Definition _batch_gbparameters (self : t) : list (list R) :=
  concat (repeat (_gbparameters self) (_num_reps self)).

(** Lines 697-703: the edges shorter than 0.6, with their lengths. *)
Definition gnn_slices (edge_index : list edge) (edge_attributes : list D)
  : list (edge * D) :=
  filter (fun ea => if Rlt_dec (val (snd ea)) 0.6 then true else false)
         (combine edge_index edge_attributes).

(** Lines 731-735: the SA term of one atom. *)
Definition sa_energy (sa_scale x1 : D) : D :=
  let gamma := 0.00542 in
  let offset := 0.0195141 in
  let radius := (x1 + Dual.const offset)%D in
  let sasa := (Dual.sigmoid sa_scale * Dual.sq (radius + Dual.const 0.14))%D in
  (Dual.const (4.184 * gamma) * sasa * Dual.const 100)%D.

Definition forward (self : t) (positions : list vec3) : result D :=
  let edge_index := _edge_index self in
  let edge_attributes := edge_distances positions edge_index in
  let gnn_edge_attributes :=
    map snd (gnn_slices edge_index edge_attributes) in
  let gnn_edge_index := map fst (gnn_slices edge_index edge_attributes) in
  let x := lift (_batch_gbparameters self) in
  if negb (forallb (fun row => (2 <=? length row)%nat) x)
  then Raise (IndexError "index 1 is out of bounds for dimension 1")
  else
  let n := length x in
  let Bc := rows n (aggregate_information self x edge_index edge_attributes) in
  let Bcn :=
    rows n (fun i => [fst (nth i Bc (Dual.zero, Dual.zero));
                      snd (nth i Bc (Dual.zero, Dual.zero));
                      nth 1 (nth i x []) Dual.zero]) in
  let Bcn := rows n (interaction1 self gnn_edge_index Bcn gnn_edge_attributes) in
  let Bcn := map (map Dual.silu) Bcn in
  let Bcn := rows n (interaction2 self gnn_edge_index Bcn gnn_edge_attributes) in
  let Bcn := map (map Dual.silu) Bcn in
  let Bcn := rows n (interaction3 self gnn_edge_index Bcn gnn_edge_attributes) in
  let c_scale := map fst Bcn in
  let sa_scale := map snd Bcn in
  let sa_energies :=
    rows n (fun i => sa_energy (nth i sa_scale Dual.zero)
                               (nth 1 (nth i x []) Dual.zero)) in
  let Bcn :=
    rows n (fun i => scale_born (_fraction self)
                       (fst (nth i Bc (Dual.zero, Dual.zero)))
                       (nth i c_scale Dual.zero)) in
  let Bc :=
    rows n (fun i => (nth i Bcn Dual.zero,
                      snd (nth i Bc (Dual.zero, Dual.zero)))) in
  let energies :=
    rows n (calculate_energies self Bc edge_index edge_attributes) in
  let energies :=
    rows n (fun i => (nth i energies Dual.zero
                      + nth i sa_energies Dual.zero)%D) in
  Ok (Dual.sum energies).

End RunMultiple.

(** The ordered pairs of distinct nodes of one replica that start at
    [node], and all of them over all replicas. *)
Definition pairs_from (num_nodes rep node : nat) : list edge :=
  map (fun con => (rep * num_nodes + node, rep * num_nodes + con)%nat)
      (filter (fun con => negb (con =? node)%nat) (seq 0 num_nodes)).

Definition replica_pairs (num_nodes num_reps : nat) : list edge :=
  flat_map (fun rep =>
              flat_map (fun node => pairs_from num_nodes rep node)
                       (seq 0 num_nodes))
           (seq 0 num_reps).


(** The two rows of [edge_index] once the pairs [done] are written and
    [k] entries are still zero. *)
Definition written (done : list edge) (k : nat) : list nat * list nat :=
  (map fst done ++ repeat 0%nat k, map snd done ++ repeat 0%nat k).

(** ** Message passing *)

(** The edges that arrive at atom [t]: source and attribute, in the order
    of [edge_index]. *)
Definition incoming (edge_index : list edge) (edge_attributes : list D)
  (t : nat) : list (nat * D) :=
  map (fun ea => (fst (fst ea), snd ea))
      (filter (fun ea => (snd (fst ea) =? t)%nat)
              (combine edge_index edge_attributes)).

(** Modelled from the spec: the layers of [MachineLearning/GNN_Layers.py]
    are not among the sources.  Sections 4.3 to 4.5 describe each of them
    as one round of message passing: a message per edge from the source
    state, the target state and the edge feature; the messages of the
    edges that arrive at an atom summed; the sum combined with the atom's
    own state.  The transforms [message] and [update] are arbitrary, as
    learned functions are. *)
Definition message_passing {S M O : Type}
  (message : S -> S -> D -> M) (madd : M -> M -> M) (mzero : M)
  (update : S -> M -> O) (dflt : S)
  (x : list S) (edge_index : list edge) (edge_attributes : list D)
  (t : nat) : O :=
  let x_t := nth t x dflt in
  update x_t
    (fold_right madd mzero
       (map (fun sa => message (nth (fst sa) x dflt) x_t (snd sa))
            (incoming edge_index edge_attributes t))).

(** ** A small model and two atoms *)

Module Demo.

(** The squared lengths of the edges that arrive at an atom, summed. *)
Definition squared_lengths {S : Type} (dflt : S) (x : list S)
  (edge_index : list edge) (edge_attributes : list D) (t : nat) : D :=
  message_passing (fun _ _ d => Dual.sq d) Dual.add Dual.zero
                  (fun _ m => m) dflt x edge_index edge_attributes t.

(** A model on which everything can be worked out by hand.  The Born
    term of an atom and its GB energy are the summed squared lengths of its
    edges; the first interaction layer hands its rows on; the second one
    puts out zero in the correction channel and, in the SA channel,
    [bias + weight * h] for the first entry [h] of the atom's row. *)
Definition model_with (weight bias : R) : GNN3.t :=
  {| GNN3._fraction := 0.5;
     GNN3._gnn_radius := 0.4;
     GNN3._max_num_neighbors := 32;
     GNN3.gnn_params := None;
     GNN3.sterics_ff := mk_ff [] 0;
     GNN3.electrostatics_ff := mk_ff [] 0;
     GNN3.aggregate_information :=
       fun x edge_index edge_attributes i =>
         (squared_lengths [] x edge_index edge_attributes i,
          nth 0 (nth i x []) Dual.zero);
     GNN3.interaction1 := fun _ x _ i => nth i x [];
     GNN3.interaction2 :=
       fun _ x _ i =>
         (Dual.zero,
          (Dual.const bias
           + Dual.const weight * nth 0 (nth i x []) Dual.zero)%D);
     GNN3.calculate_energies := squared_lengths (Dual.zero, Dual.zero) |}.

Definition model : GNN3.t := model_with 1 0.

Definition positions : list (R * R * R) := [(0, 0, 0); (1, 0, 0)].

(** Charge and intrinsic radius of the two atoms. *)
Definition atom_features : list (list R) := [[1; 0.15]; [-1; 0.15]].

Definition batch : list nat := [0; 0]%nat.

End Demo.

(** The model with another evaluator of the GB energies. *)
Definition with_calculate_energies (self : GNN3.t)
  (calculate_energies : list (D * D) -> list edge -> list D -> nat -> D)
  : GNN3.t :=
  {| GNN3._fraction := GNN3._fraction self;
     GNN3._gnn_radius := GNN3._gnn_radius self;
     GNN3._max_num_neighbors := GNN3._max_num_neighbors self;
     GNN3.gnn_params := GNN3.gnn_params self;
     GNN3.sterics_ff := GNN3.sterics_ff self;
     GNN3.electrostatics_ff := GNN3.electrostatics_ff self;
     GNN3.aggregate_information := GNN3.aggregate_information self;
     GNN3.interaction1 := GNN3.interaction1 self;
     GNN3.interaction2 := GNN3.interaction2 self;
     GNN3.calculate_energies := calculate_energies |}.

(** ** Inputs on which the evaluation runs to its end *)

Definition in_range (n : nat) (batch : list nat) : bool :=
  forallb (fun b => (b <? n)%nat) batch.

Definition expandable (len n : nat) : bool :=
  ((len =? n) || (len =? 1))%nat.

(** The shapes [forward] needs: per-atom parameters in one of the two
    representations, with one row per entry of the batch vector and at
    least two columns, and batch ids that index both lambda tensors.  With
    [gnn_params] the lambda tensors are expanded to one row per position. *)
Definition well_formed (self : GNN3.t) (num_positions : nat)
  (lambda_sterics lambda_electrostatics : list R)
  (batch : option (list nat)) (atom_features : option (list (list R)))
  : bool :=
  match GNN3.gnn_params self with
  | Some gp =>
      let b := match batch with
               | Some b => b
               | None => repeat 0%nat (length gp)
               end in
      expandable (length lambda_electrostatics) num_positions
      && expandable (length lambda_sterics) num_positions
      && (length gp =? num_positions)%nat
      && in_range (length lambda_electrostatics) b
      && in_range (length lambda_sterics) b
      && (length b =? length gp)%nat
  | None =>
      match batch, atom_features with
      | Some b, Some af =>
          in_range (length lambda_electrostatics) b
          && in_range (length lambda_sterics) b
          && forallb (fun row => (2 <=? length row)%nat) af
          && (length b =? length af)%nat
      | _, _ => false
      end
  end.

Definition resolved_batch (self : GNN3.t) (batch : option (list nat))
  : list nat :=
  match batch, GNN3.gnn_params self with
  | Some b, _ => b
  | None, Some gp => repeat 0%nat (length gp)
  | None, None => []
  end.

Definition broadcast (t : list D) (n : nat) : list D :=
  if (length t =? n)%nat then t else repeat (hd Dual.zero t) n.

Definition resolved_features (self : GNN3.t) (num_positions : nat)
  (lambda_sterics lambda_electrostatics : list R)
  (atom_features : option (list (list R))) : list (list D) :=
  match GNN3.gnn_params self, atom_features with
  | Some gp, _ =>
      rows (length (lift gp))
        (fun i =>
           nth i (lift gp) [] ++
           [nth i (broadcast (map Dual.const lambda_electrostatics)
                             num_positions) Dual.zero;
            nth i (broadcast (map Dual.const lambda_sterics)
                             num_positions) Dual.zero])
  | None, Some af => lift af
  | None, None => []
  end.

Definition per_atom_scale (p : ff_params) (lambda : list R)
  (batch : list nat) : list D :=
  map (fun b => nth b (scales p lambda) Dual.zero) batch.

(** The per-atom energies of a well-formed call. *)
Definition resolved_energies (under_no_grad : D -> D) (self : GNN3.t)
  (positions : list vec3) (lambda_sterics lambda_electrostatics : list R)
  (batch : option (list nat)) (atom_features : option (list (list R)))
  : list D :=
  let edge_index := GNN3.edge_index self positions batch in
  let gnn_edge_index := GNN3.gnn_edge_index self positions batch in
  GNN3.atom_energies under_no_grad self
    edge_index (edge_distances positions edge_index)
    gnn_edge_index (edge_distances positions gnn_edge_index)
    (resolved_features self (length positions) lambda_sterics
       lambda_electrostatics atom_features)
    (per_atom_scale (GNN3.sterics_ff self) lambda_sterics
       (resolved_batch self batch))
    (per_atom_scale (GNN3.electrostatics_ff self) lambda_electrostatics
       (resolved_batch self batch)).

(** ** Batches of molecules *)

(** What a caller supplies for one molecule: a position and a feature row
    per atom, and the two lambda factors. *)
Record molecule : Type := mk_molecule {
  mol_positions : list (R * R * R);
  mol_features : list (list R);
  mol_lambda_sterics : R;
  mol_lambda_electrostatics : R
}.

Definition proper (m : molecule) : bool :=
  (length (mol_positions m) =? length (mol_features m))%nat
  && forallb (fun row => (2 <=? length row)%nat) (mol_features m).

Definition batched_positions (ms : list molecule) : list (R * R * R) :=
  concat (map mol_positions ms).

Definition batched_features (ms : list molecule) : list (list R) :=
  concat (map mol_features ms).

(** The batch vector: the atoms of the [k]-th molecule carry id [k]. *)
Fixpoint batch_ids_from (k : nat) (ms : list molecule) : list nat :=
  match ms with
  | [] => []
  | m :: ms' =>
      repeat k (length (mol_positions m)) ++ batch_ids_from (S k) ms'
  end.

Definition batch_ids (ms : list molecule) : list nat := batch_ids_from 0 ms.

(** One molecule in a call of its own, and all of them in one call. *)
Definition evaluate_alone (self : GNN3.t) (m : molecule)
  : result (option (R * list (R * R * R))) :=
  GNN3.forward self (mol_positions m) [mol_lambda_sterics m]
    [mol_lambda_electrostatics m] true
    (Some (repeat 0%nat (length (mol_positions m))))
    (Some (mol_features m)).

Definition evaluate_batched (self : GNN3.t) (ms : list molecule)
  : result (option (R * list (R * R * R))) :=
  GNN3.forward self (batched_positions ms) (map mol_lambda_sterics ms)
    (map mol_lambda_electrostatics ms) true (Some (batch_ids ms))
    (Some (batched_features ms)).

(** Sum of message vectors, entry by entry; the empty vector is zero. *)
Fixpoint vadd (a b : list D) : list D :=
  match a, b with
  | [], _ => b
  | _, [] => a
  | x :: a', y :: b' => (x + y)%D :: vadd a' b'
  end.

(** The learned transforms of the four layers. *)
Record transforms : Type := mk_transforms {
  gb_message : list D -> list D -> D -> list D;
  gb_update : list D -> list D -> D * D;
  in1_message : list D -> list D -> D -> list D;
  in1_update : list D -> list D -> list D;
  in2_message : list D -> list D -> D -> list D;
  in2_update : list D -> list D -> D * D;
  energy_message : D * D -> D * D -> D -> list D;
  energy_update : D * D -> list D -> D
}.

(** Modelled from the spec: the model whose four layers are rounds of
    message passing (sections 4.3 to 4.5), with no stored [gnn_params]. *)
Definition message_passing_model (fraction gnn_radius : R)
  (max_num_neighbors : nat) (sterics electrostatics : ff_params)
  (w : transforms) : GNN3.t :=
  {| GNN3._fraction := fraction;
     GNN3._gnn_radius := gnn_radius;
     GNN3._max_num_neighbors := max_num_neighbors;
     GNN3.gnn_params := None;
     GNN3.sterics_ff := sterics;
     GNN3.electrostatics_ff := electrostatics;
     GNN3.aggregate_information :=
       fun x edge_index edge_attributes =>
         message_passing (gb_message w) vadd [] (gb_update w) []
                         x edge_index edge_attributes;
     GNN3.interaction1 :=
       fun edge_index x edge_attributes =>
         message_passing (in1_message w) vadd [] (in1_update w) []
                         x edge_index edge_attributes;
     GNN3.interaction2 :=
       fun edge_index x edge_attributes =>
         message_passing (in2_message w) vadd [] (in2_update w) []
                         x edge_index edge_attributes;
     GNN3.calculate_energies :=
       fun x edge_index edge_attributes =>
         message_passing (energy_message w) vadd [] (energy_update w)
                         (Dual.zero, Dual.zero)
                         x edge_index edge_attributes |}.

(** The rows of [small] sit in [big] from row [o] on. *)
Definition embeds {A : Type} (o : nat) (small big : list A) : Prop :=
  forall j, (j < length small)%nat ->
            nth_error big (o + j) = nth_error small j.

(** The edges that arrive at the atoms [o .. o + n - 1] of the big graph
    are those of the small graph, moved by [o]. *)
Definition graph_embeds (o n : nat)
  (small_index : list edge) (small_attributes : list D)
  (big_index : list edge) (big_attributes : list D) : Prop :=
  forall i, (i < n)%nat ->
    incoming big_index big_attributes (o + i)
    = map (fun sa => ((o + fst sa)%nat, snd sa))
          (incoming small_index small_attributes i)
    /\ forall sa, In sa (incoming small_index small_attributes i) ->
                  (fst sa < n)%nat.

(** The per-atom energies behind the two kinds of call. *)
Definition alone_energies (self : GNN3.t) (m : molecule) : list D :=
  resolved_energies Dual.no_grad self (track None (mol_positions m))
    [mol_lambda_sterics m] [mol_lambda_electrostatics m]
    (Some (repeat 0%nat (length (mol_positions m))))
    (Some (mol_features m)).

Definition batched_energies (self : GNN3.t) (ms : list molecule) : list D :=
  resolved_energies Dual.no_grad self (track None (batched_positions ms))
    (map mol_lambda_sterics ms) (map mol_lambda_electrostatics ms)
    (Some (batch_ids ms)) (Some (batched_features ms)).

(** Transforms for a small message-passing model, and two molecules of
    two atoms each. *)
Definition demo_transforms : transforms :=
  {| gb_message := fun _ _ d => [d];
     gb_update := fun x m => (Dual.sum m, nth 0 x Dual.zero);
     in1_message := fun s _ d => map (Dual.mul d) s;
     in1_update := fun x m => vadd x m;
     in2_message := fun s _ _ => s;
     in2_update := fun x m => (Dual.sum x, Dual.sum m);
     energy_message := fun s t d => [(snd s * snd t * d)%D];
     energy_update := fun x m => (fst x * Dual.sum m)%D |}.

Definition demo_molecules : list molecule :=
  [ {| mol_positions := [(0, 0, 0); (1, 0, 0)];
       mol_features := [[1; 0.15]; [-1; 0.15]];
       mol_lambda_sterics := 1;
       mol_lambda_electrostatics := 1 |};
    {| mol_positions := [(0, 0, 0); (0, 0.5, 0)];
       mol_features := [[0.5; 0.12]; [-0.5; 0.17]];
       mol_lambda_sterics := 0.5;
       mol_lambda_electrostatics := 0 |} ].

(** ** The datasets of [datasets/bigbind_solv.py] *)

Module Datasets.

(** One group of the HDF5 file: the charges, atomic numbers and GB
    parameters of a molecule, and one entry per simulation frame in every
    other dataset. *)
Record group : Type := mk_group {
  charges : list R;
  positions : list (list (R * R * R));
  atomic_numbers : list Z;
  solv_forces : list (list (R * R * R));
  lambda_sterics : list R;
  lambda_electrostatics : list R;
  sterics_derivatives : list R;
  electrostatics_derivatives : list R;
  gnn_params : list (list R)
}.

(** An open [h5py.File]: its groups by name. *)
Definition h5file : Type := list (string * group).

(** [list(self.file.keys())] *)
Definition keys (file : h5file) : list string := map fst file.

(** [self.file[key]] *)
Definition getgroup (file : h5file) (key : string) : result group :=
  match find (fun kg => String.eqb (fst kg) key) file with
  | Some kg => Ok (snd kg)
  | None => Raise (KeyError "Unable to open object")
  end.

(** [l[index]] on a Python list: a negative index counts from the end. *)
Definition list_getitem {A : Type} (l : list A) (index : Z) : result A :=
  let i := if (0 <=? index)%Z then index
           else (Z.of_nat (length l) + index)%Z in
  if (i <? 0)%Z then Raise (IndexError "list index out of range")
  else match nth_error l (Z.to_nat i) with
       | Some a => Ok a
       | None => Raise (IndexError "list index out of range")
       end.

(** [dataset[i]] for a frame number [i]. *)
Definition frame {A : Type} (dataset : list A) (i : nat) : result A :=
  match nth_error dataset i with
  | Some a => Ok a
  | None => Raise (IndexError "Index out of range")
  end.

(** [numpy.mean(.., axis=0)], [scipy.stats.trim_mean] and the particle
    parameters of OpenMM's [GBSAGBn2Force]: numerics of other libraries,
    taken as given. *)
Record numerics : Type := mk_numerics {
  mean_frames : list (list (R * R * R)) -> list (R * R * R);
  trim_mean : list R -> R -> R;
  particle_parameters : list R -> list (list R) -> list (list R)
}.

(** The record both datasets return ([Data] of torch_geometric, [MDData]
    of [datasets/md_batch.py]); a field a dataset does not set is [None]. *)
Record item : Type := mk_item {
  item_charges : list R;
  item_atom_features : option (list (list R));
  item_pos : list (R * R * R);
  item_atomic_numbers : list Z;
  item_forces : list (R * R * R);
  item_lambda_sterics : R;
  item_lambda_electrostatics : R;
  item_sterics_derivative : R;
  item_electrostatics_derivative : R
}.

Module MAFBigBind.

Record t : Type := mk { file : h5file; trim : R }.

Definition __len__ (self : t) : Z := Z.of_nat (length (keys (file self))).

Definition __getitem__ (np : numerics) (self : t) (index : Z)
  : result item :=
  if (index >=? __len__ self)%Z
  then Raise (IndexError "Index out of bounds")
  else
  key <- list_getitem (keys (file self)) index ;;
  group <- getgroup (file self) key ;;
  let q := charges group in
  positions <- frame (positions group) 0 ;;
  if (3 * length positions =? 0)%nat
  then Raise (IndexError "Empty positions encountered")
  else
  let all_forces := solv_forces group in
  let forces := mean_frames np all_forces in
  lambda_sterics <- frame (lambda_sterics group) 0 ;;
  lambda_electrostatics <- frame (lambda_electrostatics group) 0 ;;
  let sterics_derivative :=
    trim_mean np (sterics_derivatives group) (trim self) in
  let electrostatics_derivative :=
    trim_mean np (electrostatics_derivatives group) (trim self) in
  let gnn_data := particle_parameters np q (gnn_params group) in
  let gbn_gnn_data :=
    rows (length positions)
         (fun i => nth i gnn_data [] ++
                   [lambda_electrostatics; lambda_sterics]) in
  Ok {| item_charges := q;
        item_atom_features := Some gbn_gnn_data;
        item_pos := positions;
        item_atomic_numbers := atomic_numbers group;
        item_forces := forces;
        item_lambda_sterics := lambda_sterics;
        item_lambda_electrostatics := lambda_electrostatics;
        item_sterics_derivative := sterics_derivative;
        item_electrostatics_derivative := electrostatics_derivative |}.

End MAFBigBind.

Module BigBindSolvDataset.

(** [randint] stands for the draws of [torch.randint(0, high, (1,))]. *)
Record t : Type := mk {
  file : h5file;
  frame_index : option nat;
  randint : nat -> nat
}.

Definition length_ (self : t) : nat := length (keys (file self)).

Definition __len__ (self : t) : result Z :=
  match frame_index self with
  | Some f => Ok (Z.of_nat (length_ self) * Z.of_nat f)%Z
  | None =>
      Raise (TypeError "unsupported operand type(s) for *: 'int' and 'NoneType'")
  end.

(** [index % n] *)
Definition py_mod (index : Z) (n : nat) : result nat :=
  if (n =? 0)%nat
  then Raise (ZeroDivisionError "integer division or modulo by zero")
  else Ok (Z.to_nat (index mod Z.of_nat n)).

Definition choose_frame (self : t) (num_frames : nat) (index : Z)
  : result nat :=
  match frame_index self with
  | None =>
      if (num_frames =? 0)%nat
      then Raise (RuntimeError "random_ expects 'from' to be less than 'to'")
      else Ok (randint self num_frames)
  | Some f =>
      if (num_frames <? f)%nat
      then if (num_frames =? 0)%nat
           then Raise (RuntimeError "random_ expects 'from' to be less than 'to'")
           else Ok (randint self num_frames)
      else py_mod index f
  end.

Definition __getitem__ (self : t) (index : Z) : result item :=
  index_mod <- py_mod index (length_ self) ;;
  key <- list_getitem (keys (file self)) (Z.of_nat index_mod) ;;
  group <- getgroup (file self) key ;;
  let q := charges group in
  let all_positions := positions group in
  let all_forces := solv_forces group in
  frame_idx <- choose_frame self (length all_positions) index ;;
  positions <- frame all_positions frame_idx ;;
  forces <- frame all_forces frame_idx ;;
  lambda_sterics <- frame (lambda_sterics group) frame_idx ;;
  lambda_electrostatics <- frame (lambda_electrostatics group) frame_idx ;;
  sterics_derivative <- frame (sterics_derivatives group) frame_idx ;;
  electrostatics_derivative <-
    frame (electrostatics_derivatives group) frame_idx ;;
  Ok {| item_charges := q;
        item_atom_features := None;
        item_pos := positions;
        item_atomic_numbers := atomic_numbers group;
        item_forces := forces;
        item_lambda_sterics := lambda_sterics;
        item_lambda_electrostatics := lambda_electrostatics;
        item_sterics_derivative := sterics_derivative;
        item_electrostatics_derivative := electrostatics_derivative |}.

End BigBindSolvDataset.

(** A file with one molecule whose only frame holds no atom. *)
Definition no_atoms : group :=
  {| charges := [];
     positions := [[]];
     atomic_numbers := [];
     solv_forces := [[]];
     lambda_sterics := [1];
     lambda_electrostatics := [1];
     sterics_derivatives := [0];
     electrostatics_derivatives := [0];
     gnn_params := [] |}.

Definition no_atoms_file : h5file := [("mol"%string, no_atoms)].

Definition no_atoms_item : item :=
  {| item_charges := [];
     item_atom_features := None;
     item_pos := [];
     item_atomic_numbers := [];
     item_forces := [];
     item_lambda_sterics := 1;
     item_lambda_electrostatics := 1;
     item_sterics_derivative := 0;
     item_electrostatics_derivative := 0 |}.

Definition no_atoms_dataset : BigBindSolvDataset.t :=
  {| BigBindSolvDataset.file := no_atoms_file;
     BigBindSolvDataset.frame_index := Some 1%nat;
     BigBindSolvDataset.randint := fun _ => 0%nat |}.

End Datasets.

(** ** Inputs for the datasets *)

(** Stand-ins for the numerics of numpy, scipy and OpenMM: the first frame
    for the mean, the first entry for the trimmed mean, and the charge
    followed by the GB parameters for the particle parameters. *)
Definition plain_numerics : Datasets.numerics :=
  {| Datasets.mean_frames := fun frames => hd [] frames;
     Datasets.trim_mean := fun values _ => hd 0 values;
     Datasets.particle_parameters :=
       fun q gnn_params =>
         rows (length q) (fun i => nth i q 0 :: nth i gnn_params []) |}.

(** Two molecules of one atom, two frames each. *)
Definition two_frames (x : R) : Datasets.group :=
  {| Datasets.charges := [x];
     Datasets.positions := [[(x, 0, 0)]; [(x, 1, 0)]];
     Datasets.atomic_numbers := [6%Z];
     Datasets.solv_forces := [[(0, 0, 0)]; [(0, 0, 1)]];
     Datasets.lambda_sterics := [1; 0.5];
     Datasets.lambda_electrostatics := [1; 0];
     Datasets.sterics_derivatives := [0; 0.1];
     Datasets.electrostatics_derivatives := [0; 0.2];
     Datasets.gnn_params := [[0.15; 0.8]] |}.

Definition two_molecules_file : Datasets.h5file :=
  [("a"%string, two_frames 1); ("b"%string, two_frames 2)].

Definition two_molecules_maf : Datasets.MAFBigBind.t :=
  {| Datasets.MAFBigBind.file := two_molecules_file;
     Datasets.MAFBigBind.trim := 0 |}.

Definition two_molecules_dataset : Datasets.BigBindSolvDataset.t :=
  {| Datasets.BigBindSolvDataset.file := two_molecules_file;
     Datasets.BigBindSolvDataset.frame_index := Some 2%nat;
     Datasets.BigBindSolvDataset.randint := fun _ => 0%nat |}.

Definition empty_dataset : Datasets.BigBindSolvDataset.t :=
  {| Datasets.BigBindSolvDataset.file := [];
     Datasets.BigBindSolvDataset.frame_index := Some 2%nat;
     Datasets.BigBindSolvDataset.randint := fun _ => 0%nat |}.

(** ** Further readings of [forward] *)

(** All positions moved by one vector. *)
Definition translate (v : R * R * R) (positions : list (R * R * R))
  : list (R * R * R) :=
  map (fun p => let '(x, y, z) := p in
                let '(vx, vy, vz) := v in
                (x + vx, y + vy, z + vz))
      positions.

Definition returned_forces (r : result (option (R * list (R * R * R))))
  : option (list (R * R * R)) :=
  match r with
  | Ok (Some (_, forces)) => Some forces
  | _ => None
  end.

(** A GB evaluator that gives zero for every atom. *)
Definition no_GB_energies (Bc : list (D * D)) (edge_index : list edge)
  (edge_attributes : list D) (i : nat) : D :=
  Dual.zero.

Module JitGNN.

(** [JitGNN.forward]: the pair that [forward] of the parent class returns
    is unpacked and packed again; [None] cannot be unpacked. *)
Definition forward (self : GNN3.t) (positions : list (R * R * R))
  (lambda_sterics lambda_electrostatics : list R) (vaccum : bool)
  (batch : option (list nat)) (atom_features : option (list (list R)))
  : result (R * list (R * R * R)) :=
  r <- GNN3.forward self positions lambda_sterics lambda_electrostatics
         vaccum batch atom_features ;;
  match r with
  | Some (energies, forces) => Ok (energies, forces)
  | None => Raise (TypeError "cannot unpack non-iterable NoneType object")
  end.

End JitGNN.

(** The model with per-atom parameters stored in it. *)
Definition with_gnn_params (self : GNN3.t) (gnn_params : list (list R))
  : GNN3.t :=
  {| GNN3._fraction := GNN3._fraction self;
     GNN3._gnn_radius := GNN3._gnn_radius self;
     GNN3._max_num_neighbors := GNN3._max_num_neighbors self;
     GNN3.gnn_params := Some gnn_params;
     GNN3.sterics_ff := GNN3.sterics_ff self;
     GNN3.electrostatics_ff := GNN3.electrostatics_ff self;
     GNN3.aggregate_information := GNN3.aggregate_information self;
     GNN3.interaction1 := GNN3.interaction1 self;
     GNN3.interaction2 := GNN3.interaction2 self;
     GNN3.calculate_energies := GNN3.calculate_energies self |}.

(** ** The replicas of the replica model *)

(** [t[start:stop] = v] on a one-dimensional tensor: the slice is cut to
    the tensor and nothing is raised. *)
Definition setslice (t : list nat) (start stop v : nat) : list nat :=
  let stop := Nat.min stop (length t) in
  firstn start t ++ repeat v (stop - start) ++ skipn (Nat.max start stop) t.

(** [self._batch], set in [set_num_reps] (lines 679-691): zeros, then the
    slice of every replica is set to its number. *)
Definition _batch (self : RunMultiple.t) : list nat :=
  let n := length (RunMultiple._gbparameters self) in
  fold_left (fun _batch i => setslice _batch (i * n) ((i + 1) * n) i)
            (seq 0 (RunMultiple._num_reps self))
            (repeat 0%nat (RunMultiple._num_reps self * n)).

(** [build_gnn_graph] of the replica model (lines 755-770): edge index and
    edge attributes.  [__init__] sets [max_num_neighbors] to 10000 whatever
    it is given (written [100 * 100] here); [_gnn_radius] is the [radius] it
    is given. *)
Definition build_gnn_graph (self : RunMultiple.t) (_gnn_radius : R)
  (positions : list vec3) : list edge * list D :=
  let edge_index :=
    radius_graph positions _gnn_radius (Some (_batch self)) false
                 (100 * 100) in
  let distances := edge_distances positions edge_index in
  (edge_index, distances).

(** A replica model of two atoms whose layers give zero everywhere, as
    [__init__] builds it, and the object it gives for two replicas. *)
Definition two_atom_replicas (num_reps : nat) : result RunMultiple.t :=
  RunMultiple.__init__ 0.5 [[1; 0.15]; [-1; 0.17]] num_reps
    (fun _ _ _ _ => (Dual.zero, Dual.zero))
    (fun _ _ _ _ => [])
    (fun _ _ _ _ => [])
    (fun _ _ _ _ => (Dual.zero, Dual.zero))
    (fun _ _ _ _ => Dual.zero).

Definition two_replicas : RunMultiple.t :=
  {| RunMultiple._fraction := 0.5;
     RunMultiple._num_reps := 2;
     RunMultiple._gbparameters := [[1; 0.15]; [-1; 0.17]];
     RunMultiple._edge_index :=
       [(0, 1); (1, 0); (2, 3); (3, 2)]%nat;
     RunMultiple.aggregate_information :=
       fun _ _ _ _ => (Dual.zero, Dual.zero);
     RunMultiple.interaction1 := fun _ _ _ _ => [];
     RunMultiple.interaction2 := fun _ _ _ _ => [];
     RunMultiple.interaction3 := fun _ _ _ _ => (Dual.zero, Dual.zero);
     RunMultiple.calculate_energies := fun _ _ _ _ => Dual.zero |}.

(** ** The two GB-Neck models, [GNN_GBNeck] and [GNN_GBNeck_2] *)

Module GBNeck.

(** The two layers come from [MachineLearning/GNN_Layers.py]: fields of the
    model, each giving the output row of one atom index. *)
Record t : Type := mk {
  _gbparameters : list (list R);
  _radius : R;
  _max_num_neighbors : nat;
  _nobatch : bool;
  aggregate_information :
    list (list D) -> list edge -> list D -> nat -> D * D;
  calculate_energies : list (D * D) -> list edge -> list D -> nat -> D
}.

(** The attributes of [data] that the two [forward] and the two
    [build_graph] read.  [atomic_features] is read by
    [GNN_GBNeck.build_graph] alone; [None] is a [data] without it. *)
Record data : Type := mk_data {
  pos : list (R * R * R);
  atom_features : list (list R);
  atomic_features : option (list (list R));
  batch : list nat
}.

(** [t[:, j]] *)
Definition column (t : list (list R)) (j : nat) : result (list R) :=
  if forallb (fun row => (j <? length row)%nat) t
  then Ok (map (fun row => nth j row 0) t)
  else Raise (IndexError "index is out of bounds for dimension 1").

(** [t.item()]: the tensor must hold exactly one element. *)
Definition item (t : list R) : result R :=
  match t with
  | [a] => Ok a
  | _ => Raise (RuntimeError "Tensor cannot be converted to Scalar")
  end.

(** [torch.max(batch)] *)
Definition tensor_max (batch : list nat) : result nat :=
  match batch with
  | [] => Raise (RuntimeError "max(): Expected reduction dim to be specified for input.numel() == 0")
  | _ => Ok (list_max batch)
  end.

(** [batch.unique()]: the ids that occur, in increasing order. *)
Definition unique (batch : list nat) : list nat :=
  filter (fun b => existsb (Nat.eqb b) batch) (seq 0 (S (list_max batch))).

(** [torch.where(batch == b)] *)
Definition where_eq (batch : list nat) (b : nat) : list nat :=
  filter (fun i => (nth i batch 0 =? b)%nat) (seq 0 (length batch)).

(** [energy[b] = v] on the tensor that [torch.empty] gives: [None] is an
    entry that has not been written. *)
Definition set_energy (energy : list (option D)) (b : nat) (v : D)
  : result (list (option D)) :=
  if (b <? length energy)%nat
  then Ok (firstn b energy ++ Some v :: skipn (S b) energy)
  else Raise (IndexError "index is out of bounds for dimension 0").

(** Lines 141-150 and 182-191: the energy of every molecule. *)
Definition readout (self : t) (energies : list D) (batch : list nat)
  : result (list (option D)) :=
  if _nobatch self then Ok [Some (Dual.sum energies)]
  else
    m <- tensor_max batch ;;
    for_range (unique batch)
      (fun b energy =>
         selected <- gather energies (where_eq batch b) ;;
         set_energy energy b (Dual.sum selected))
      (repeat None (m + 1)).

(** [graph.atomic_features] in [GNN_GBNeck.build_graph] (line 103): the
    node features, which [forward] does not use. *)
Definition node_features (d : data) : result (list (list R)) :=
  match atomic_features d with
  | Some node_features => Ok node_features
  | None =>
      Raise (AttributeError "'GlobalStorage' object has no attribute 'atomic_features'")
  end.

(** The rest of [build_graph], the same in both classes: the radius graph
    of the [RadiusGraph] transform, which passes [data.batch] on, and the
    edge lengths.  [GNN_GBNeck_2.build_graph] reads [graph.atom_features],
    which every [data] here has. *)
Definition build_graph (self : t) (positions : list vec3) (batch : list nat)
  : list edge * list D :=
  let edge_index :=
    radius_graph positions (_radius self) (Some batch) false
                 (_max_num_neighbors self) in
  let distances := edge_distances positions edge_index in
  (edge_index, distances).

(** The per-atom energies for the feature rows [x]. *)
Definition energies_of (self : t) (x : list (list D))
  (positions : list vec3) (batch : list nat) : list D :=
  let edge_index := fst (build_graph self positions batch) in
  let edge_attributes := snd (build_graph self positions batch) in
  let n := length x in
  let Bc := rows n (aggregate_information self x edge_index edge_attributes) in
  rows n (calculate_energies self Bc edge_index edge_attributes).

(** What both [forward] do once [x] is chosen: energies, forces as the
    negative gradient of their sum, and the readout. *)
Definition outputs (self : t) (x : list (list D)) (d : data)
  : result (list (option R) * list (R * R * R)) :=
  let energies := energies_of self x (track None (pos d)) (batch d) in
  let derivative (i c : nat) : R :=
    tan (Dual.sum (energies_of self x (track (Some (i, c)) (pos d))
                     (batch d))) in
  let gradients :=
    rows (length (pos d))
         (fun i => (derivative i 0%nat, derivative i 1%nat,
                    derivative i 2%nat)) in
  let forces :=
    map (fun g => let '(gx, gy, gz) := g in (-1 * gx, -1 * gy, -1 * gz))
        gradients in
  energy <- readout self energies (batch d) ;;
  Ok (map (option_map val) energy, forces).

(** [GNN_GBNeck.forward] *)
Definition forward (self : t) (d : data)
  : result (list (option R) * list (R * R * R)) :=
  col <- column (atom_features d) 7 ;;
  lambda_electrostatics <- item col ;;
  node_features <- node_features d ;;
  m <- tensor_max (batch d) ;;
  let x := lift (concat (repeat (_gbparameters self) (m + 1))) in
  outputs self x d.

(** [GNN_GBNeck_2.forward] *)
Definition forward_2 (self : t) (d : data)
  : result (list (option R) * list (R * R * R)) :=
  outputs self (lift (atom_features d)) d.

End GBNeck.

(** A GB-Neck model whose energy of an atom is the first entry of its
    feature row, and inputs for it. *)
Definition first_feature_model : GBNeck.t :=
  {| GBNeck._gbparameters := [[1; 0.15]];
     GBNeck._radius := 0.4;
     GBNeck._max_num_neighbors := 32;
     GBNeck._nobatch := false;
     GBNeck.aggregate_information :=
       fun x _ _ i => (nth 0 (nth i x []) Dual.zero, Dual.zero);
     GBNeck.calculate_energies :=
       fun Bc _ _ i => fst (nth i Bc (Dual.zero, Dual.zero)) |}.

Definition one_atom : GBNeck.data :=
  {| GBNeck.pos := [(0, 0, 0)];
     GBNeck.atom_features := [[1; 0.15; 0; 0; 0; 0; 0; 1; 1]];
     GBNeck.atomic_features := Some [[6]];
     GBNeck.batch := [0%nat] |}.

Definition three_atoms : GBNeck.data :=
  {| GBNeck.pos := [(0, 0, 0); (1, 0, 0); (9, 0, 0)];
     GBNeck.atom_features := [[1; 0.15]; [2; 0.15]; [4; 0.15]];
     GBNeck.atomic_features := None;
     GBNeck.batch := [0; 0; 2]%nat |}.

(** * Properties *)

(** ** Sigmoid *)

Lemma sigmoidR_range (x : R) : 0 < sigmoidR x < 1.
Proof.
  unfold sigmoidR.
  pose proof (exp_pos (- x)) as He.
  split.
  - apply Rdiv_lt_0_compat; lra.
  - apply Rmult_lt_reg_r with (1 + exp (- x)); [lra|].
    unfold Rdiv. rewrite Rmult_assoc, Rinv_l by lra. lra.
Qed.

Lemma sigmoidR_0 : sigmoidR 0 = 1 / 2.
Proof. unfold sigmoidR. rewrite Ropp_0, exp_0. lra. Qed.

Lemma val_scale_born (fraction : R) (B c : D) :
  val (scale_born fraction B c) =
  val B * (fraction + sigmoidR (val c) * (1 - fraction) * 2).
Proof. reflexivity. Qed.

(** ** Lists *)

Lemma nth_map_seq {A : Type} (f : nat -> A) (a n i : nat) (d : A) :
  (i < n)%nat -> nth i (map f (seq a n)) d = f (a + i)%nat.
Proof.
  intros Hi.
  rewrite (nth_indep _ d (f 0%nat)) by (rewrite length_map, length_seq; lia).
  rewrite map_nth, seq_nth by lia. reflexivity.
Qed.

Lemma nth_rows {A : Type} (f : nat -> A) (n i : nat) (d : A) :
  (i < n)%nat -> nth i (rows n f) d = f i.
Proof. intros Hi. unfold rows. rewrite nth_map_seq by lia. reflexivity. Qed.

Lemma length_rows {A : Type} (f : nat -> A) (n : nat) :
  length (rows n f) = n.
Proof. unfold rows. rewrite length_map, length_seq. reflexivity. Qed.

(** ** The radial basis encoding *)

Lemma length_linspace (a b : R) (n : nat) : length (linspace a b n) = n.
Proof. unfold linspace. rewrite length_map, length_seq. reflexivity. Qed.

Lemma nth_linspace (a b : R) (n i : nat) :
  (i < n)%nat ->
  nth i (linspace a b n) 0 = a + INR i * ((b - a) / INR (n - 1)).
Proof. intros Hi. unfold linspace. rewrite nth_map_seq by lia. reflexivity. Qed.

Lemma bump_nonneg (m k : R) : 0 <= bump m k.
Proof. unfold bump. apply Rmax_l. Qed.

Lemma bump_outside (m k : R) : 0 < m -> m <= Rabs k -> bump m k = 0.
Proof.
  intros Hm Hk. unfold bump.
  apply Rmax_left.
  assert (Hu : 1 <= (k / m) ^ 2).
  { assert (Hk2 : m * m <= k * k).
    { unfold Rabs in Hk. destruct (Rcase_abs k); nra. }
    replace ((k / m) ^ 2) with ((k * k) / (m * m)) by (field; lra).
    apply Rmult_le_reg_r with (m * m); [nra|].
    unfold Rdiv. rewrite Rmult_assoc, Rinv_l by nra. lra. }
  set (v := 1 - (k / m) ^ 2) in *.
  assert (Hv : v <= 0) by (unfold v; lra).
  simpl. nra.
Qed.

(** C6 (as amended).  For every distance, [get_edge_features] returns
    [num_kernels] entries, one per center, and the centers run evenly from
    [min_range + margin] to [max_range - margin].  When the margin is not
    zero, every entry is [max(0, (1 - ((d - center) / margin)^2)^3)] and
    nonnegative; at margin zero the division has no value.  When the
    margin is positive, an entry is zero as soon as
    [|d - center| >= margin]. *)
Theorem rbf_contract_by_margin
  (d alpha max_range min_range : R) (num_kernels : nat) :
  let m := margin alpha max_range min_range num_kernels in
  let cs := centers alpha max_range min_range num_kernels in
  let out := get_edge_features d alpha max_range min_range num_kernels in
  length out = num_kernels /\
  length cs = num_kernels /\
  (forall i, (i < num_kernels)%nat ->
     nth i cs 0 =
     (min_range + m) +
     INR i * (((max_range - m) - (min_range + m)) / INR (num_kernels - 1))) /\
  ((1 <= num_kernels)%nat -> nth 0 cs 0 = min_range + m) /\
  ((2 <= num_kernels)%nat -> nth (num_kernels - 1) cs 0 = max_range - m) /\
  (m <> 0 ->
   forall i, (i < num_kernels)%nat ->
     nth i out 0 = Rmax 0 ((1 - ((d - nth i cs 0) / m) ^ 2) ^ 3) /\
     0 <= nth i out 0) /\
  (0 < m ->
   forall i, (i < num_kernels)%nat ->
     m <= Rabs (d - nth i cs 0) -> nth i out 0 = 0).
Proof.
  cbv zeta. unfold get_edge_features, centers.
  set (m := margin alpha max_range min_range num_kernels) in *.
  split; [rewrite length_map, length_linspace; reflexivity|].
  split; [apply length_linspace|].
  split; [intros i Hi; apply nth_linspace; exact Hi|].
  split.
  { intros Hn. rewrite nth_linspace by lia. simpl INR. rewrite Rmult_0_l.
    lra. }
  split.
  { intros Hn. rewrite nth_linspace by lia.
    assert (Hpos : 0 < INR (num_kernels - 1)) by (apply lt_0_INR; lia).
    field. lra. }
  split.
  - intros _ i Hi.
    rewrite (nth_indep _ 0 (bump m (d - 0)))
      by (rewrite length_map, length_linspace; lia).
    rewrite (map_nth (fun c => bump m (d - c))).
    split; [reflexivity | apply bump_nonneg].
  - intros Hm i Hi Hout.
    rewrite (nth_indep _ 0 (bump m (d - 0)))
      by (rewrite length_map, length_linspace; lia).
    rewrite (map_nth (fun c => bump m (d - c))).
    apply bump_outside; assumption.
Qed.

Lemma rbf_contract_by_margin_witness :
  nth 0 (get_edge_features 0.45 2 0.4 0.1 32) 0 = 0.
Proof.
  assert (Hm : 0 < margin 2 0.4 0.1 32) by (unfold margin; simpl; lra).
  pose proof (rbf_contract_by_margin 0.45 2 0.4 0.1 32) as H.
  cbv zeta in H. destruct H as (_ & _ & _ & Hfirst & _ & _ & Hzero).
  apply (Hzero Hm 0%nat); [lia|].
  rewrite Hfirst by lia.
  rewrite Rabs_right by (unfold margin; simpl; lra).
  unfold margin. simpl. lra.
Defined.

(** With the two ranges in the other order, [max_range = 0.1] and
    [min_range = 0.4], the margin is negative: every distance is "at least
    the margin" away from a center, and the entry at the center is one,
    not zero. *)
Lemma rbf_contract_negative_margin : ~ rbf_contract 0.1 2 0.1 0.4 1.
Proof.
  unfold rbf_contract. intros (_ & _ & _ & _ & _ & H).
  destruct (H 0%nat ltac:(lia)) as (_ & _ & Hz).
  assert (Hm : margin 2 0.1 0.4 1 = -0.3) by (unfold margin; simpl; lra).
  assert (Hc : nth 0 (centers 2 0.1 0.4 1) 0 = 0.1).
  { unfold centers. rewrite nth_linspace by lia. rewrite Hm. simpl INR.
    rewrite Rmult_0_l. lra. }
  rewrite Hc, Hm in Hz.
  assert (Hout : nth 0 (get_edge_features 0.1 2 0.1 0.4 1) 0 = 1).
  { unfold get_edge_features.
    rewrite (nth_indep _ 0 (bump (margin 2 0.1 0.4 1) (0.1 - 0)))
      by (rewrite length_map; unfold centers; rewrite length_linspace; lia).
    rewrite (map_nth (fun c => bump (margin 2 0.1 0.4 1) (0.1 - c))).
    rewrite Hc, Hm. unfold bump.
    replace (0.1 - 0.1) with 0 by lra.
    replace ((1 - (0 / -0.3) ^ 2) ^ 3) with 1 by (field; lra).
    apply Rmax_right. lra. }
  rewrite Hout in Hz.
  assert (Habs : -0.3 <= Rabs (0.1 - 0.1)).
  { replace (0.1 - 0.1) with 0 by lra. rewrite Rabs_R0. lra. }
  specialize (Hz Habs). lra.
Qed.

(** ** The bounded correction of the Born radius *)

(** C3 (as amended).  For a fraction of at most one, a raw Born term
    [B >= 0] and any output of the correction network, the corrected Born
    radius lies between [fraction * B] and [(1 + (1 - fraction)) * B]. *)
Theorem correction_bound_fraction_le_1 (fraction : R) (B c_scale : D) :
  fraction <= 1 -> 0 <= val B -> correction_bound fraction B c_scale.
Proof.
  intros Hf HB. unfold correction_bound. rewrite val_scale_born.
  pose proof (sigmoidR_range (val c_scale)) as [Hs0 Hs1].
  set (s := sigmoidR (val c_scale)) in *.
  assert (Hlo : 0 <= val B * (s * (1 - fraction)))
    by (apply Rmult_le_pos; [lra | apply Rmult_le_pos; lra]).
  assert (Hhi : 0 <= val B * ((1 - s) * (1 - fraction)))
    by (apply Rmult_le_pos; [lra | apply Rmult_le_pos; lra]).
  split; lra.
Qed.

Lemma correction_bound_fraction_le_1_witness :
  correction_bound 0.5 (Dual.const 2) (Dual.const 0).
Proof.
  apply correction_bound_fraction_le_1; simpl; lra.
Defined.

(** With [fraction = 1.5] and a correction output of zero the radius is
    scaled by one, below [fraction]. *)
Lemma correction_bound_fraction_above_1 :
  0 <= val (Dual.const 1) /\
  ~ correction_bound 1.5 (Dual.const 1) (Dual.const 0).
Proof.
  split; [simpl; lra|].
  unfold correction_bound. rewrite val_scale_born. simpl.
  rewrite sigmoidR_0. lra.
Qed.

(** ** Running [forward] on well-formed inputs *)

Lemma length_track (direction : option (nat * nat))
  (positions : list (R * R * R)) :
  length (track direction positions) = length positions.
Proof.
  unfold track. rewrite length_map, length_combine, length_seq. lia.
Qed.

Lemma length_scales (p : ff_params) (lambda : list R) :
  length (scales p lambda) = length lambda.
Proof. unfold scales. apply length_map. Qed.

Lemma gather_in_range (scale : list D) (batch : list nat) :
  in_range (length scale) batch = true ->
  gather scale batch = Ok (map (fun b => nth b scale Dual.zero) batch).
Proof.
  induction batch as [|b batch IH]; simpl; intros H.
  - reflexivity.
  - apply andb_prop in H as [Hb Hrest].
    apply Nat.ltb_lt in Hb.
    destruct (nth_error scale b) as [v|] eqn:Hv.
    + rewrite (IH Hrest). simpl.
      rewrite (nth_error_nth _ _ _ Hv). reflexivity.
    + apply nth_error_None in Hv. lia.
Qed.

Lemma expand_expandable (t : list D) (n : nat) :
  expandable (length t) n = true -> expand t n = Ok (broadcast t n).
Proof.
  unfold expandable, expand, broadcast. intros H.
  destruct (length t =? n)%nat; [reflexivity|].
  simpl in H. rewrite H. reflexivity.
Qed.

Lemma length_broadcast (t : list D) (n : nat) :
  expandable (length t) n = true -> length (broadcast t n) = n.
Proof.
  unfold expandable, broadcast. intros H.
  destruct (length t =? n)%nat eqn:E.
  - apply Nat.eqb_eq in E. exact E.
  - apply repeat_length.
Qed.

Lemma length_lift (t : list (list R)) : length (lift t) = length t.
Proof. unfold lift. apply length_map. Qed.

Lemma width_lift (af : list (list R)) :
  forallb (fun row => (2 <=? length row)%nat) (lift af)
  = forallb (fun row => (2 <=? length row)%nat) af.
Proof.
  induction af as [|row af IH].
  - reflexivity.
  - unfold lift in *. cbn [map forallb]. rewrite length_map. f_equal. exact IH.
Qed.

Lemma width_rows_app (n : nat) (f : nat -> list D) (a b : nat -> D) :
  forallb (fun row => (2 <=? length row)%nat)
          (rows n (fun i => f i ++ [a i; b i])) = true.
Proof.
  apply forallb_forall. intros row Hrow.
  unfold rows in Hrow. apply in_map_iff in Hrow as (i & <- & _).
  rewrite length_app. apply Nat.leb_le. simpl. lia.
Qed.

Lemma inputs_well_formed (self : GNN3.t) (num_positions : nat)
  (lambda_sterics lambda_electrostatics : list R)
  (batch : option (list nat)) (atom_features : option (list (list R))) :
  well_formed self num_positions lambda_sterics lambda_electrostatics
              batch atom_features = true ->
  GNN3.inputs self num_positions lambda_sterics lambda_electrostatics
              batch atom_features
  = Ok (resolved_features self num_positions lambda_sterics
          lambda_electrostatics atom_features,
        per_atom_scale (GNN3.sterics_ff self) lambda_sterics
          (resolved_batch self batch),
        per_atom_scale (GNN3.electrostatics_ff self) lambda_electrostatics
          (resolved_batch self batch)).
Proof.
  unfold well_formed, GNN3.inputs, GNN3.default_batch, GNN3.node_features,
    resolved_batch, resolved_features, per_atom_scale.
  destruct (GNN3.gnn_params self) as [gp|].
  - set (b := match batch with
              | Some b => b
              | None => repeat 0%nat (length gp)
              end).
    intros H.
    apply andb_prop in H as [H Hlen].
    apply andb_prop in H as [H Hbs].
    apply andb_prop in H as [H Hbe].
    apply andb_prop in H as [H Hgp].
    apply andb_prop in H as [Hxe Hxs].
    rewrite <- (length_scales (GNN3.electrostatics_ff self)) in Hbe.
    rewrite <- (length_scales (GNN3.sterics_ff self)) in Hbs.
    rewrite <- (length_map Dual.const lambda_electrostatics) in Hxe.
    rewrite <- (length_map Dual.const lambda_sterics) in Hxs.
    replace (match batch with
             | Some b0 => Ok b0
             | None => Ok (repeat 0%nat (length gp))
             end) with (Ok b) by (destruct batch; reflexivity).
    replace (match batch with
             | Some b0 => b0
             | None => repeat 0%nat (length gp)
             end) with b by reflexivity.
    simpl.
    rewrite (expand_expandable _ _ Hxe). simpl.
    rewrite (expand_expandable _ _ Hxs). simpl.
    unfold cat_columns.
    rewrite !length_broadcast, length_lift by assumption.
    rewrite Hgp, Nat.eqb_refl. simpl.
    rewrite (gather_in_range _ _ Hbe). simpl.
    rewrite (gather_in_range _ _ Hbs). simpl.
    rewrite width_rows_app. simpl.
    rewrite length_rows, Hlen. reflexivity.
  - destruct batch as [b|]; [|discriminate].
    destruct atom_features as [af|]; [|discriminate].
    intros H.
    apply andb_prop in H as [H Hlen].
    apply andb_prop in H as [H Hw].
    apply andb_prop in H as [Hbe Hbs].
    rewrite <- (length_scales (GNN3.electrostatics_ff self)) in Hbe.
    rewrite <- (length_scales (GNN3.sterics_ff self)) in Hbs.
    simpl.
    rewrite (gather_in_range _ _ Hbe). simpl.
    rewrite (gather_in_range _ _ Hbs). simpl.
    rewrite width_lift, Hw. simpl.
    rewrite length_lift, Hlen. reflexivity.
Qed.

Lemma energies_with_well_formed (under_no_grad : D -> D) (self : GNN3.t)
  (positions : list vec3) (lambda_sterics lambda_electrostatics : list R)
  (batch : option (list nat)) (atom_features : option (list (list R))) :
  well_formed self (length positions) lambda_sterics lambda_electrostatics
              batch atom_features = true ->
  GNN3.energies_with under_no_grad self positions lambda_sterics
    lambda_electrostatics batch atom_features
  = Ok (resolved_energies under_no_grad self positions lambda_sterics
          lambda_electrostatics batch atom_features).
Proof.
  intros H. unfold GNN3.energies_with.
  rewrite (inputs_well_formed _ _ _ _ _ _ H). reflexivity.
Qed.

Lemma forward_with_well_formed (under_no_grad : D -> D) (self : GNN3.t)
  (positions : list (R * R * R))
  (lambda_sterics lambda_electrostatics : list R) (retrieve_forces : bool)
  (batch : option (list nat)) (atom_features : option (list (list R))) :
  well_formed self (length positions) lambda_sterics lambda_electrostatics
              batch atom_features = true ->
  exists forces,
    GNN3.forward_with under_no_grad self positions lambda_sterics
      lambda_electrostatics retrieve_forces batch atom_features
    = if retrieve_forces
      then Ok (Some (val (Dual.sum
                            (resolved_energies under_no_grad self
                               (track None positions) lambda_sterics
                               lambda_electrostatics batch atom_features)),
                     forces))
      else Ok None.
Proof.
  intros H. unfold GNN3.forward_with.
  rewrite energies_with_well_formed
    by (rewrite length_track; exact H).
  simpl. destruct retrieve_forces; eauto.
Qed.

(** ** What [forward] returns *)

Lemma forward_with_well_formed_value (under_no_grad : D -> D)
  (self : GNN3.t) (positions : list (R * R * R))
  (lambda_sterics lambda_electrostatics : list R)
  (batch : option (list nat)) (atom_features : option (list (list R))) :
  well_formed self (length positions) lambda_sterics lambda_electrostatics
              batch atom_features = true ->
  GNN3.forward_with under_no_grad self positions lambda_sterics
    lambda_electrostatics true batch atom_features
  = Ok (Some
          (val (Dual.sum
                  (resolved_energies under_no_grad self
                     (track None positions) lambda_sterics
                     lambda_electrostatics batch atom_features)),
           rows (length positions)
             (fun i =>
                (- tan (Dual.sum
                          (resolved_energies under_no_grad self
                             (track (Some (i, 0%nat)) positions)
                             lambda_sterics lambda_electrostatics batch
                             atom_features)),
                 - tan (Dual.sum
                          (resolved_energies under_no_grad self
                             (track (Some (i, 1%nat)) positions)
                             lambda_sterics lambda_electrostatics batch
                             atom_features)),
                 - tan (Dual.sum
                          (resolved_energies under_no_grad self
                             (track (Some (i, 2%nat)) positions)
                             lambda_sterics lambda_electrostatics batch
                             atom_features)))))).
Proof.
  intros H. unfold GNN3.forward_with.
  rewrite energies_with_well_formed by (rewrite length_track; exact H).
  cbn [bind]. do 3 f_equal.
  unfold rows. rewrite map_map. apply map_ext. intros i.
  rewrite !energies_with_well_formed by (rewrite length_track; exact H).
  reflexivity.
Qed.

(** C10.  A call with [retrieve_forces] false never returns a value other
    than [None]: it returns [None] or it raises.  A pair is returned only
    with [retrieve_forces] true.  On well-formed inputs the call with
    [retrieve_forces] false returns [None], and the call with
    [retrieve_forces] true returns the pair of the total energy, the sum
    of the per-atom energies, and the forces, the negative derivative of
    that sum along every coordinate of every atom. *)
Theorem forward_return_paths (self : GNN3.t) (positions : list (R * R * R))
  (lambda_sterics lambda_electrostatics : list R)
  (batch : option (list nat)) (atom_features : option (list (list R))) :
  (GNN3.forward self positions lambda_sterics lambda_electrostatics false
     batch atom_features = Ok None
   \/ raises (GNN3.forward self positions lambda_sterics
                lambda_electrostatics false batch atom_features)) /\
  (forall retrieve_forces v,
     GNN3.forward self positions lambda_sterics lambda_electrostatics
       retrieve_forces batch atom_features = Ok (Some v) ->
     retrieve_forces = true) /\
  (well_formed self (length positions) lambda_sterics lambda_electrostatics
               batch atom_features = true ->
   let energies direction :=
     resolved_energies Dual.no_grad self (track direction positions)
       lambda_sterics lambda_electrostatics batch atom_features in
   GNN3.forward self positions lambda_sterics lambda_electrostatics false
     batch atom_features = Ok None /\
   GNN3.forward self positions lambda_sterics lambda_electrostatics true
     batch atom_features
   = Ok (Some
           (val (Dual.sum (energies None)),
            rows (length positions)
              (fun i =>
                 (- tan (Dual.sum (energies (Some (i, 0%nat)))),
                  - tan (Dual.sum (energies (Some (i, 1%nat)))),
                  - tan (Dual.sum (energies (Some (i, 2%nat))))))))).
Proof.
  unfold GNN3.forward.
  split; [|split].
  - unfold GNN3.forward_with.
    destruct (GNN3.energies_with Dual.no_grad self (track None positions)
                lambda_sterics lambda_electrostatics batch atom_features)
      as [e|e]; simpl.
    + left. reflexivity.
    + right. exists e. reflexivity.
  - intros retrieve_forces v. unfold GNN3.forward_with.
    destruct (GNN3.energies_with Dual.no_grad self (track None positions)
                lambda_sterics lambda_electrostatics batch atom_features)
      as [e|e]; simpl.
    + destruct retrieve_forces; [reflexivity | discriminate].
    + discriminate.
  - intros H. cbv zeta. split.
    + destruct (forward_with_well_formed Dual.no_grad self positions
                  lambda_sterics lambda_electrostatics false batch
                  atom_features H) as [forces Hf].
      exact Hf.
    + apply (forward_with_well_formed_value Dual.no_grad self positions
               lambda_sterics lambda_electrostatics batch atom_features H).
Qed.

Lemma forward_return_paths_witness :
  GNN3.forward Demo.model Demo.positions [1] [1] true (Some Demo.batch)
    (Some Demo.atom_features)
  = Ok (Some
          (val (Dual.sum
                  (resolved_energies Dual.no_grad Demo.model
                     (track None Demo.positions) [1] [1]
                     (Some Demo.batch) (Some Demo.atom_features))),
           rows (length Demo.positions)
             (fun i =>
                (- tan (Dual.sum
                          (resolved_energies Dual.no_grad Demo.model
                             (track (Some (i, 0%nat)) Demo.positions)
                             [1] [1] (Some Demo.batch)
                             (Some Demo.atom_features))),
                 - tan (Dual.sum
                          (resolved_energies Dual.no_grad Demo.model
                             (track (Some (i, 1%nat)) Demo.positions)
                             [1] [1] (Some Demo.batch)
                             (Some Demo.atom_features))),
                 - tan (Dual.sum
                          (resolved_energies Dual.no_grad Demo.model
                             (track (Some (i, 2%nat)) Demo.positions)
                             [1] [1] (Some Demo.batch)
                             (Some Demo.atom_features))))))).
Proof.
  apply (proj2 (proj2 (forward_return_paths Demo.model Demo.positions
                         [1] [1] (Some Demo.batch)
                         (Some Demo.atom_features)))).
  reflexivity.
Defined.

(** ** Energies at lambda zero *)

Lemma val_sum_zero (l : list D) :
  Forall (fun d => val d = 0) l -> val (Dual.sum l) = 0.
Proof.
  induction 1 as [|d l Hd _ IH]; simpl.
  - reflexivity.
  - rewrite Hd, IH. lra.
Qed.

Lemma scales_at_zero (p : ff_params) (lambda : list R) :
  Forall (fun l => l = 0) lambda ->
  Forall (fun s => val s = 0) (scales p lambda).
Proof.
  unfold scales. induction 1 as [|l lambda Hl _ IH]; simpl.
  - constructor.
  - constructor; [|exact IH]. subst l. simpl. lra.
Qed.

Lemma nth_val_zero (l : list D) (i : nat) :
  Forall (fun s => val s = 0) l -> val (nth i l Dual.zero) = 0.
Proof.
  intros H. destruct (Nat.lt_ge_cases i (length l)) as [Hi|Hi].
  - rewrite Forall_forall in H. apply H. apply nth_In. exact Hi.
  - rewrite nth_overflow by exact Hi. reflexivity.
Qed.

Lemma per_atom_scale_at_zero (p : ff_params) (lambda : list R)
  (batch : list nat) :
  Forall (fun l => l = 0) lambda ->
  Forall (fun s => val s = 0) (per_atom_scale p lambda batch).
Proof.
  intros H. unfold per_atom_scale. apply Forall_forall.
  intros s Hs. apply in_map_iff in Hs as (b & <- & _).
  apply nth_val_zero. apply scales_at_zero. exact H.
Qed.

Lemma atom_energies_at_zero (under_no_grad : D -> D) (self : GNN3.t)
  (edge_index : list edge) (edge_attributes : list D)
  (gnn_edge_index : list edge) (gnn_edge_attributes : list D)
  (x : list (list D)) (l_sterics l_electrostatics : list D) :
  Forall (fun s => val s = 0) l_sterics ->
  Forall (fun s => val s = 0) l_electrostatics ->
  Forall (fun e => val e = 0)
    (GNN3.atom_energies under_no_grad self edge_index edge_attributes
       gnn_edge_index gnn_edge_attributes x l_sterics l_electrostatics).
Proof.
  intros Hs He. unfold GNN3.atom_energies.
  apply Forall_forall. intros e Hin.
  unfold rows in Hin at 1. apply in_map_iff in Hin as (i & <- & _).
  cbn [val Dual.add Dual.mul].
  rewrite (nth_val_zero _ i Hs), (nth_val_zero _ i He). lra.
Qed.

(** C4.  With every entry of [lambda_sterics] and [lambda_electrostatics]
    zero, both learned scales are zero (each is the network output times
    the raw lambda) and a well-formed call returns a total energy of
    zero. *)
Theorem zero_lambda_energy (self : GNN3.t) (positions : list (R * R * R))
  (lambda_sterics lambda_electrostatics : list R)
  (batch : option (list nat)) (atom_features : option (list (list R))) :
  well_formed self (length positions) lambda_sterics lambda_electrostatics
              batch atom_features = true ->
  Forall (fun l => l = 0) lambda_sterics ->
  Forall (fun l => l = 0) lambda_electrostatics ->
  Forall (fun s => val s = 0) (scales (GNN3.sterics_ff self) lambda_sterics)
  /\ Forall (fun s => val s = 0)
       (scales (GNN3.electrostatics_ff self) lambda_electrostatics)
  /\ exists forces,
       GNN3.forward self positions lambda_sterics lambda_electrostatics true
         batch atom_features = Ok (Some (0, forces)).
Proof.
  intros Hwf Hs He.
  split; [apply scales_at_zero; exact Hs|].
  split; [apply scales_at_zero; exact He|].
  destruct (forward_with_well_formed Dual.no_grad self positions
              lambda_sterics lambda_electrostatics true batch atom_features
              Hwf) as [forces Hf].
  exists forces. unfold GNN3.forward. rewrite Hf.
  unfold resolved_energies.
  rewrite val_sum_zero; [reflexivity|].
  apply atom_energies_at_zero; apply per_atom_scale_at_zero; assumption.
Qed.

Lemma zero_lambda_energy_witness :
  exists forces,
    GNN3.forward Demo.model Demo.positions [0] [0] true (Some Demo.batch)
      (Some Demo.atom_features) = Ok (Some (0, forces)).
Proof.
  apply (zero_lambda_energy Demo.model Demo.positions [0] [0]
           (Some Demo.batch) (Some Demo.atom_features)).
  - reflexivity.
  - repeat constructor.
  - repeat constructor.
Defined.

(** ** The test for missing parameters *)

Lemma forward_without_batch (self : GNN3.t) (positions : list (R * R * R))
  (lambda_sterics lambda_electrostatics : list R) (retrieve_forces : bool)
  (atom_features : option (list (list R))) :
  GNN3.gnn_params self = None ->
  GNN3.forward self positions lambda_sterics lambda_electrostatics
    retrieve_forces None atom_features
  = Raise (TypeError "object of type 'NoneType' has no len()").
Proof.
  intros H.
  unfold GNN3.forward, GNN3.forward_with, GNN3.energies_with, GNN3.inputs,
    GNN3.default_batch.
  rewrite H. reflexivity.
Qed.

Lemma gather_raise (scale : list D) (batch : list nat) (e : exn) :
  gather scale batch = Raise e -> e = IndexError "index out of range in self".
Proof.
  induction batch as [|b batch IH]; simpl.
  - discriminate.
  - destruct (nth_error scale b).
    + destruct (gather scale batch); simpl.
      * discriminate.
      * intros H. apply IH. exact H.
    + intros H. injection H as <-. reflexivity.
Qed.

Ltac inputs_cases :=
  repeat match goal with
         | |- context [if ?c then _ else _] => destruct c; cbn [bind]
         | |- context [gather ?s ?l] =>
             let E := fresh "E" in
             destruct (gather s l) eqn:E; cbn [bind];
             [| apply gather_raise in E; subst ]
         end.

Lemma forward_with_batch_no_params (self : GNN3.t)
  (positions : list (R * R * R))
  (lambda_sterics lambda_electrostatics : list R) (retrieve_forces : bool)
  (b : list nat) (atom_features : option (list (list R))) :
  GNN3.forward self positions lambda_sterics lambda_electrostatics
    retrieve_forces (Some b) atom_features
  = Raise (Exception "No GNN Params Given")
  <-> GNN3.gnn_params self = None /\ atom_features = None.
Proof.
  unfold GNN3.forward, GNN3.forward_with, GNN3.energies_with, GNN3.inputs,
    GNN3.default_batch, GNN3.node_features.
  split.
  - destruct (GNN3.gnn_params self) as [gp|].
    + intros H. exfalso. revert H. cbn [bind].
      unfold expand, cat_columns.
      inputs_cases; cbn -[GNN3.edge_index GNN3.gnn_edge_index]; intros H; discriminate H.
    + destruct atom_features as [af|]; [|tauto].
      intros H. exfalso. revert H. cbn [bind].
      inputs_cases; cbn -[GNN3.edge_index GNN3.gnn_edge_index]; intros H; discriminate H.
  - intros [Hgp Haf]. rewrite Hgp, Haf. reflexivity.
Qed.

(** C8 (the code at the failing input).  Without a batch vector and
    without [gnn_params], the default batch is asked for the length of
    [None]: the call raises a [TypeError], whether or not [atom_features]
    is given, and the test that raises "No GNN Params Given" is never
    reached. *)
Theorem forward_no_params_no_batch :
  GNN3.forward Demo.model Demo.positions [1] [1] true None None
  = Raise (TypeError "object of type 'NoneType' has no len()") /\
  GNN3.forward Demo.model Demo.positions [1] [1] true None
    (Some Demo.atom_features)
  = Raise (TypeError "object of type 'NoneType' has no len()") /\
  GNN3.forward Demo.model Demo.positions [1] [1] true (Some Demo.batch) None
  = Raise (Exception "No GNN Params Given").
Proof.
  split; [|split].
  - apply forward_without_batch. reflexivity.
  - apply forward_without_batch. reflexivity.
  - apply forward_with_batch_no_params. split; reflexivity.
Qed.

(** ** Neighbour graphs *)

Lemma in_insert_by (key : nat -> R) (a b : nat) (l : list nat) :
  In b (insert_by key a l) <-> b = a \/ In b l.
Proof.
  induction l as [|c l IH]; simpl.
  - intuition.
  - destruct (Rle_dec (key a) (key c)); simpl; [intuition|].
    rewrite IH. intuition.
Qed.

Lemma in_sort_by (key : nat -> R) (b : nat) (l : list nat) :
  In b (sort_by key l) <-> In b l.
Proof.
  induction l as [|a l IH]; simpl.
  - reflexivity.
  - rewrite in_insert_by, IH. intuition.
Qed.

Lemma in_firstn {A : Type} (n : nat) (a : A) (l : list A) :
  In a (firstn n l) -> In a l.
Proof.
  intros H. rewrite <- (firstn_skipn n l). apply in_or_app. left. exact H.
Qed.

Lemma in_neighbours (x : list vec3) (r : R) (batch : option (list nat))
  (loop : bool) (cap s t : nat) :
  In s (neighbours x r batch loop cap t) ->
  (loop = true \/ s <> t) /\ same_batch batch s t = true
  /\ (s < length x)%nat.
Proof.
  unfold neighbours. intros H.
  apply in_firstn in H. apply in_sort_by in H.
  apply filter_In in H as [Hs H].
  apply in_seq in Hs.
  apply andb_prop in H as [H _]. apply andb_prop in H as [Hl Hb].
  repeat split; [|exact Hb|lia].
  apply orb_prop in Hl as [Hl|Hl]; [left; exact Hl|right].
  apply negb_true_iff, Nat.eqb_neq in Hl. exact Hl.
Qed.

Lemma in_radius_graph (x : list vec3) (r : R) (batch : option (list nat))
  (loop : bool) (cap s t : nat) :
  In (s, t) (radius_graph x r batch loop cap) <->
  (t < length x)%nat /\ In s (neighbours x r batch loop cap t).
Proof.
  unfold radius_graph. rewrite in_flat_map. split.
  - intros (t' & Ht & Hin). apply in_map_iff in Hin as (s' & E & Hs).
    injection E as <- <-. apply in_seq in Ht. split; [lia | exact Hs].
  - intros [Ht Hs]. exists t. split; [apply in_seq; lia|].
    apply in_map_iff. exists s. split; [reflexivity | exact Hs].
Qed.


(** ** [build_edge_idx] *)

Lemma setitem_next (a : list nat) (k v : nat) :
  setitem (a ++ repeat 0%nat (S k)) (length a) v
  = Ok ((a ++ [v]) ++ repeat 0%nat k).
Proof.
  unfold setitem.
  assert (Hlt : (length a <? length (a ++ repeat 0%nat (S k)))%nat = true).
  { apply Nat.ltb_lt. rewrite length_app, repeat_length. lia. }
  rewrite Hlt.
  rewrite firstn_app, firstn_all, Nat.sub_diag. simpl firstn.
  rewrite app_nil_r.
  rewrite skipn_app, skipn_all2 by lia.
  replace (S (length a) - length a)%nat with 1%nat by lia.
  simpl. rewrite <- app_assoc. reflexivity.
Qed.

Lemma set_edge_next (done : list edge) (k s t : nat) :
  set_edge (written done (S k)) (length done) s t
  = Ok (written (done ++ [(s, t)]) k).
Proof.
  unfold set_edge, written. cbn [fst snd].
  rewrite <- (length_map fst done) at 1.
  rewrite setitem_next. cbn [bind].
  rewrite <- (length_map snd done) at 1.
  rewrite setitem_next. cbn [bind].
  rewrite !map_app. reflexivity.
Qed.

Lemma length_others_above (node c0 m : nat) :
  (node < c0)%nat ->
  length (filter (fun con => negb (con =? node)%nat) (seq c0 m)) = m.
Proof.
  revert c0. induction m as [|m IH]; intros c0 H.
  - reflexivity.
  - cbn [seq filter].
    replace (c0 =? node)%nat with false by (symmetry; apply Nat.eqb_neq; lia).
    cbn [negb length]. rewrite IH by lia. reflexivity.
Qed.

Lemma length_others (node c0 m : nat) :
  (c0 <= node < c0 + m)%nat ->
  length (filter (fun con => negb (con =? node)%nat) (seq c0 m))
  = (m - 1)%nat.
Proof.
  revert c0. induction m as [|m IH]; intros c0 H.
  - lia.
  - cbn [seq filter]. destruct (c0 =? node)%nat eqn:E; cbn [negb].
    + apply Nat.eqb_eq in E. subst c0.
      rewrite length_others_above by lia. lia.
    + apply Nat.eqb_neq in E. cbn [length]. rewrite IH by lia. lia.
Qed.

Lemma length_pairs_from (n rep node : nat) :
  (node < n)%nat -> length (pairs_from n rep node) = (n - 1)%nat.
Proof.
  intros H. unfold pairs_from. rewrite length_map, length_others by lia.
  reflexivity.
Qed.

Lemma inner_loop (n rep node : nat) :
  forall (m c0 : nat) (done : list edge) (k : nat),
    length done
    = (rep * (n * (n - 1)) + node * (n - 1)
       + (c0 - (if (node <? c0)%nat then 1 else 0)))%nat ->
    (length (filter (fun con => negb (con =? node)%nat) (seq c0 m)) <= k)%nat ->
    for_range (seq c0 m)
      (fun con edge_index =>
         if (con <? node)%nat then
           set_edge edge_index
             (rep * (n * (n - 1)) + node * (n - 1) + con)%nat
             (rep * n + node)%nat (rep * n + con)%nat
         else if (node <? con)%nat then
           set_edge edge_index
             (rep * (n * (n - 1)) + node * (n - 1) + con - 1)%nat
             (rep * n + node)%nat (rep * n + con)%nat
         else Ok edge_index)
      (written done k)
    = Ok (written
            (done ++
             map (fun con => (rep * n + node, rep * n + con)%nat)
                 (filter (fun con => negb (con =? node)%nat) (seq c0 m)))
            (k - length (filter (fun con => negb (con =? node)%nat)
                                (seq c0 m)))).
Proof.
  set (base := (rep * (n * (n - 1)) + node * (n - 1))%nat).
  induction m as [|m IH]; intros c0 done k Hlen Hk.
  - simpl. rewrite app_nil_r, Nat.sub_0_r. reflexivity.
  - cbn [seq for_range filter] in *.
    destruct (c0 <? node)%nat eqn:E1.
    + apply Nat.ltb_lt in E1.
      replace (c0 =? node)%nat with false in *
        by (symmetry; apply Nat.eqb_neq; lia).
      cbn [negb length map] in *.
      replace (node <? c0)%nat with false in Hlen
        by (symmetry; apply Nat.ltb_ge; lia).
      destruct k as [|k]; [lia|].
      replace (base + c0)%nat with (length done) by lia.
      rewrite set_edge_next. cbn [bind].
      rewrite IH.
      * rewrite <- app_assoc. reflexivity.
      * rewrite length_app. cbn [length].
        replace (node <? S c0)%nat with false
          by (symmetry; apply Nat.ltb_ge; lia).
        lia.
      * lia.
    + apply Nat.ltb_ge in E1.
      destruct (node <? c0)%nat eqn:E2.
      * apply Nat.ltb_lt in E2.
        replace (c0 =? node)%nat with false in *
          by (symmetry; apply Nat.eqb_neq; lia).
        cbn [negb length map] in *.
        destruct k as [|k]; [lia|].
        replace (base + c0 - 1)%nat with (length done) by lia.
        rewrite set_edge_next. cbn [bind].
        rewrite IH.
        -- rewrite <- app_assoc. reflexivity.
        -- rewrite length_app. cbn [length].
           replace (node <? S c0)%nat with true
             by (symmetry; apply Nat.ltb_lt; lia).
           lia.
        -- lia.
      * apply Nat.ltb_ge in E2.
        assert (c0 = node) by lia. subst c0.
        rewrite Nat.eqb_refl in *. cbn [negb bind] in *.
        rewrite IH.
        -- reflexivity.
        -- replace (node <? S node)%nat with true
             by (symmetry; apply Nat.ltb_lt; lia).
           lia.
        -- exact Hk.
Qed.

Lemma middle_loop (n rep : nat) :
  forall (m node0 : nat) (done : list edge) (k : nat),
    (node0 + m = n)%nat ->
    length done = (rep * (n * (n - 1)) + node0 * (n - 1))%nat ->
    (m * (n - 1) <= k)%nat ->
    for_range (seq node0 m)
      (fun node =>
         for_range (seq 0 n)
           (fun con edge_index =>
              if (con <? node)%nat then
                set_edge edge_index
                  (rep * (n * (n - 1)) + node * (n - 1) + con)%nat
                  (rep * n + node)%nat (rep * n + con)%nat
              else if (node <? con)%nat then
                set_edge edge_index
                  (rep * (n * (n - 1)) + node * (n - 1) + con - 1)%nat
                  (rep * n + node)%nat (rep * n + con)%nat
              else Ok edge_index))
      (written done k)
    = Ok (written (done ++ flat_map (pairs_from n rep) (seq node0 m))
                  (k - m * (n - 1))).
Proof.
  induction m as [|m IH]; intros node0 done k Hn Hlen Hk.
  - simpl. rewrite app_nil_r, Nat.sub_0_r. reflexivity.
  - cbn [seq for_range flat_map].
    assert (Hothers :
              length (filter (fun con => negb (con =? node0)%nat) (seq 0 n))
              = (n - 1)%nat).
    { rewrite <- (length_pairs_from n rep node0) by nia.
      unfold pairs_from. rewrite length_map. reflexivity. }
    rewrite inner_loop.
    + cbn [bind]. rewrite Hothers.
      fold (pairs_from n rep node0).
      rewrite IH.
      * rewrite <- app_assoc. f_equal. f_equal. rewrite ?Nat.mul_succ_l. nia.
      * nia.
      * rewrite length_app, length_pairs_from by nia.
        rewrite ?Nat.mul_succ_l. nia.
      * rewrite ?Nat.mul_succ_l in Hk. nia.
    + replace (node0 <? 0)%nat with false by reflexivity. nia.
    + rewrite Hothers. rewrite ?Nat.mul_succ_l in Hk. nia.
Qed.

Lemma length_replica_block (n rep : nat) (m node0 : nat) :
  (node0 + m <= n)%nat ->
  length (flat_map (pairs_from n rep) (seq node0 m)) = (m * (n - 1))%nat.
Proof.
  revert node0. induction m as [|m IH]; intros node0 H.
  - reflexivity.
  - cbn [seq flat_map]. rewrite length_app, length_pairs_from, IH by nia.
    simpl. reflexivity.
Qed.

Lemma outer_loop (n : nat) :
  forall (m rep0 : nat) (done : list edge) (k : nat),
    length done = (rep0 * (n * (n - 1)))%nat ->
    (m * (n * (n - 1)) <= k)%nat ->
    for_range (seq rep0 m)
      (fun rep =>
         for_range (seq 0 n)
           (fun node =>
              for_range (seq 0 n)
                (fun con edge_index =>
                   if (con <? node)%nat then
                     set_edge edge_index
                       (rep * (n * (n - 1)) + node * (n - 1) + con)%nat
                       (rep * n + node)%nat (rep * n + con)%nat
                   else if (node <? con)%nat then
                     set_edge edge_index
                       (rep * (n * (n - 1)) + node * (n - 1) + con - 1)%nat
                       (rep * n + node)%nat (rep * n + con)%nat
                   else Ok edge_index)))
      (written done k)
    = Ok (written
            (done ++
             flat_map (fun rep => flat_map (pairs_from n rep) (seq 0 n))
                      (seq rep0 m))
            (k - m * (n * (n - 1)))).
Proof.
  induction m as [|m IH]; intros rep0 done k Hlen Hk.
  - simpl. rewrite app_nil_r, Nat.sub_0_r. reflexivity.
  - cbn [seq for_range flat_map].
    rewrite middle_loop.
    + cbn [bind]. rewrite IH.
      * rewrite <- app_assoc. f_equal. f_equal. rewrite ?Nat.mul_succ_l. nia.
      * rewrite length_app, length_replica_block by nia.
        rewrite ?Nat.mul_succ_l. nia.
      * rewrite ?Nat.mul_succ_l in Hk. nia.
    + nia.
    + nia.
    + rewrite ?Nat.mul_succ_l in Hk. nia.
Qed.

Lemma columns_written (done : list edge) : columns (written done 0) = done.
Proof.
  unfold columns, written. cbn [fst snd repeat]. rewrite !app_nil_r.
  induction done as [|[s t] done IH]; simpl; [reflexivity|].
  rewrite IH. reflexivity.
Qed.

Lemma build_edge_idx_pairs (num_nodes num_reps : nat) :
  RunMultiple.build_edge_idx num_nodes num_reps
  = Ok (written (replica_pairs num_nodes num_reps) 0).
Proof.
  unfold RunMultiple.build_edge_idx. cbv zeta.
  change (repeat 0%nat (num_reps * (num_nodes * (num_nodes - 1))),
          repeat 0%nat (num_reps * (num_nodes * (num_nodes - 1))))
    with (written [] (num_reps * (num_nodes * (num_nodes - 1)))).
  rewrite outer_loop.
  - rewrite Nat.sub_diag. reflexivity.
  - reflexivity.
  - lia.
Qed.

Lemma in_pairs_from (n rep node s t : nat) :
  In (s, t) (pairs_from n rep node) <->
  exists con, (con < n)%nat /\ con <> node /\
              s = (rep * n + node)%nat /\ t = (rep * n + con)%nat.
Proof.
  unfold pairs_from. rewrite in_map_iff. split.
  - intros (con & E & Hin). injection E as <- <-.
    apply filter_In in Hin as [Hseq Hne]. apply in_seq in Hseq.
    apply negb_true_iff, Nat.eqb_neq in Hne.
    exists con. split; [lia|]. split; [exact Hne|]. split; reflexivity.
  - intros (con & Hlt & Hne & -> & ->).
    exists con. split; [reflexivity|].
    apply filter_In. split; [apply in_seq; lia|].
    apply negb_true_iff, Nat.eqb_neq. exact Hne.
Qed.

Lemma in_replica_pairs (n reps s t : nat) :
  In (s, t) (replica_pairs n reps) <->
  exists rep node con,
    (rep < reps)%nat /\ (node < n)%nat /\ (con < n)%nat /\ node <> con /\
    s = (rep * n + node)%nat /\ t = (rep * n + con)%nat.
Proof.
  unfold replica_pairs. rewrite in_flat_map. split.
  - intros (rep & Hrep & Hin). apply in_seq in Hrep.
    apply in_flat_map in Hin as (node & Hnode & Hin). apply in_seq in Hnode.
    apply in_pairs_from in Hin as (con & Hcon & Hne & -> & ->).
    exists rep, node, con.
    split; [lia|]. split; [lia|]. split; [lia|]. split; [congruence|].
    split; reflexivity.
  - intros (rep & node & con & Hrep & Hnode & Hcon & Hne & -> & ->).
    exists rep. split; [apply in_seq; lia|].
    apply in_flat_map. exists node. split; [apply in_seq; lia|].
    apply in_pairs_from. exists con.
    split; [lia|]. split; [congruence|]. split; reflexivity.
Qed.









(** ** The surface-area term *)

Lemma val_sa_energy (sa_scale x1 : D) :
  val (GNN3.sa_energy sa_scale x1)
  = 4.184 * GNN3.gamma * val sa_scale
    * (val x1 + GNN3.offset + 0.14) ^ 2 * 100.
Proof. unfold GNN3.sa_energy. simpl. ring. Qed.

Lemma val_sa_energy_run_multiple (sa_scale x1 : D) :
  val (RunMultiple.sa_energy sa_scale x1)
  = 4.184 * 0.00542 * sigmoidR (val sa_scale)
    * (val x1 + 0.0195141 + 0.14) ^ 2 * 100.
Proof. unfold RunMultiple.sa_energy. simpl. ring. Qed.

(** C2 (the code at the failing input).  In the main [forward] the SA
    channel enters the SA term as it leaves the second interaction layer:
    no sigmoid is applied, and the weight is any real.  A model whose SA
    channel is [-1] at every atom returns a negative total energy at
    [lambda_electrostatics = 0], which no weight in (0,1) can give.  The
    replica model does apply the sigmoid, and its weight lies in (0,1). *)
Theorem sa_scale_without_sigmoid :
  (forall sa_scale x1,
     val (GNN3.sa_energy sa_scale x1)
     = 4.184 * GNN3.gamma * val sa_scale
       * (val x1 + GNN3.offset + 0.14) ^ 2 * 100) /\
  (exists energy forces,
     GNN3.forward (Demo.model_with 0 (-1)) Demo.positions [1] [0] true
       (Some Demo.batch) (Some Demo.atom_features)
     = Ok (Some (energy, forces)) /\ energy < 0) /\
  (forall sa_scale x1,
     val (RunMultiple.sa_energy sa_scale x1)
     = 4.184 * 0.00542 * sigmoidR (val sa_scale)
       * (val x1 + 0.0195141 + 0.14) ^ 2 * 100
     /\ 0 < sigmoidR (val sa_scale) < 1).
Proof.
  split; [exact val_sa_energy|]. split.
  - destruct (forward_with_well_formed Dual.no_grad (Demo.model_with 0 (-1))
                Demo.positions [1] [0] true (Some Demo.batch)
                (Some Demo.atom_features) eq_refl) as [forces Hf].
    eexists. exists forces. split; [exact Hf|].
    unfold resolved_energies.
    cbn -[GNN3.edge_index GNN3.gnn_edge_index edge_distances track sigmoidR].
    replace (0 + 0) with 0 by lra. rewrite sigmoidR_0.
    unfold GNN3.gamma, GNN3.offset. lra.
  - intros sa_scale x1.
    split; [apply val_sa_energy_run_multiple | apply sigmoidR_range].
Qed.

(** ** Forces *)

Lemma sq_sqrt (s : D) : 0 < val s -> Dual.sq (Dual.sqrt s) = s.
Proof.
  destruct s as [v t]. cbn [val]. intros Hv.
  assert (Hs : 0 < sqrt v) by (apply sqrt_lt_R0; exact Hv).
  unfold Dual.sq, Dual.mul, Dual.sqrt. cbn [val tan].
  f_equal.
  - apply sqrt_sqrt. lra.
  - replace (t / (2 * sqrt v) * sqrt v + sqrt v * (t / (2 * sqrt v)))
      with t by (field; lra).
    reflexivity.
Qed.

Lemma within_le (r : R) (a b : vec3) :
  sqrt (euclid2 a b) <= r -> within r a b = true.
Proof.
  intros H. unfold within. destruct (Rle_dec (sqrt (euclid2 a b)) r).
  - reflexivity.
  - contradiction.
Qed.

Lemma demo_edge_index (direction : option (nat * nat)) :
  GNN3.edge_index Demo.model (track direction Demo.positions)
    (Some Demo.batch)
  = [(1%nat, 0%nat); (0%nat, 1%nat)].
Proof.
  unfold GNN3.edge_index, radius_graph, neighbours.
  cbn -[within euclid2 sort_by].
  rewrite !within_le.
  - reflexivity.
  - cbn.
    replace ((0 - 1) * ((0 - 1) * 1) + (0 - 0) * ((0 - 0) * 1)
             + (0 - 0) * ((0 - 0) * 1)) with 1 by ring.
    rewrite sqrt_1. unfold GNN3.gbneck_radius. lra.
  - cbn.
    replace ((1 - 0) * ((1 - 0) * 1) + (0 - 0) * ((0 - 0) * 1)
             + (0 - 0) * ((0 - 0) * 1)) with 1 by ring.
    rewrite sqrt_1. unfold GNN3.gbneck_radius. lra.
Qed.

Lemma sq_distancer (a b : vec3) :
  0 < val (shifted_norm2 (Dual.const 1e-6) a b) ->
  Dual.sq (distancer a b) = shifted_norm2 (Dual.const 1e-6) a b.
Proof. intros H. unfold distancer. apply sq_sqrt. exact H. Qed.

Ltac demo_energy :=
  unfold resolved_energies; rewrite demo_edge_index;
  cbn -[GNN3.gnn_edge_index Dual.mul Dual.add Dual.sub Dual.sq Dual.sqrt
        Dual.sigmoid Dual.const distancer];
  rewrite !sq_distancer by (cbn; lra);
  cbn;
  replace (0 + 0) with 0 by lra; rewrite sigmoidR_0.

Lemma dual_eq (a : D) (v t : R) : val a = v -> tan a = t -> a = mkD v t.
Proof. destruct a. cbn. intros -> ->. reflexivity. Qed.

(** The energies of the two atoms as the source computes them: along
    every direction the derivative of their sum is zero. *)
Lemma demo_energy_no_grad (direction : option (nat * nat)) :
  Dual.sum (resolved_energies Dual.no_grad Demo.model
              (track direction Demo.positions) [0] [1] (Some Demo.batch)
              (Some Demo.atom_features))
  = mkD 1.000000000003 0.
Proof.
  apply dual_eq; demo_energy; unfold GNN3.gamma, GNN3.offset; lra.
Qed.

(** The same energies with the GB term left in the graph: the sum grows
    at rate two with the x coordinate of the second atom and falls at
    rate two with that of the first. *)
Lemma demo_energy_connected (direction : option (nat * nat)) :
  Dual.sum (resolved_energies (fun e => e) Demo.model
              (track direction Demo.positions) [0] [1] (Some Demo.batch)
              (Some Demo.atom_features))
  = mkD 1.000000000003 (2 * (seed direction 1 0 - seed direction 0 0)).
Proof.
  apply dual_eq; demo_energy; unfold GNN3.gamma, GNN3.offset; lra.
Qed.

Lemma demo_forward_with (under_no_grad : D -> D) (rate : R) :
  (forall direction,
     Dual.sum (resolved_energies under_no_grad Demo.model
                 (track direction Demo.positions) [0] [1] (Some Demo.batch)
                 (Some Demo.atom_features))
     = mkD 1.000000000003
           (rate * (seed direction 1 0 - seed direction 0 0))) ->
  GNN3.forward_with under_no_grad Demo.model Demo.positions [0] [1] true
    (Some Demo.batch) (Some Demo.atom_features)
  = Ok (Some (1.000000000003, [(rate, 0, 0); (- rate, 0, 0)])).
Proof.
  intros H. unfold GNN3.forward_with.
  rewrite energies_with_well_formed by reflexivity.
  cbn [bind]. rewrite H. cbn [val].
  cbn [length Demo.positions rows map seq].
  rewrite !energies_with_well_formed by reflexivity.
  rewrite !H. cbn [tan seed Nat.eqb andb].
  do 3 f_equal.
  repeat (f_equal; try lra).
Qed.

(** C1 (the code at the failing input).  Two atoms one unit apart, a GB
    energy that grows with their distance, and [lambda_sterics = 0], so
    that the GB term is the whole energy.  [forward] returns zero forces:
    the GB energies are computed under [torch.no_grad()] and contribute
    nothing to the gradient.  Differentiating through the whole evaluation
    gives the same energy and forces of size two that pull the atoms
    together. *)
Theorem forces_without_GB_term :
  GNN3.forward Demo.model Demo.positions [0] [1] true (Some Demo.batch)
    (Some Demo.atom_features)
  = Ok (Some (1.000000000003, [(0, 0, 0); (0, 0, 0)])) /\
  GNN3.forward_connected Demo.model Demo.positions [0] [1] true
    (Some Demo.batch) (Some Demo.atom_features)
  = Ok (Some (1.000000000003, [(2, 0, 0); (-2, 0, 0)])).
Proof.
  split.
  - unfold GNN3.forward.
    rewrite (demo_forward_with Dual.no_grad 0).
    + rewrite Ropp_0. reflexivity.
    + intros direction. rewrite demo_energy_no_grad. f_equal. lra.
  - unfold GNN3.forward_connected.
    apply demo_forward_with. exact demo_energy_connected.
Qed.

(** *** The gradient of the GB energies never reaches the forces *)

Lemma energies_with_no_grad_values (self : GNN3.t)
  (calculate_energies : list (D * D) -> list edge -> list D -> nat -> D)
  (positions : list vec3) (lambda_sterics lambda_electrostatics : list R)
  (batch : option (list nat)) (atom_features : option (list (list R))) :
  (forall Bc edge_index edge_attributes t,
     val (calculate_energies Bc edge_index edge_attributes t)
     = val (GNN3.calculate_energies self Bc edge_index edge_attributes t)) ->
  GNN3.energies_with Dual.no_grad
    (with_calculate_energies self calculate_energies) positions
    lambda_sterics lambda_electrostatics batch atom_features
  = GNN3.energies_with Dual.no_grad self positions lambda_sterics
      lambda_electrostatics batch atom_features.
Proof.
  intros H. unfold GNN3.energies_with.
  change (GNN3.inputs (with_calculate_energies self calculate_energies))
    with (GNN3.inputs self).
  destruct (GNN3.inputs self (length positions) lambda_sterics
              lambda_electrostatics batch atom_features)
    as [[[x l_sterics] l_electrostatics]|e]; [|reflexivity].
  cbn [bind]. f_equal.
  unfold GNN3.atom_energies, rows.
  apply map_ext. intros i. do 3 f_equal.
  rewrite !map_map. apply map_ext. intros j.
  unfold Dual.no_grad. f_equal. apply H.
Qed.

(** Whatever the GB energies do when the positions move, [forward]
    returns the same energy and the same forces as long as their values
    are the same. *)
Lemma forward_ignores_GB_gradient (self : GNN3.t)
  (calculate_energies : list (D * D) -> list edge -> list D -> nat -> D)
  (positions : list (R * R * R))
  (lambda_sterics lambda_electrostatics : list R) (retrieve_forces : bool)
  (batch : option (list nat)) (atom_features : option (list (list R))) :
  (forall Bc edge_index edge_attributes t,
     val (calculate_energies Bc edge_index edge_attributes t)
     = val (GNN3.calculate_energies self Bc edge_index edge_attributes t)) ->
  GNN3.forward (with_calculate_energies self calculate_energies) positions
    lambda_sterics lambda_electrostatics retrieve_forces batch atom_features
  = GNN3.forward self positions lambda_sterics lambda_electrostatics
      retrieve_forces batch atom_features.
Proof.
  intros H. unfold GNN3.forward, GNN3.forward_with.
  rewrite (energies_with_no_grad_values self calculate_energies _ _ _ _ _ H).
  destruct (GNN3.energies_with Dual.no_grad self (track None positions)
              lambda_sterics lambda_electrostatics batch atom_features)
    as [energies|e]; [|reflexivity].
  cbn [bind]. destruct retrieve_forces; [|reflexivity].
  do 3 f_equal. unfold rows. rewrite !map_map. apply map_ext. intros i.
  rewrite !(energies_with_no_grad_values self calculate_energies _ _ _ _ _ H).
  reflexivity.
Qed.

(** ** Dataset items *)

Lemma mafbigbind_index_out_of_bounds (np : Datasets.numerics)
  (self : Datasets.MAFBigBind.t) (index : Z) :
  (Datasets.MAFBigBind.__len__ self <= index)%Z ->
  Datasets.MAFBigBind.__getitem__ np self index
  = Raise (IndexError "Index out of bounds").
Proof.
  intros H. unfold Datasets.MAFBigBind.__getitem__.
  replace (index >=? Datasets.MAFBigBind.__len__ self)%Z with true
    by (symmetry; apply Z.geb_le; exact H).
  reflexivity.
Qed.

Lemma mafbigbind_item (np : Datasets.numerics)
  (self : Datasets.MAFBigBind.t) (index : Z) (it : Datasets.item) :
  Datasets.MAFBigBind.__getitem__ np self index = Ok it ->
  (index < Datasets.MAFBigBind.__len__ self)%Z /\ Datasets.item_pos it <> [].
Proof.
  unfold Datasets.MAFBigBind.__getitem__.
  destruct (index >=? Datasets.MAFBigBind.__len__ self)%Z eqn:E;
    [discriminate|].
  assert (Hlt : (index < Datasets.MAFBigBind.__len__ self)%Z).
  { destruct (Z.lt_ge_cases index (Datasets.MAFBigBind.__len__ self))
      as [H|H]; [exact H|].
    apply Z.geb_le in H. congruence. }
  destruct (Datasets.list_getitem _ index) as [key|]; cbn [bind];
    [|discriminate].
  destruct (Datasets.getgroup _ key) as [g|]; cbn [bind]; [|discriminate].
  destruct (Datasets.frame (Datasets.positions g) 0) as [pos|]; cbn [bind];
    [|discriminate].
  destruct (3 * length pos =? 0)%nat eqn:Esize; [discriminate|].
  destruct (Datasets.frame (Datasets.lambda_sterics g) 0); cbn [bind];
    [|discriminate].
  destruct (Datasets.frame (Datasets.lambda_electrostatics g) 0);
    cbn [bind]; [|discriminate].
  intros H. injection H as <-. cbn [Datasets.item_pos].
  split; [exact Hlt|].
  intros ->. discriminate Esize.
Qed.

Lemma mafbigbind_no_atoms (np : Datasets.numerics) (trim : R) :
  Datasets.MAFBigBind.__getitem__ np
    (Datasets.MAFBigBind.mk Datasets.no_atoms_file trim) 0
  = Raise (IndexError "Empty positions encountered").
Proof. reflexivity. Qed.

(** C9 (the code at the failing input).  [BigBindSolvDataset] holds one
    molecule whose only frame has no atom, and one frame per molecule, so
    its length is one.  Item 0 is returned with an empty position set, and
    an access at the length wraps around to item 0: neither raises. *)
Theorem bigbindsolv_item_unchecked :
  Datasets.BigBindSolvDataset.__len__ Datasets.no_atoms_dataset = Ok 1%Z /\
  Datasets.BigBindSolvDataset.__getitem__ Datasets.no_atoms_dataset 0
  = Ok Datasets.no_atoms_item /\
  Datasets.BigBindSolvDataset.__getitem__ Datasets.no_atoms_dataset 1
  = Ok Datasets.no_atoms_item /\
  Datasets.item_pos Datasets.no_atoms_item = [].
Proof.
  split; [reflexivity|]. split; [reflexivity|]. split; reflexivity.
Qed.

(** ** Batch consistency *)

Lemma nth_error_rows {A : Type} (f : nat -> A) (n k : nat) :
  (k < n)%nat -> nth_error (rows n f) k = Some (f k).
Proof.
  intros H. unfold rows.
  rewrite nth_error_map, nth_error_nth' with (d := 0%nat)
    by (rewrite length_seq; exact H).
  rewrite seq_nth by exact H. reflexivity.
Qed.

Lemma embeds_nth {A : Type} (o : nat) (small big : list A) (j : nat) (d : A) :
  embeds o small big -> (j < length small)%nat ->
  nth (o + j) big d = nth j small d.
Proof.
  intros H Hj. specialize (H j Hj).
  destruct (nth_error small j) as [a|] eqn:E.
  - rewrite (nth_error_nth _ _ d H), (nth_error_nth _ _ d E). reflexivity.
  - apply nth_error_None in E. lia.
Qed.

Lemma embeds_rows {A : Type} (o n' n : nat) (f' f : nat -> A) :
  (o + n' <= n)%nat ->
  (forall j, (j < n')%nat -> f (o + j)%nat = f' j) ->
  embeds o (rows n' f') (rows n f).
Proof.
  intros Hn Hf j Hj. rewrite length_rows in Hj.
  rewrite !nth_error_rows by lia. rewrite Hf by exact Hj. reflexivity.
Qed.

Lemma embeds_map {A B : Type} (g : A -> B) (o : nat) (small big : list A) :
  embeds o small big -> embeds o (map g small) (map g big).
Proof.
  intros H j Hj. rewrite length_map in Hj.
  rewrite !nth_error_map, (H j Hj). reflexivity.
Qed.

Lemma message_passing_embeds {S M O : Type}
  (message : S -> S -> D -> M) (madd : M -> M -> M) (mzero : M)
  (update : S -> M -> O) (dflt : S) (x' x : list S)
  (ei' : list edge) (ea' : list D) (ei : list edge) (ea : list D)
  (o i : nat) :
  embeds o x' x ->
  graph_embeds o (length x') ei' ea' ei ea ->
  (i < length x')%nat ->
  message_passing message madd mzero update dflt x ei ea (o + i)
  = message_passing message madd mzero update dflt x' ei' ea' i.
Proof.
  intros Hx Hg Hi. destruct (Hg i Hi) as [Hinc Hsrc].
  unfold message_passing. rewrite Hinc.
  rewrite (embeds_nth o x' x i dflt Hx Hi).
  f_equal. f_equal. rewrite map_map. apply map_ext_in.
  intros sa Hin. cbn [fst snd].
  rewrite (embeds_nth o x' x (fst sa) dflt Hx (Hsrc sa Hin)). reflexivity.
Qed.

Lemma atom_energies_embeds (under_no_grad : D -> D)
  (fraction gnn_radius : R) (cap : nat) (sterics electrostatics : ff_params)
  (w : transforms) (o : nat)
  (ei' : list edge) (ea' : list D) (gei' : list edge) (gea' : list D)
  (x' : list (list D)) (ls' le' : list D)
  (ei : list edge) (ea : list D) (gei : list edge) (gea : list D)
  (x : list (list D)) (ls le : list D) :
  (o + length x' <= length x)%nat ->
  length ls' = length x' -> length le' = length x' ->
  embeds o x' x -> embeds o ls' ls -> embeds o le' le ->
  graph_embeds o (length x') ei' ea' ei ea ->
  graph_embeds o (length x') gei' gea' gei gea ->
  embeds o
    (GNN3.atom_energies under_no_grad
       (message_passing_model fraction gnn_radius cap sterics electrostatics w)
       ei' ea' gei' gea' x' ls' le')
    (GNN3.atom_energies under_no_grad
       (message_passing_model fraction gnn_radius cap sterics electrostatics w)
       ei ea gei gea x ls le).
Proof.
  intros Hn Hls' Hle' Hx Hls Hle Hg Hgg.
  unfold GNN3.atom_energies. cbv zeta.
  cbn [message_passing_model GNN3.aggregate_information GNN3.interaction1
       GNN3.interaction2 GNN3.calculate_energies GNN3._fraction].
  set (n := length x). set (n' := length x').
  (* the GB layer *)
  set (Bc := rows n (message_passing (gb_message w) vadd [] (gb_update w) []
                       x ei ea)).
  set (Bc' := rows n' (message_passing (gb_message w) vadd [] (gb_update w) []
                         x' ei' ea')).
  assert (HBc : embeds o Bc' Bc).
  { apply embeds_rows; [exact Hn|]. intros j Hj.
    apply message_passing_embeds; assumption. }
  (* its output joined with radius and scales *)
  set (B1 := rows n (fun i => [fst (nth i Bc (Dual.zero, Dual.zero));
                               snd (nth i Bc (Dual.zero, Dual.zero));
                               nth 1 (nth i x []) Dual.zero;
                               nth i ls Dual.zero; nth i le Dual.zero])).
  set (B1' := rows n' (fun i => [fst (nth i Bc' (Dual.zero, Dual.zero));
                                 snd (nth i Bc' (Dual.zero, Dual.zero));
                                 nth 1 (nth i x' []) Dual.zero;
                                 nth i ls' Dual.zero; nth i le' Dual.zero])).
  assert (HB1 : embeds o B1' B1).
  { apply embeds_rows; [exact Hn|]. intros j Hj.
    rewrite (embeds_nth o Bc' Bc j _ HBc)
      by (unfold Bc'; rewrite length_rows; exact Hj).
    rewrite (embeds_nth o x' x j _ Hx) by exact Hj.
    rewrite (embeds_nth o ls' ls j _ Hls) by (rewrite Hls'; exact Hj).
    rewrite (embeds_nth o le' le j _ Hle) by (rewrite Hle'; exact Hj).
    reflexivity. }
  assert (LB1 : length B1' = n') by (unfold B1'; apply length_rows).
  (* the first interaction layer and the swish *)
  set (B2 := map (map Dual.silu)
               (rows n (message_passing (in1_message w) vadd []
                          (in1_update w) [] B1 gei gea))).
  set (B2' := map (map Dual.silu)
                (rows n' (message_passing (in1_message w) vadd []
                            (in1_update w) [] B1' gei' gea'))).
  assert (HB2 : embeds o B2' B2).
  { apply embeds_map. apply embeds_rows; [exact Hn|]. intros j Hj.
    apply message_passing_embeds; rewrite ?LB1; assumption. }
  assert (LB2 : length B2' = n')
    by (unfold B2'; rewrite length_map; apply length_rows).
  (* the second interaction layer *)
  set (B3 := rows n (message_passing (in2_message w) vadd []
                       (in2_update w) [] B2 gei gea)).
  set (B3' := rows n' (message_passing (in2_message w) vadd []
                         (in2_update w) [] B2' gei' gea')).
  assert (HB3 : embeds o B3' B3).
  { apply embeds_rows; [exact Hn|]. intros j Hj.
    apply message_passing_embeds; rewrite ?LB2; assumption. }
  assert (LB3 : length B3' = n') by (unfold B3'; apply length_rows).
  (* the corrected Born radii with the charges *)
  set (B4 := rows n (fun i =>
                (nth i (rows n (fun i0 =>
                          scale_born fraction
                            (fst (nth i0 Bc (Dual.zero, Dual.zero)))
                            (nth i0 (map fst B3) Dual.zero))) Dual.zero,
                 snd (nth i Bc (Dual.zero, Dual.zero))))).
  set (B4' := rows n' (fun i =>
                (nth i (rows n' (fun i0 =>
                          scale_born fraction
                            (fst (nth i0 Bc' (Dual.zero, Dual.zero)))
                            (nth i0 (map fst B3') Dual.zero))) Dual.zero,
                 snd (nth i Bc' (Dual.zero, Dual.zero))))).
  assert (HB4 : embeds o B4' B4).
  { apply embeds_rows; [exact Hn|]. intros j Hj.
    rewrite !nth_rows by lia.
    rewrite (embeds_nth o Bc' Bc j _ HBc)
      by (unfold Bc'; rewrite length_rows; exact Hj).
    rewrite (embeds_nth o _ _ j _ (embeds_map fst o B3' B3 HB3))
      by (rewrite length_map, LB3; exact Hj).
    reflexivity. }
  assert (LB4 : length B4' = n') by (unfold B4'; apply length_rows).
  (* energies *)
  apply embeds_rows; [exact Hn|]. intros j Hj.
  rewrite (embeds_nth o le' le j _ Hle) by (rewrite Hle'; exact Hj).
  rewrite (embeds_nth o ls' ls j _ Hls) by (rewrite Hls'; exact Hj).
  f_equal; f_equal.
  - apply embeds_nth; [|rewrite length_map, length_rows; exact Hj].
    apply embeds_map. apply embeds_rows; [exact Hn|]. intros k Hk.
    apply message_passing_embeds; rewrite ?LB4; assumption.
  - apply embeds_nth; [|rewrite length_rows; exact Hj].
    apply embeds_rows; [exact Hn|]. intros k Hk.
    rewrite (embeds_nth o _ _ k _ (embeds_map snd o B3' B3 HB3))
      by (rewrite length_map, LB3; exact Hk).
    rewrite (embeds_nth o x' x k _ Hx) by exact Hk.
    reflexivity.
Qed.

Lemma combine_map_r {A B : Type} (f : A -> B) (l : list A) :
  combine l (map f l) = map (fun a => (a, f a)) l.
Proof. induction l as [|a l IH]; simpl; [|rewrite IH]; reflexivity. Qed.

Lemma filter_map_comm {A B : Type} (p : B -> bool) (g : A -> B)
  (l : list A) :
  filter p (map g l) = map g (filter (fun a => p (g a)) l).
Proof.
  induction l as [|a l IH]; simpl; [reflexivity|].
  destruct (p (g a)); simpl; rewrite IH; reflexivity.
Qed.

Lemma filter_flat_map {A B : Type} (p : B -> bool) (g : A -> list B)
  (l : list A) :
  filter p (flat_map g l) = flat_map (fun a => filter p (g a)) l.
Proof.
  induction l as [|a l IH]; simpl; [reflexivity|].
  rewrite filter_app, IH. reflexivity.
Qed.

Lemma filter_none {A : Type} (p : A -> bool) (l : list A) :
  (forall a, In a l -> p a = false) -> filter p l = [].
Proof.
  induction l as [|a l IH]; simpl; intros H; [reflexivity|].
  rewrite (H a) by (left; reflexivity).
  apply IH. intros b Hb. apply H. right. exact Hb.
Qed.

Lemma flat_map_at {B : Type} (g : nat -> list B) (t start len : nat) :
  flat_map (fun t' => if (t' =? t)%nat then g t' else []) (seq start len)
  = if ((start <=? t) && (t <? start + len))%nat then g t else [].
Proof.
  revert start. induction len as [|len IH]; intros start.
  - cbn [seq flat_map]. rewrite Nat.add_0_r.
    destruct (start <=? t)%nat eqn:E1; [|reflexivity].
    apply Nat.leb_le in E1.
    replace (t <? start)%nat with false
      by (symmetry; apply Nat.ltb_ge; exact E1).
    reflexivity.
  - cbn [seq flat_map]. rewrite IH.
    destruct (start =? t)%nat eqn:E.
    + apply Nat.eqb_eq in E. subst start.
      replace (S t <=? t)%nat with false
        by (symmetry; apply Nat.leb_gt; lia).
      replace (t <=? t)%nat with true by (symmetry; apply Nat.leb_le; lia).
      replace (t <? t + S len)%nat with true
        by (symmetry; apply Nat.ltb_lt; lia).
      cbn [andb]. apply app_nil_r.
    + apply Nat.eqb_neq in E. cbn [app].
      destruct (S start <=? t)%nat eqn:E1.
      * apply Nat.leb_le in E1.
        replace (start <=? t)%nat with true
          by (symmetry; apply Nat.leb_le; lia).
        cbn [andb].
        replace (S start + len)%nat with (start + S len)%nat by lia.
        reflexivity.
      * apply Nat.leb_gt in E1.
        cbn [andb].
        destruct (start <=? t)%nat eqn:E2; [|reflexivity].
        apply Nat.leb_le in E2. lia.
Qed.

Lemma incoming_radius_graph (x : list vec3) (r : R)
  (batch : option (list nat)) (loop : bool) (cap t : nat) :
  (t < length x)%nat ->
  incoming (radius_graph x r batch loop cap)
           (edge_distances x (radius_graph x r batch loop cap)) t
  = map (fun s => (s, distancer (nth s x zero3) (nth t x zero3)))
        (neighbours x r batch loop cap t).
Proof.
  intros Ht. unfold incoming, edge_distances.
  rewrite combine_map_r, filter_map_comm, map_map. cbn [fst snd].
  unfold radius_graph. rewrite filter_flat_map.
  rewrite (flat_map_ext _
             (fun t' => if (t' =? t)%nat
                        then map (fun s => (s, t'))
                                 (neighbours x r batch loop cap t')
                        else [])).
  - rewrite (flat_map_at
               (fun t' => map (fun s => (s, t'))
                              (neighbours x r batch loop cap t'))).
    replace (0 <=? t)%nat with true by (symmetry; apply Nat.leb_le; lia).
    replace (t <? 0 + length x)%nat with true
      by (symmetry; apply Nat.ltb_lt; lia).
    cbn [andb]. rewrite map_map. reflexivity.
  - intros t'. rewrite filter_map_comm. cbn [snd].
    destruct (t' =? t)%nat.
    + f_equal.
      induction (neighbours x r batch loop cap t') as [|a l IH];
        simpl; [|rewrite IH]; reflexivity.
    + rewrite filter_none by reflexivity. reflexivity.
Qed.

Lemma insert_by_map (key : nat -> R) (g : nat -> nat) (a : nat)
  (l : list nat) :
  insert_by key (g a) (map g l)
  = map g (insert_by (fun s => key (g s)) a l).
Proof.
  induction l as [|b l IH]; simpl; [reflexivity|].
  destruct (Rle_dec (key (g a)) (key (g b))); simpl.
  - reflexivity.
  - rewrite IH. reflexivity.
Qed.

Lemma sort_by_map (key : nat -> R) (g : nat -> nat) (l : list nat) :
  sort_by key (map g l) = map g (sort_by (fun s => key (g s)) l).
Proof.
  induction l as [|a l IH]; simpl; [reflexivity|].
  rewrite IH, insert_by_map. reflexivity.
Qed.

Lemma insert_by_ext (key key' : nat -> R) (a : nat) (l : list nat) :
  key a = key' a -> (forall b, In b l -> key b = key' b) ->
  insert_by key a l = insert_by key' a l.
Proof.
  intros Ha. induction l as [|b l IH]; simpl; intros H; [reflexivity|].
  rewrite Ha, (H b) by (left; reflexivity).
  destruct (Rle_dec (key' a) (key' b)); [reflexivity|].
  rewrite IH; [reflexivity|]. intros c Hc. apply H. right. exact Hc.
Qed.

Lemma sort_by_ext (key key' : nat -> R) (l : list nat) :
  (forall b, In b l -> key b = key' b) -> sort_by key l = sort_by key' l.
Proof.
  induction l as [|a l IH]; simpl; intros H; [reflexivity|].
  rewrite IH by (intros b Hb; apply H; right; exact Hb).
  apply insert_by_ext.
  - apply H. left. reflexivity.
  - intros b Hb. apply in_sort_by in Hb. apply H. right. exact Hb.
Qed.

Lemma seq_from (o n : nat) : seq o n = map (fun s => (o + s)%nat) (seq 0 n).
Proof.
  revert o. induction n as [|n IH]; intros o; simpl; [reflexivity|].
  rewrite Nat.add_0_r. f_equal.
  rewrite (IH (S o)), (IH 1%nat), map_map.
  apply map_ext. intros s. lia.
Qed.

Lemma nth_repeat_0 (n s : nat) : nth s (repeat 0%nat n) 0%nat = 0%nat.
Proof.
  revert s. induction n as [|n IH]; intros [|s]; simpl; auto.
Qed.

Lemma neighbours_embeds (P' P : list vec3) (B : list nat) (r : R)
  (cap o i : nat) :
  embeds o P' P -> (o + length P' <= length P)%nat ->
  (i < length P')%nat ->
  (forall s, (s < length P)%nat ->
             nth s B 0%nat = nth (o + i) B 0%nat <->
             (o <= s < o + length P')%nat) ->
  neighbours P r (Some B) false cap (o + i)
  = map (fun s => (o + s)%nat)
        (neighbours P' r (Some (repeat 0%nat (length P'))) false cap i).
Proof.
  intros HP Hlen Hi HB. unfold neighbours.
  set (cond := fun s => (false || negb (s =? o + i)%nat)
                        && same_batch (Some B) s (o + i)
                        && within r (nth s P zero3) (nth (o + i) P zero3)).
  set (cond' := fun s => (false || negb (s =? i)%nat)
                         && same_batch (Some (repeat 0%nat (length P'))) s i
                         && within r (nth s P' zero3) (nth i P' zero3)).
  assert (Hsplit : seq 0 (length P)
                   = seq 0 o ++ seq o (length P')
                     ++ seq (o + length P') (length P - (o + length P'))).
  { rewrite <- !seq_app. f_equal. lia. }
  assert (Hout : forall s, (s < length P)%nat ->
                           ~ (o <= s < o + length P')%nat -> cond s = false).
  { intros s Hs Hn. unfold cond, same_batch.
    replace (nth s B 0 =? nth (o + i) B 0)%nat with false.
    - rewrite andb_false_r. reflexivity.
    - symmetry. apply Nat.eqb_neq. intros E. apply Hn. apply HB; assumption. }
  assert (Hin : forall s, (s < length P')%nat -> cond (o + s)%nat = cond' s).
  { intros s Hs. unfold cond, cond', same_batch.
    rewrite !nth_repeat_0.
    replace (nth (o + s) B 0 =? nth (o + i) B 0)%nat with true
      by (symmetry; apply Nat.eqb_eq; apply HB; lia).
    rewrite (embeds_nth o P' P s zero3 HP Hs).
    rewrite (embeds_nth o P' P i zero3 HP Hi).
    replace (o + s =? o + i)%nat with (s =? i)%nat; [reflexivity|].
    destruct (s =? i)%nat eqn:E.
    + apply Nat.eqb_eq in E. symmetry. apply Nat.eqb_eq. lia.
    + apply Nat.eqb_neq in E. symmetry. apply Nat.eqb_neq. lia. }
  rewrite Hsplit, !filter_app.
  rewrite (filter_none cond (seq 0 o))
    by (intros s Hs; apply in_seq in Hs; apply Hout; lia).
  rewrite (filter_none cond (seq (o + length P') _))
    by (intros s Hs; apply in_seq in Hs; apply Hout; lia).
  rewrite app_nil_r. cbn [app].
  rewrite (seq_from o), filter_map_comm.
  rewrite (filter_ext_in _ cond')
    by (intros s Hs; apply in_seq in Hs; apply Hin; lia).
  rewrite sort_by_map, firstn_map. f_equal. f_equal.
  apply sort_by_ext. intros s Hs.
  apply filter_In in Hs as [Hs _]. apply in_seq in Hs.
  rewrite (embeds_nth o P' P s zero3 HP) by lia.
  rewrite (embeds_nth o P' P i zero3 HP Hi). reflexivity.
Qed.

Lemma radius_graph_embeds (P' P : list vec3) (B : list nat) (r : R)
  (cap o : nat) :
  embeds o P' P -> (o + length P' <= length P)%nat ->
  (forall i s, (i < length P')%nat -> (s < length P)%nat ->
               nth s B 0%nat = nth (o + i) B 0%nat <->
               (o <= s < o + length P')%nat) ->
  graph_embeds o (length P')
    (radius_graph P' r (Some (repeat 0%nat (length P'))) false cap)
    (edge_distances P'
       (radius_graph P' r (Some (repeat 0%nat (length P'))) false cap))
    (radius_graph P r (Some B) false cap)
    (edge_distances P (radius_graph P r (Some B) false cap)).
Proof.
  intros HP Hlen HB i Hi.
  rewrite !incoming_radius_graph by lia.
  split.
  - rewrite (neighbours_embeds P' P B r cap o i HP Hlen Hi
               (fun s Hs => HB i s Hi Hs)).
    rewrite !map_map. apply map_ext_in. intros s Hs. cbn [fst snd].
    apply in_neighbours in Hs as (_ & _ & Hs).
    rewrite (embeds_nth o P' P s zero3 HP Hs).
    rewrite (embeds_nth o P' P i zero3 HP Hi). reflexivity.
  - intros sa Hsa. apply in_map_iff in Hsa as (s & <- & Hs).
    apply in_neighbours in Hs as (_ & _ & Hs). exact Hs.
Qed.

Lemma track_None_from (start : nat) (ps : list (R * R * R)) :
  map (fun ip => let '(i, (x, y, z)) := ip in
                 (mkD x (seed None i 0), mkD y (seed None i 1),
                  mkD z (seed None i 2)))
      (combine (seq start (length ps)) ps)
  = map (fun p => let '(x, y, z) := p in (mkD x 0, mkD y 0, mkD z 0)) ps.
Proof.
  revert start. induction ps as [|[[x y] z] ps IH]; intros start; simpl.
  - reflexivity.
  - rewrite IH. reflexivity.
Qed.

Lemma track_None (ps : list (R * R * R)) :
  track None ps
  = map (fun p => let '(x, y, z) := p in (mkD x 0, mkD y 0, mkD z 0)) ps.
Proof. unfold track. apply track_None_from. Qed.

Lemma embeds_concat {A : Type} (pre : list (list A)) (L : list A)
  (post : list (list A)) :
  embeds (length (concat pre)) L (concat (pre ++ L :: post)).
Proof.
  intros j Hj. rewrite concat_app. cbn [concat].
  rewrite nth_error_app2 by lia.
  replace (length (concat pre) + j - length (concat pre))%nat with j by lia.
  apply nth_error_app1. exact Hj.
Qed.

Lemma concat_index {A : Type} (Ls : list (list A)) (k : nat) :
  (k < length (concat Ls))%nat ->
  exists pre L post j,
    Ls = pre ++ L :: post /\ k = (length (concat pre) + j)%nat
    /\ (j < length L)%nat.
Proof.
  revert k. induction Ls as [|L Ls IH]; intros k Hk.
  - simpl in Hk. lia.
  - cbn [concat] in Hk. rewrite length_app in Hk.
    destruct (Nat.lt_ge_cases k (length L)) as [H|H].
    + exists [], L, Ls, k.
      split; [reflexivity|]. split; [simpl; lia | exact H].
    + destruct (IH (k - length L)%nat ltac:(lia))
        as (pre & L0 & post & j & -> & Hk' & Hj).
      exists (L :: pre), L0, post, j.
      split; [reflexivity|]. split; [|exact Hj].
      cbn [concat]. rewrite length_app. lia.
Qed.

Lemma concat_of_embeds {A : Type} (Ls : list (list A)) (X : list A) :
  length X = length (concat Ls) ->
  (forall pre L post, Ls = pre ++ L :: post ->
                      embeds (length (concat pre)) L X) ->
  X = concat Ls.
Proof.
  intros Hlen H. apply nth_error_ext. intros k.
  destruct (Nat.lt_ge_cases k (length (concat Ls))) as [Hk|Hk].
  - destruct (concat_index Ls k Hk) as (pre & L & post & j & E & -> & Hj).
    rewrite (H pre L post E j Hj). subst Ls.
    rewrite (embeds_concat pre L post j Hj). reflexivity.
  - rewrite (proj2 (nth_error_None _ _)) by lia.
    rewrite (proj2 (nth_error_None _ _)) by lia. reflexivity.
Qed.

Lemma val_sum_app (a b : list D) :
  val (Dual.sum (a ++ b)) = val (Dual.sum a) + val (Dual.sum b).
Proof.
  induction a as [|d a IH]; simpl.
  - lra.
  - rewrite IH. lra.
Qed.

Lemma val_sum_concat (Ls : list (list D)) :
  val (Dual.sum (concat Ls))
  = fold_right Rplus 0 (map (fun L => val (Dual.sum L)) Ls).
Proof.
  induction Ls as [|L Ls IH]; simpl.
  - reflexivity.
  - rewrite val_sum_app, IH. reflexivity.
Qed.

(** *** The batch vector *)

Lemma length_batch_ids_from (k : nat) (ms : list molecule) :
  length (batch_ids_from k ms) = length (batched_positions ms).
Proof.
  revert k. unfold batched_positions.
  induction ms as [|m ms IH]; intros k; simpl.
  - reflexivity.
  - rewrite !length_app, repeat_length, IH. reflexivity.
Qed.

Lemma batch_ids_from_app (k : nat) (pre post : list molecule) :
  batch_ids_from k (pre ++ post)
  = batch_ids_from k pre ++ batch_ids_from (k + length pre) post.
Proof.
  revert k. induction pre as [|m pre IH]; intros k; simpl.
  - rewrite Nat.add_0_r. reflexivity.
  - rewrite IH, <- app_assoc. do 3 f_equal. lia.
Qed.

Lemma batch_ids_from_bounds (k : nat) (ms : list molecule) (b : nat) :
  In b (batch_ids_from k ms) -> (k <= b < k + length ms)%nat.
Proof.
  revert k. induction ms as [|m ms IH]; intros k; simpl.
  - contradiction.
  - intros H. apply in_app_or in H as [H|H].
    + apply repeat_spec in H. lia.
    + apply IH in H. lia.
Qed.

Lemma nth_repeat_lt {A : Type} (a d : A) (n j : nat) :
  (j < n)%nat -> nth j (repeat a n) d = a.
Proof.
  revert j. induction n as [|n IH]; intros [|j] H; simpl; try lia.
  - reflexivity.
  - apply IH. lia.
Qed.

Lemma batch_id_at (pre : list molecule) (m : molecule)
  (post : list molecule) (s : nat) :
  (s < length (batch_ids (pre ++ m :: post)))%nat ->
  nth s (batch_ids (pre ++ m :: post)) 0%nat = length pre <->
  (length (batched_positions pre) <= s
   < length (batched_positions pre) + length (mol_positions m))%nat.
Proof.
  unfold batch_ids. rewrite batch_ids_from_app. cbn [batch_ids_from].
  rewrite Nat.add_0_l.
  rewrite !length_app, repeat_length, length_batch_ids_from.
  set (o := length (batched_positions pre)).
  set (n := length (mol_positions m)).
  intros Hs.
  destruct (Nat.lt_ge_cases s o) as [H1|H1].
  - rewrite app_nth1 by (rewrite length_batch_ids_from; exact H1).
    assert (Hin : In (nth s (batch_ids_from 0 pre) 0%nat)
                     (batch_ids_from 0 pre))
      by (apply nth_In; rewrite length_batch_ids_from; exact H1).
    apply batch_ids_from_bounds in Hin. lia.
  - rewrite app_nth2 by (rewrite length_batch_ids_from; exact H1).
    rewrite length_batch_ids_from. fold o.
    destruct (Nat.lt_ge_cases (s - o) n) as [H2|H2].
    + rewrite app_nth1 by (rewrite repeat_length; exact H2).
      rewrite nth_repeat_lt by exact H2. lia.
    + rewrite app_nth2 by (rewrite repeat_length; exact H2).
      rewrite repeat_length.
      assert (Hin : In (nth (s - o - n)
                            (batch_ids_from (S (length pre)) post) 0%nat)
                       (batch_ids_from (S (length pre)) post)).
      { apply nth_In. rewrite length_batch_ids_from.
        rewrite length_batch_ids_from in Hs. lia. }
      apply batch_ids_from_bounds in Hin. lia.
Qed.

Lemma batch_ids_in_range (ms : list molecule) :
  in_range (length ms) (batch_ids ms) = true.
Proof.
  unfold in_range. apply forallb_forall. intros b Hb.
  apply batch_ids_from_bounds in Hb. apply Nat.ltb_lt. lia.
Qed.

Lemma length_batched_features (ms : list molecule) :
  forallb proper ms = true ->
  length (batched_features ms) = length (batched_positions ms).
Proof.
  unfold batched_features, batched_positions.
  induction ms as [|m ms IH]; simpl; intros H; [reflexivity|].
  apply andb_prop in H as [Hm Hms].
  unfold proper in Hm. apply andb_prop in Hm as [Hm _].
  apply Nat.eqb_eq in Hm.
  rewrite !length_app, IH by exact Hms. lia.
Qed.

Lemma width_batched_features (ms : list molecule) :
  forallb proper ms = true ->
  forallb (fun row => (2 <=? length row)%nat) (batched_features ms) = true.
Proof.
  unfold batched_features.
  induction ms as [|m ms IH]; cbn [map concat forallb]; intros H;
    [reflexivity|].
  apply andb_prop in H as [Hm Hms].
  unfold proper in Hm. apply andb_prop in Hm as [_ Hm].
  rewrite forallb_app, Hm, IH by exact Hms. reflexivity.
Qed.

Lemma proper_split (pre : list molecule) (m : molecule)
  (post : list molecule) :
  forallb proper (pre ++ m :: post) = true ->
  forallb proper pre = true /\ proper m = true.
Proof.
  rewrite forallb_app. cbn [forallb]. intros H.
  apply andb_prop in H as [H1 H2]. apply andb_prop in H2 as [H2 _].
  split; assumption.
Qed.

(** *** One call for all molecules *)

Lemma length_atom_energies (under_no_grad : D -> D) (self : GNN3.t)
  (ei : list edge) (ea : list D) (gei : list edge) (gea : list D)
  (x : list (list D)) (ls le : list D) :
  length (GNN3.atom_energies under_no_grad self ei ea gei gea x ls le)
  = length x.
Proof. unfold GNN3.atom_energies. apply length_rows. Qed.

Lemma in_range_repeat_0 (n k : nat) :
  in_range (S k) (repeat 0%nat n) = true.
Proof.
  unfold in_range. apply forallb_forall. intros b Hb.
  apply repeat_spec in Hb. subst b. reflexivity.
Qed.

Lemma well_formed_alone (self : GNN3.t) (m : molecule) :
  GNN3.gnn_params self = None -> proper m = true ->
  well_formed self (length (mol_positions m)) [mol_lambda_sterics m]
    [mol_lambda_electrostatics m]
    (Some (repeat 0%nat (length (mol_positions m))))
    (Some (mol_features m)) = true.
Proof.
  intros Hgp Hm. unfold well_formed. rewrite Hgp.
  unfold proper in Hm. apply andb_prop in Hm as [Hlen Hw].
  cbn [length]. rewrite !in_range_repeat_0, Hw, repeat_length, Hlen.
  reflexivity.
Qed.

Lemma well_formed_batched (self : GNN3.t) (ms : list molecule) :
  GNN3.gnn_params self = None -> forallb proper ms = true ->
  well_formed self (length (batched_positions ms))
    (map mol_lambda_sterics ms) (map mol_lambda_electrostatics ms)
    (Some (batch_ids ms)) (Some (batched_features ms)) = true.
Proof.
  intros Hgp Hms. unfold well_formed. rewrite Hgp.
  rewrite !length_map, batch_ids_in_range, width_batched_features by exact Hms.
  unfold batch_ids.
  rewrite length_batch_ids_from, length_batched_features by exact Hms.
  rewrite Nat.eqb_refl. reflexivity.
Qed.

Lemma length_alone_energies (self : GNN3.t) (m : molecule) :
  GNN3.gnn_params self = None ->
  length (alone_energies self m) = length (mol_features m).
Proof.
  intros Hgp. unfold alone_energies, resolved_energies.
  rewrite length_atom_energies. unfold resolved_features.
  rewrite Hgp. apply length_lift.
Qed.

Lemma length_concat_alone (self : GNN3.t) (ms : list molecule) :
  GNN3.gnn_params self = None ->
  length (concat (map (alone_energies self) ms))
  = length (batched_features ms).
Proof.
  intros Hgp. unfold batched_features.
  induction ms as [|m ms IH]; simpl; [reflexivity|].
  rewrite !length_app, IH, length_alone_energies by exact Hgp.
  reflexivity.
Qed.

Lemma lift_batched_features (ms : list molecule) :
  lift (batched_features ms)
  = concat (map (fun m => lift (mol_features m)) ms).
Proof.
  unfold lift, batched_features.
  rewrite concat_map, map_map. reflexivity.
Qed.

Lemma track_batched_positions (ms : list molecule) :
  track None (batched_positions ms)
  = concat (map (fun m => track None (mol_positions m)) ms).
Proof.
  rewrite track_None. unfold batched_positions.
  rewrite concat_map, map_map. apply f_equal.
  apply map_ext. intros m. rewrite track_None. reflexivity.
Qed.

Lemma length_concat_map {A B : Type} (f g : A -> list B) (l : list A) :
  (forall a, In a l -> length (f a) = length (g a)) ->
  length (concat (map f l)) = length (concat (map g l)).
Proof.
  induction l as [|a l IH]; simpl; intros H; [reflexivity|].
  rewrite !length_app, H, IH by auto. reflexivity.
Qed.

Lemma length_batched_positions_split (pre : list molecule) (m : molecule)
  (post : list molecule) :
  length (batched_positions (pre ++ m :: post))
  = (length (batched_positions pre) + length (mol_positions m)
     + length (batched_positions post))%nat.
Proof.
  unfold batched_positions.
  rewrite map_app, concat_app, length_app. cbn [map concat].
  rewrite length_app. lia.
Qed.

Lemma per_atom_scale_embeds (p : ff_params) (lambda : molecule -> R)
  (pre : list molecule) (m : molecule) (post : list molecule) :
  embeds (length (batched_positions pre))
    (per_atom_scale p [lambda m]
       (repeat 0%nat (length (mol_positions m))))
    (per_atom_scale p (map lambda (pre ++ m :: post))
       (batch_ids (pre ++ m :: post))).
Proof.
  intros j Hj. unfold per_atom_scale in *.
  rewrite length_map, repeat_length in Hj.
  rewrite !nth_error_map.
  assert (Hb : nth_error (batch_ids (pre ++ m :: post))
                 (length (batched_positions pre) + j)
               = Some (length pre)).
  { assert (Hlt : (length (batched_positions pre) + j
                   < length (batch_ids (pre ++ m :: post)))%nat).
    { unfold batch_ids. rewrite length_batch_ids_from.
      unfold batched_positions.
      rewrite map_app, concat_app, length_app. cbn [map concat].
      rewrite length_app. lia. }
    rewrite (nth_error_nth' _ 0%nat Hlt). f_equal.
    apply batch_id_at; [exact Hlt | lia]. }
  rewrite Hb.
  rewrite (nth_error_nth' _ 0%nat) by (rewrite repeat_length; exact Hj).
  rewrite nth_repeat_lt by exact Hj.
  cbn [option_map]. f_equal.
  unfold scales. rewrite !map_map.
  rewrite (nth_indep _ Dual.zero
             ((ff p (Dual.const (lambda m)) * Dual.const (lambda m))%D))
    by (rewrite length_map, length_app; cbn [length]; lia).
  rewrite (map_nth (fun x => (ff p (Dual.const (lambda x))
                              * Dual.const (lambda x))%D)).
  rewrite app_nth2, Nat.sub_diag by lia. reflexivity.
Qed.

Lemma batched_energies_concat (fraction gnn_radius : R) (cap : nat)
  (sterics electrostatics : ff_params) (w : transforms)
  (ms : list molecule) :
  forallb proper ms = true ->
  batched_energies
    (message_passing_model fraction gnn_radius cap sterics electrostatics w)
    ms
  = concat
      (map (alone_energies
              (message_passing_model fraction gnn_radius cap sterics
                 electrostatics w)) ms).
Proof.
  intros Hms.
  set (self := message_passing_model fraction gnn_radius cap sterics
                 electrostatics w).
  assert (Hgp : GNN3.gnn_params self = None) by reflexivity.
  apply concat_of_embeds.
  - rewrite length_concat_alone by exact Hgp.
    unfold batched_energies, resolved_energies.
    rewrite length_atom_energies. unfold resolved_features.
    rewrite Hgp. apply length_lift.
  - intros pre_e L post_e Hsplit.
    apply map_eq_app in Hsplit as (pre & rest & -> & <- & Hrest).
    apply map_eq_cons in Hrest as (m & post & -> & <- & _).
    destruct (proper_split pre m post Hms) as [Hpre Hm].
    assert (Hlenm : length (mol_features m) = length (mol_positions m)).
    { unfold proper in Hm. apply andb_prop in Hm as [Hm _].
      apply Nat.eqb_eq in Hm. lia. }
    assert (Ho : length (concat (map (alone_energies self) pre))
                 = length (batched_positions pre)).
    { rewrite length_concat_alone by exact Hgp.
      apply length_batched_features. exact Hpre. }
    rewrite Ho.
    assert (Hox : length (concat (map (fun m0 => lift (mol_features m0)) pre))
                  = length (batched_positions pre)).
    { rewrite <- lift_batched_features, length_lift.
      apply length_batched_features. exact Hpre. }
    assert (Hop : length (concat (map (fun m0 => track None (mol_positions m0))
                                      pre))
                  = length (batched_positions pre)).
    { rewrite <- track_batched_positions. apply length_track. }
    assert (HP : embeds (length (batched_positions pre))
                   (track None (mol_positions m))
                   (track None (batched_positions (pre ++ m :: post)))).
    { rewrite track_batched_positions, map_app. cbn [map].
      rewrite <- Hop.
      apply (embeds_concat
               (map (fun m0 => track None (mol_positions m0)) pre)). }
    assert (HPlen : (length (batched_positions pre)
                     + length (track None (mol_positions m))
                     <= length (track None
                                  (batched_positions (pre ++ m :: post))))%nat).
    { rewrite !length_track. unfold batched_positions.
      rewrite map_app, concat_app, length_app. cbn [map concat].
      rewrite length_app. lia. }
    assert (HB : forall i s,
               (i < length (track None (mol_positions m)))%nat ->
               (s < length (track None
                             (batched_positions (pre ++ m :: post))))%nat ->
               nth s (batch_ids (pre ++ m :: post)) 0%nat
               = nth (length (batched_positions pre) + i)
                     (batch_ids (pre ++ m :: post)) 0%nat
               <-> (length (batched_positions pre) <= s
                    < length (batched_positions pre)
                      + length (track None (mol_positions m)))%nat).
    { intros i s Hi Hs. rewrite !length_track in *.
      pose proof (length_batched_positions_split pre m post) as Htot.
      assert (Hls : forall k,
                 (k < length (batched_positions (pre ++ m :: post)))%nat ->
                 (k < length (batch_ids (pre ++ m :: post)))%nat).
      { intros k Hk. unfold batch_ids. rewrite length_batch_ids_from.
        exact Hk. }
      rewrite (proj2 (batch_id_at pre m post
                        (length (batched_positions pre) + i)
                        (Hls (length (batched_positions pre) + i)%nat
                             ltac:(lia)))) by lia.
      apply batch_id_at. apply Hls. exact Hs. }
    unfold batched_energies, alone_energies, resolved_energies.
    unfold resolved_features, resolved_batch. rewrite Hgp.
    unfold GNN3.edge_index, GNN3.gnn_edge_index.
    apply atom_energies_embeds.
    + rewrite !length_lift.
      rewrite length_batched_features by exact Hms.
      rewrite !length_track in HPlen. lia.
    + unfold per_atom_scale. rewrite length_map, repeat_length, length_lift.
      lia.
    + unfold per_atom_scale. rewrite length_map, repeat_length, length_lift.
      lia.
    + rewrite lift_batched_features, map_app. cbn [map].
      rewrite <- Hox.
      apply (embeds_concat (map (fun m0 => lift (mol_features m0)) pre)).
    + apply (per_atom_scale_embeds sterics mol_lambda_sterics).
    + apply (per_atom_scale_embeds electrostatics
               mol_lambda_electrostatics).
    + rewrite length_lift, Hlenm, <- (length_track None (mol_positions m)).
      apply radius_graph_embeds; assumption.
    + rewrite length_lift, Hlenm, <- (length_track None (mol_positions m)).
      apply radius_graph_embeds; assumption.
Qed.

(** C5.  For a model whose layers pass messages along the edges and with
    the per-atom parameters given as [atom_features]: evaluating every
    molecule in a call of its own and adding up the returned energies gives
    the energy returned by one call on all the molecules, with batch ids
    telling them apart and the same positions, features and lambdas. *)
Theorem batch_consistency (fraction gnn_radius : R) (cap : nat)
  (sterics electrostatics : ff_params) (w : transforms)
  (ms : list molecule) :
  forallb proper ms = true ->
  exists energies : list R,
    map (fun m =>
           GNN3.returned_energy
             (evaluate_alone
                (message_passing_model fraction gnn_radius cap sterics
                   electrostatics w) m)) ms
    = map Some energies /\
    GNN3.returned_energy
      (evaluate_batched
         (message_passing_model fraction gnn_radius cap sterics
            electrostatics w) ms)
    = Some (fold_right Rplus 0 energies).
Proof.
  intros Hms.
  set (self := message_passing_model fraction gnn_radius cap sterics
                 electrostatics w).
  assert (Hgp : GNN3.gnn_params self = None) by reflexivity.
  exists (map (fun m => val (Dual.sum (alone_energies self m))) ms).
  split.
  - rewrite map_map. apply map_ext_in. intros m Hm.
    assert (Hproper : proper m = true)
      by (rewrite forallb_forall in Hms; apply Hms; exact Hm).
    destruct (forward_with_well_formed Dual.no_grad self (mol_positions m)
                [mol_lambda_sterics m] [mol_lambda_electrostatics m] true
                (Some (repeat 0%nat (length (mol_positions m))))
                (Some (mol_features m))
                (well_formed_alone self m Hgp Hproper)) as [forces Hf].
    unfold evaluate_alone, GNN3.forward. rewrite Hf. reflexivity.
  - destruct (forward_with_well_formed Dual.no_grad self
                (batched_positions ms) (map mol_lambda_sterics ms)
                (map mol_lambda_electrostatics ms) true
                (Some (batch_ids ms)) (Some (batched_features ms))
                (well_formed_batched self ms Hgp Hms)) as [forces Hf].
    unfold evaluate_batched, GNN3.forward. rewrite Hf.
    cbn [GNN3.returned_energy]. f_equal.
    fold (batched_energies self ms).
    unfold self. rewrite batched_energies_concat by exact Hms.
    rewrite val_sum_concat, map_map. reflexivity.
Qed.

Lemma batch_consistency_witness :
  exists energies : list R,
    map (fun m =>
           GNN3.returned_energy
             (evaluate_alone
                (message_passing_model 0.5 0.4 32 (mk_ff [] 0) (mk_ff [] 0)
                   demo_transforms) m)) demo_molecules
    = map Some energies /\
    GNN3.returned_energy
      (evaluate_batched
         (message_passing_model 0.5 0.4 32 (mk_ff [] 0) (mk_ff [] 0)
            demo_transforms) demo_molecules)
    = Some (fold_right Rplus 0 energies).
Proof.
  apply (batch_consistency 0.5 0.4 32 (mk_ff [] 0) (mk_ff [] 0)
           demo_transforms demo_molecules).
  reflexivity.
Defined.

(** * Further properties *)

(** ** [MAFBigBind.__getitem__] *)

Lemma geb_lt (a b : Z) : (a < b)%Z -> (a >=? b)%Z = false.
Proof. intros H. rewrite Z.geb_leb. apply Z.leb_gt. exact H. Qed.

(** X1.  [MAFBigBind.__getitem__] raises [IndexError("Index out of
    bounds")] for an index at or past the length; it does not test the
    other end, and an index below [-len] raises the [IndexError] of the
    list of keys. *)
Theorem mafbigbind_index_errors (np : Datasets.numerics)
  (self : Datasets.MAFBigBind.t) (index : Z) :
  ((Datasets.MAFBigBind.__len__ self <= index)%Z ->
   Datasets.MAFBigBind.__getitem__ np self index
   = Raise (IndexError "Index out of bounds")) /\
  ((index < - Datasets.MAFBigBind.__len__ self)%Z ->
   Datasets.MAFBigBind.__getitem__ np self index
   = Raise (IndexError "list index out of range")).
Proof.
  split; intros H; unfold Datasets.MAFBigBind.__getitem__.
  - replace (index >=? Datasets.MAFBigBind.__len__ self)%Z with true
      by (symmetry; apply Z.geb_le; exact H).
    reflexivity.
  - unfold Datasets.MAFBigBind.__len__ in *.
    replace (index >=? Z.of_nat (length (Datasets.keys
                                           (Datasets.MAFBigBind.file self))))%Z
      with false by (symmetry; apply geb_lt; lia).
    unfold Datasets.list_getitem.
    replace (0 <=? index)%Z with false by (symmetry; apply Z.leb_gt; lia).
    replace (Z.of_nat (length (Datasets.keys (Datasets.MAFBigBind.file self)))
             + index <? 0)%Z with true by (symmetry; apply Z.ltb_lt; lia).
    reflexivity.
Qed.

Lemma mafbigbind_index_errors_witness :
  Datasets.MAFBigBind.__getitem__ plain_numerics two_molecules_maf 2
  = Raise (IndexError "Index out of bounds").
Proof.
  apply (proj1 (mafbigbind_index_errors plain_numerics two_molecules_maf 2)).
  vm_compute. discriminate.
Defined.

(** X2.  A negative index down to [-len] is not rejected: it counts from
    the end, as on the Python list of keys. *)
Theorem mafbigbind_negative_index (np : Datasets.numerics)
  (self : Datasets.MAFBigBind.t) (index : Z) :
  (- Datasets.MAFBigBind.__len__ self <= index < 0)%Z ->
  Datasets.MAFBigBind.__getitem__ np self index
  = Datasets.MAFBigBind.__getitem__ np self
      (Datasets.MAFBigBind.__len__ self + index).
Proof.
  intros H. unfold Datasets.MAFBigBind.__getitem__.
  set (len := Datasets.MAFBigBind.__len__ self) in *.
  replace (index >=? len)%Z with false
    by (symmetry; apply geb_lt; lia).
  replace (len + index >=? len)%Z with false
    by (symmetry; apply geb_lt; lia).
  replace (Datasets.list_getitem
             (Datasets.keys (Datasets.MAFBigBind.file self)) index)
    with (Datasets.list_getitem
            (Datasets.keys (Datasets.MAFBigBind.file self)) (len + index));
    [reflexivity|].
  unfold Datasets.list_getitem.
  fold (Datasets.MAFBigBind.__len__ self). fold len.
  replace (0 <=? len + index)%Z with true by (symmetry; apply Z.leb_le; lia).
  replace (0 <=? index)%Z with false by (symmetry; apply Z.leb_gt; lia).
  reflexivity.
Qed.

Lemma mafbigbind_negative_index_witness :
  Datasets.MAFBigBind.__getitem__ plain_numerics two_molecules_maf (-1)
  = Datasets.MAFBigBind.__getitem__ plain_numerics two_molecules_maf
      (Datasets.MAFBigBind.__len__ two_molecules_maf + -1).
Proof.
  apply mafbigbind_negative_index. vm_compute.
  split; [discriminate | reflexivity].
Defined.

(** X3.  An item that [MAFBigBind.__getitem__] returns is the first frame
    of its molecule: positions and both lambdas are entry 0 of their
    datasets, the positions are not empty, and [atom_features] has one row
    per atom, each ending in [lambda_electrostatics, lambda_sterics]. *)
Theorem mafbigbind_item_first_frame (np : Datasets.numerics)
  (self : Datasets.MAFBigBind.t) (index : Z) (it : Datasets.item) :
  Datasets.MAFBigBind.__getitem__ np self index = Ok it ->
  exists key g rows_,
    Datasets.list_getitem (Datasets.keys (Datasets.MAFBigBind.file self))
                          index = Ok key /\
    Datasets.getgroup (Datasets.MAFBigBind.file self) key = Ok g /\
    nth_error (Datasets.positions g) 0 = Some (Datasets.item_pos it) /\
    Datasets.item_pos it <> [] /\
    nth_error (Datasets.lambda_sterics g) 0
    = Some (Datasets.item_lambda_sterics it) /\
    nth_error (Datasets.lambda_electrostatics g) 0
    = Some (Datasets.item_lambda_electrostatics it) /\
    Datasets.item_atom_features it = Some rows_ /\
    length rows_ = length (Datasets.item_pos it) /\
    forall row, In row rows_ ->
      exists params,
        row = params ++ [Datasets.item_lambda_electrostatics it;
                         Datasets.item_lambda_sterics it].
Proof.
  unfold Datasets.MAFBigBind.__getitem__.
  destruct (index >=? Datasets.MAFBigBind.__len__ self)%Z; [discriminate|].
  destruct (Datasets.list_getitem _ index) as [key|] eqn:Ekey; cbn [bind];
    [|discriminate].
  destruct (Datasets.getgroup _ key) as [g|] eqn:Eg; cbn [bind];
    [|discriminate].
  unfold Datasets.frame.
  destruct (nth_error (Datasets.positions g) 0) as [pos|] eqn:Epos;
    cbn [bind]; [|discriminate].
  destruct (3 * length pos =? 0)%nat eqn:Esize; [discriminate|].
  destruct (nth_error (Datasets.lambda_sterics g) 0) as [ls|] eqn:Els;
    cbn [bind]; [|discriminate].
  destruct (nth_error (Datasets.lambda_electrostatics g) 0) as [le|] eqn:Ele;
    cbn [bind]; [|discriminate].
  intros H. injection H as <-. cbn.
  eexists key, g, _.
  split; [reflexivity|]. split; [exact Eg|]. split; [exact Epos|].
  split; [intros ->; discriminate Esize|].
  split; [exact Els|]. split; [exact Ele|]. split; [reflexivity|].
  split; [apply length_rows|].
  intros row Hrow. unfold rows in Hrow.
  apply in_map_iff in Hrow as (i & <- & _). eexists. reflexivity.
Qed.

Lemma mafbigbind_item_first_frame_witness :
  exists key g rows_,
    Datasets.list_getitem (Datasets.keys two_molecules_file) 1 = Ok key /\
    Datasets.getgroup two_molecules_file key = Ok g /\
    nth_error (Datasets.positions g) 0 = Some [(2, 0, 0)] /\
    [(2, 0, 0)] <> [] /\
    nth_error (Datasets.lambda_sterics g) 0 = Some 1 /\
    nth_error (Datasets.lambda_electrostatics g) 0 = Some 1 /\
    Some [[2; 0.15; 0.8; 1; 1]] = Some rows_ /\
    length rows_ = length [(2, 0, 0)] /\
    forall row, In row rows_ -> exists params, row = params ++ [1; 1].
Proof.
  apply (mafbigbind_item_first_frame plain_numerics two_molecules_maf 1
           {| Datasets.item_charges := [2];
              Datasets.item_atom_features := Some [[2; 0.15; 0.8; 1; 1]];
              Datasets.item_pos := [(2, 0, 0)];
              Datasets.item_atomic_numbers := [6%Z];
              Datasets.item_forces := [(0, 0, 0)];
              Datasets.item_lambda_sterics := 1;
              Datasets.item_lambda_electrostatics := 1;
              Datasets.item_sterics_derivative := 0;
              Datasets.item_electrostatics_derivative := 0 |}).
  reflexivity.
Defined.

(** ** [BigBindSolvDataset.__getitem__] *)

Lemma py_mod_period (index : Z) (n k : nat) :
  Datasets.BigBindSolvDataset.py_mod (index + Z.of_nat k * Z.of_nat n) n
  = Datasets.BigBindSolvDataset.py_mod index n.
Proof.
  unfold Datasets.BigBindSolvDataset.py_mod.
  rewrite Z_mod_plus_full. reflexivity.
Qed.

Lemma getgroup_in (file : Datasets.h5file) (key : string)
  (g : Datasets.group) :
  Datasets.getgroup file key = Ok g -> exists k, In (k, g) file.
Proof.
  unfold Datasets.getgroup.
  destruct (find (fun kg => String.eqb (fst kg) key) file) as [[k g']|] eqn:E;
    [|discriminate].
  intros H. injection H as <-. apply find_some in E as [E _].
  exists k. exact E.
Qed.

(** X4.  [BigBindSolvDataset.__getitem__] never tests its index against
    the length.  When every molecule has at least [frame_index] frames no
    random draw is made, and the access is periodic: [index + len(self)]
    returns what [index] returns, whatever the random generator. *)
Theorem bigbindsolv_periodic (self self' : Datasets.BigBindSolvDataset.t)
  (index : Z) (f : nat) :
  Datasets.BigBindSolvDataset.file self'
  = Datasets.BigBindSolvDataset.file self ->
  Datasets.BigBindSolvDataset.frame_index self = Some f ->
  Datasets.BigBindSolvDataset.frame_index self' = Some f ->
  Forall (fun kg => (f <= length (Datasets.positions (snd kg)))%nat)
         (Datasets.BigBindSolvDataset.file self) ->
  Datasets.BigBindSolvDataset.__len__ self
  = Ok (Z.of_nat (Datasets.BigBindSolvDataset.length_ self) * Z.of_nat f)%Z
  /\
  Datasets.BigBindSolvDataset.__getitem__ self'
    (index + Z.of_nat (Datasets.BigBindSolvDataset.length_ self)
             * Z.of_nat f)
  = Datasets.BigBindSolvDataset.__getitem__ self index.
Proof.
  intros Hfile Hf Hf' Hframes.
  split; [unfold Datasets.BigBindSolvDataset.__len__; rewrite Hf;
          reflexivity|].
  unfold Datasets.BigBindSolvDataset.__getitem__,
    Datasets.BigBindSolvDataset.length_.
  rewrite Hfile.
  fold (Datasets.BigBindSolvDataset.length_ self).
  rewrite (Z.mul_comm (Z.of_nat (Datasets.BigBindSolvDataset.length_ self))).
  rewrite py_mod_period.
  destruct (Datasets.BigBindSolvDataset.py_mod index
              (Datasets.BigBindSolvDataset.length_ self))
    as [index_mod|]; [|reflexivity].
  cbn [bind].
  destruct (Datasets.list_getitem
              (Datasets.keys (Datasets.BigBindSolvDataset.file self))
              (Z.of_nat index_mod)) as [key|]; [|reflexivity].
  cbn [bind].
  destruct (Datasets.getgroup (Datasets.BigBindSolvDataset.file self) key)
    as [g|] eqn:Eg; [|reflexivity].
  cbn [bind].
  apply getgroup_in in Eg as [k Hin].
  rewrite Forall_forall in Hframes. specialize (Hframes _ Hin).
  cbn [snd] in Hframes.
  replace (Datasets.BigBindSolvDataset.choose_frame self'
             (length (Datasets.positions g))
             (index + Z.of_nat f
                      * Z.of_nat (Datasets.BigBindSolvDataset.length_ self)))
    with (Datasets.BigBindSolvDataset.choose_frame self
            (length (Datasets.positions g)) index); [reflexivity|].
  unfold Datasets.BigBindSolvDataset.choose_frame. rewrite Hf, Hf'.
  replace (length (Datasets.positions g) <? f)%nat with false
    by (symmetry; apply Nat.ltb_ge; exact Hframes).
  rewrite (Z.mul_comm (Z.of_nat f)), py_mod_period. reflexivity.
Qed.

Lemma bigbindsolv_periodic_witness :
  Datasets.BigBindSolvDataset.__len__ two_molecules_dataset
  = Ok (Z.of_nat (Datasets.BigBindSolvDataset.length_ two_molecules_dataset)
        * Z.of_nat 2)%Z
  /\
  Datasets.BigBindSolvDataset.__getitem__ two_molecules_dataset
    (1 + Z.of_nat (Datasets.BigBindSolvDataset.length_
                     two_molecules_dataset) * Z.of_nat 2)
  = Datasets.BigBindSolvDataset.__getitem__ two_molecules_dataset 1.
Proof.
  apply (bigbindsolv_periodic two_molecules_dataset two_molecules_dataset
           1 2).
  - reflexivity.
  - reflexivity.
  - reflexivity.
  - repeat constructor.
Defined.

(** X5.  Molecule and frame are both read off the one index: the
    molecule number is [index % length] and the frame number
    [index % frame_index], so the two agree modulo every common divisor of
    the number of molecules and [frame_index], and pairs that do not are
    never returned. *)
Theorem bigbindsolv_molecule_frame_congruent
  (self : Datasets.BigBindSolvDataset.t) (index : Z)
  (f num_frames d molecule frame_idx : nat) :
  Datasets.BigBindSolvDataset.frame_index self = Some f ->
  (f <= num_frames)%nat ->
  Nat.divide d (Datasets.BigBindSolvDataset.length_ self) ->
  Nat.divide d f ->
  Datasets.BigBindSolvDataset.py_mod index
    (Datasets.BigBindSolvDataset.length_ self) = Ok molecule ->
  Datasets.BigBindSolvDataset.choose_frame self num_frames index
  = Ok frame_idx ->
  (molecule mod d = frame_idx mod d)%nat.
Proof.
  intros Hf Hnum [k Hk] [j Hj].
  unfold Datasets.BigBindSolvDataset.choose_frame. rewrite Hf.
  replace (num_frames <? f)%nat with false
    by (symmetry; apply Nat.ltb_ge; exact Hnum).
  unfold Datasets.BigBindSolvDataset.py_mod.
  set (L := Datasets.BigBindSolvDataset.length_ self) in *.
  destruct (L =? 0)%nat eqn:EL; [discriminate|].
  destruct (f =? 0)%nat eqn:Ef; [discriminate|].
  apply Nat.eqb_neq in EL. apply Nat.eqb_neq in Ef.
  intros H1 H2. injection H1 as <-. injection H2 as <-.
  assert (Hd : d <> 0%nat) by (intros ->; lia).
  apply Nat2Z.inj. rewrite !Nat2Z.inj_mod.
  rewrite !Z2Nat.id by (apply Z.mod_pos_bound; lia).
  rewrite !Z.mod_mod_divide.
  - reflexivity.
  - exists (Z.of_nat j). lia.
  - exists (Z.of_nat k). lia.
Qed.

Lemma bigbindsolv_molecule_frame_congruent_witness :
  (1 mod 2 = 1 mod 2)%nat.
Proof.
  apply (bigbindsolv_molecule_frame_congruent two_molecules_dataset 3
           2 2 2 1 1).
  - reflexivity.
  - lia.
  - exists 1%nat. reflexivity.
  - exists 1%nat. reflexivity.
  - reflexivity.
  - reflexivity.
Defined.

(** X6.  The fields of an item that change from frame to frame come from
    one frame of one molecule; with [frame_index] given and at least that
    many frames stored, it is frame [index % frame_index] of molecule
    [index % length]. *)
Theorem bigbindsolv_item_one_frame (self : Datasets.BigBindSolvDataset.t)
  (index : Z) (f : nat) (it : Datasets.item) :
  Datasets.BigBindSolvDataset.frame_index self = Some f ->
  Datasets.BigBindSolvDataset.__getitem__ self index = Ok it ->
  exists key g frame_idx,
    nth_error (Datasets.keys (Datasets.BigBindSolvDataset.file self))
      (Z.to_nat (index mod
                 Z.of_nat (Datasets.BigBindSolvDataset.length_ self)))
    = Some key /\
    Datasets.getgroup (Datasets.BigBindSolvDataset.file self) key = Ok g /\
    ((f <= length (Datasets.positions g))%nat ->
     frame_idx = Z.to_nat (index mod Z.of_nat f)) /\
    nth_error (Datasets.positions g) frame_idx
    = Some (Datasets.item_pos it) /\
    nth_error (Datasets.solv_forces g) frame_idx
    = Some (Datasets.item_forces it) /\
    nth_error (Datasets.lambda_sterics g) frame_idx
    = Some (Datasets.item_lambda_sterics it) /\
    nth_error (Datasets.lambda_electrostatics g) frame_idx
    = Some (Datasets.item_lambda_electrostatics it) /\
    nth_error (Datasets.sterics_derivatives g) frame_idx
    = Some (Datasets.item_sterics_derivative it) /\
    nth_error (Datasets.electrostatics_derivatives g) frame_idx
    = Some (Datasets.item_electrostatics_derivative it) /\
    Datasets.item_charges it = Datasets.charges g /\
    Datasets.item_atomic_numbers it = Datasets.atomic_numbers g.
Proof.
  intros Hf. unfold Datasets.BigBindSolvDataset.__getitem__.
  unfold Datasets.BigBindSolvDataset.py_mod at 1.
  destruct (Datasets.BigBindSolvDataset.length_ self =? 0)%nat eqn:EL;
    [discriminate|].
  cbn [bind].
  unfold Datasets.list_getitem.
  rewrite Z2Nat.id
    by (apply Z.mod_pos_bound; apply Nat.eqb_neq in EL; lia).
  replace (0 <=? index mod
                 Z.of_nat (Datasets.BigBindSolvDataset.length_ self))%Z
    with true
    by (symmetry; apply Z.leb_le, Z.mod_pos_bound;
        apply Nat.eqb_neq in EL; lia).
  replace (index mod Z.of_nat (Datasets.BigBindSolvDataset.length_ self)
           <? 0)%Z
    with false
    by (symmetry; apply Z.ltb_ge, Z.mod_pos_bound;
        apply Nat.eqb_neq in EL; lia).
  destruct (nth_error (Datasets.keys (Datasets.BigBindSolvDataset.file self))
              _) as [key|] eqn:Ekey; cbn [bind]; [|discriminate].
  destruct (Datasets.getgroup _ key) as [g|] eqn:Eg; cbn [bind];
    [|discriminate].
  destruct (Datasets.BigBindSolvDataset.choose_frame self
              (length (Datasets.positions g)) index)
    as [frame_idx|] eqn:Eframe; cbn [bind]; [|discriminate].
  unfold Datasets.frame.
  destruct (nth_error (Datasets.positions g) frame_idx) eqn:E1;
    cbn [bind]; [|discriminate].
  destruct (nth_error (Datasets.solv_forces g) frame_idx) eqn:E2;
    cbn [bind]; [|discriminate].
  destruct (nth_error (Datasets.lambda_sterics g) frame_idx) eqn:E3;
    cbn [bind]; [|discriminate].
  destruct (nth_error (Datasets.lambda_electrostatics g) frame_idx) eqn:E4;
    cbn [bind]; [|discriminate].
  destruct (nth_error (Datasets.sterics_derivatives g) frame_idx) eqn:E5;
    cbn [bind]; [|discriminate].
  destruct (nth_error (Datasets.electrostatics_derivatives g) frame_idx)
    eqn:E6; cbn [bind]; [|discriminate].
  intros H. injection H as <-. cbn.
  exists key, g, frame_idx.
  split; [reflexivity|]. split; [exact Eg|].
  split.
  - intros Hnum. unfold Datasets.BigBindSolvDataset.choose_frame in Eframe.
    rewrite Hf in Eframe.
    replace (length (Datasets.positions g) <? f)%nat with false in Eframe
      by (symmetry; apply Nat.ltb_ge; exact Hnum).
    unfold Datasets.BigBindSolvDataset.py_mod in Eframe.
    destruct (f =? 0)%nat; [discriminate|].
    injection Eframe as <-. reflexivity.
  - repeat (split; [assumption|]). split; reflexivity.
Qed.

Lemma bigbindsolv_item_one_frame_witness :
  exists key g frame_idx,
    nth_error (Datasets.keys two_molecules_file) (Z.to_nat (3 mod 2))
    = Some key /\
    Datasets.getgroup two_molecules_file key = Ok g /\
    ((2 <= length (Datasets.positions g))%nat ->
     frame_idx = Z.to_nat (3 mod 2)) /\
    nth_error (Datasets.positions g) frame_idx = Some [(2, 1, 0)] /\
    nth_error (Datasets.solv_forces g) frame_idx = Some [(0, 0, 1)] /\
    nth_error (Datasets.lambda_sterics g) frame_idx = Some 0.5 /\
    nth_error (Datasets.lambda_electrostatics g) frame_idx = Some 0 /\
    nth_error (Datasets.sterics_derivatives g) frame_idx = Some 0.1 /\
    nth_error (Datasets.electrostatics_derivatives g) frame_idx = Some 0.2 /\
    [2] = Datasets.charges g /\
    [6%Z] = Datasets.atomic_numbers g.
Proof.
  apply (bigbindsolv_item_one_frame two_molecules_dataset 3 2
           {| Datasets.item_charges := [2];
              Datasets.item_atom_features := None;
              Datasets.item_pos := [(2, 1, 0)];
              Datasets.item_atomic_numbers := [6%Z];
              Datasets.item_forces := [(0, 0, 1)];
              Datasets.item_lambda_sterics := 0.5;
              Datasets.item_lambda_electrostatics := 0;
              Datasets.item_sterics_derivative := 0.1;
              Datasets.item_electrostatics_derivative := 0.2 |}).
  - reflexivity.
  - reflexivity.
Defined.

(** X7.  On a file without groups every access divides by zero: the
    index is reduced modulo the number of groups before anything else. *)
Theorem bigbindsolv_empty_file (self : Datasets.BigBindSolvDataset.t)
  (index : Z) :
  Datasets.BigBindSolvDataset.file self = [] ->
  Datasets.BigBindSolvDataset.__getitem__ self index
  = Raise (ZeroDivisionError "integer division or modulo by zero").
Proof.
  intros H. unfold Datasets.BigBindSolvDataset.__getitem__,
    Datasets.BigBindSolvDataset.py_mod, Datasets.BigBindSolvDataset.length_.
  rewrite H. reflexivity.
Qed.

Lemma bigbindsolv_empty_file_witness :
  Datasets.BigBindSolvDataset.__getitem__ empty_dataset 0
  = Raise (ZeroDivisionError "integer division or modulo by zero").
Proof. apply bigbindsolv_empty_file. reflexivity. Defined.

(** ** The shape of the radial basis encoding *)

Lemma cube_le (a b : R) : a <= b -> a ^ 3 <= b ^ 3.
Proof.
  intros H.
  assert (Hq : 0 <= a * a + a * b + b * b) by nra.
  assert (Hp : 0 <= (b - a) * (a * a + a * b + b * b))
    by (apply Rmult_le_pos; lra).
  simpl. nra.
Qed.

Lemma bump_le_1 (m k : R) : bump m k <= 1.
Proof.
  unfold bump. apply Rmax_lub; [lra|].
  assert (H : 1 - (k / m) ^ 2 <= 1) by (simpl; nra).
  apply cube_le in H. replace (1 ^ 3) with 1 in H by (simpl; lra). exact H.
Qed.

Lemma bump_center (m : R) : bump m 0 = 1.
Proof.
  unfold bump. replace ((1 - (0 / m) ^ 2) ^ 3) with 1.
  - apply Rmax_right. lra.
  - unfold Rdiv. rewrite Rmult_0_l. simpl. lra.
Qed.

Lemma bump_even (m k : R) : bump m (- k) = bump m k.
Proof.
  unfold bump. f_equal. f_equal. f_equal.
  unfold Rdiv. simpl. ring.
Qed.

Lemma bump_decreasing (m k1 k2 : R) :
  Rabs k1 <= Rabs k2 -> bump m k2 <= bump m k1.
Proof.
  intros H. unfold bump.
  apply Rle_max_compat_l. apply cube_le.
  assert (Hk : k1 * k1 <= k2 * k2).
  { unfold Rabs in H.
    destruct (Rcase_abs k1), (Rcase_abs k2); nra. }
  assert (Hm : 0 <= / m * / m) by nra.
  unfold Rdiv. simpl.
  assert (Hx : k1 * k1 * (/ m * / m) <= k2 * k2 * (/ m * / m))
    by (apply Rmult_le_compat_r; assumption).
  nra.
Qed.

Lemma nth_get_edge_features (d alpha max_range min_range : R)
  (num_kernels i : nat) :
  (i < num_kernels)%nat ->
  nth i (get_edge_features d alpha max_range min_range num_kernels) 0
  = bump (margin alpha max_range min_range num_kernels)
         (d - nth i (centers alpha max_range min_range num_kernels) 0).
Proof.
  intros Hi. unfold get_edge_features.
  rewrite (nth_indep _ 0
             (bump (margin alpha max_range min_range num_kernels) (d - 0)))
    by (rewrite length_map; unfold centers; rewrite length_linspace; lia).
  rewrite (map_nth (fun c => bump (margin alpha max_range min_range
                                          num_kernels) (d - c))).
  reflexivity.
Qed.

(** X8.  With a margin that is not zero, every entry of the encoding lies
    in [0, 1]; it depends on the distance to its center only through the
    absolute value, does not grow when the distance moves away from the
    center, and is one at the center. *)
Theorem rbf_bump_shape (d d' alpha max_range min_range : R)
  (num_kernels i : nat) :
  margin alpha max_range min_range num_kernels <> 0 ->
  (i < num_kernels)%nat ->
  let c := nth i (centers alpha max_range min_range num_kernels) 0 in
  let out := fun x =>
    nth i (get_edge_features x alpha max_range min_range num_kernels) 0 in
  0 <= out d <= 1 /\
  out (c + (c - d)) = out d /\
  (Rabs (d - c) <= Rabs (d' - c) -> out d' <= out d) /\
  out c = 1.
Proof.
  intros _ Hi c out. unfold out.
  rewrite !nth_get_edge_features by exact Hi. fold c.
  split; [split; [apply bump_nonneg | apply bump_le_1]|].
  split.
  - replace (c + (c - d) - c) with (- (d - c)) by ring. apply bump_even.
  - split; [apply bump_decreasing|].
    replace (c - c) with 0 by ring. apply bump_center.
Qed.

Lemma rbf_bump_shape_witness :
  let c := nth 3 (centers 2 0.4 0.1 32) 0 in
  let out := fun x => nth 3 (get_edge_features x 2 0.4 0.1 32) 0 in
  0 <= out 0.2 <= 1 /\
  out (c + (c - 0.2)) = out 0.2 /\
  (Rabs (0.2 - c) <= Rabs (0.3 - c) -> out 0.3 <= out 0.2) /\
  out c = 1.
Proof.
  apply (rbf_bump_shape 0.2 0.3 2 0.4 0.1 32 3).
  - unfold margin. simpl. lra.
  - lia.
Defined.

Lemma bump_inside (m k : R) : 0 < m -> Rabs k < m -> 0 < bump m k.
Proof.
  intros Hm Hk. unfold bump.
  apply Rlt_le_trans with ((1 - (k / m) ^ 2) ^ 3); [|apply Rmax_r].
  assert (Hu : (k / m) ^ 2 < 1).
  { assert (Hk2 : k * k < m * m).
    { unfold Rabs in Hk. destruct (Rcase_abs k); nra. }
    replace ((k / m) ^ 2) with ((k * k) / (m * m)) by (field; lra).
    apply Rmult_lt_reg_r with (m * m); [nra|].
    unfold Rdiv. rewrite Rmult_assoc, Rinv_l by nra. lra. }
  set (v := 1 - (k / m) ^ 2) in *.
  assert (Hv : 0 < v) by (unfold v; lra).
  simpl. rewrite Rmult_1_r.
  apply Rmult_lt_0_compat; [exact Hv|]. apply Rmult_lt_0_compat; exact Hv.
Qed.

Lemma nth_centers (alpha max_range min_range : R) (n i : nat) :
  (i < n)%nat ->
  let m := margin alpha max_range min_range n in
  nth i (centers alpha max_range min_range n) 0
  = (min_range + m)
    + INR i * (((max_range - m) - (min_range + m)) / INR (n - 1)).
Proof. intros Hi m. unfold centers. apply nth_linspace. exact Hi. Qed.

Lemma margin_pos (alpha max_range min_range : R) (n : nat) :
  0 < alpha -> min_range < max_range ->
  0 < margin alpha max_range min_range n.
Proof.
  intros Ha Hr. unfold margin.
  pose proof (pos_INR n) as Hn.
  apply Rdiv_lt_0_compat; [|lra].
  apply Rmult_lt_0_compat; lra.
Qed.

Lemma margin_times (alpha max_range min_range : R) (n : nat) :
  margin alpha max_range min_range n * (INR n + 1)
  = alpha * (max_range - min_range).
Proof.
  unfold margin. pose proof (pos_INR n) as Hn. field. lra.
Qed.

(** X9.  With at least two kernels whose supports overlap
    ([num_kernels + 1 < 2 * alpha * num_kernels], as with the defaults),
    the encoding has no blind spot: a distance strictly between
    [min_range] and [max_range] has a positive entry. *)
Theorem rbf_no_blind_spot (d alpha max_range min_range : R)
  (num_kernels : nat) :
  (2 <= num_kernels)%nat ->
  min_range < max_range ->
  INR num_kernels + 1 < 2 * alpha * INR num_kernels ->
  min_range < d < max_range ->
  exists i, (i < num_kernels)%nat /\
            0 < nth i (get_edge_features d alpha max_range min_range
                         num_kernels) 0.
Proof.
  intros Hn Hr Hov Hd.
  set (m := margin alpha max_range min_range num_kernels).
  assert (HnR : 2 <= INR num_kernels)
    by (replace 2 with (INR 2) by (simpl; lra); apply le_INR; exact Hn).
  assert (Ha : 0 < alpha) by nra.
  assert (Hm : 0 < m) by (apply margin_pos; assumption).
  assert (Hmt : m * (INR num_kernels + 1) = alpha * (max_range - min_range))
    by apply margin_times.
  assert (Hn1 : INR (num_kernels - 1) = INR num_kernels - 1)
    by (rewrite minus_INR by lia; simpl; lra).
  set (h := ((max_range - m) - (min_range + m)) / INR (num_kernels - 1)).
  assert (Hh : h * (INR num_kernels - 1) = max_range - min_range - 2 * m).
  { unfold h. rewrite Hn1. field. lra. }
  assert (Hstep : h < 2 * m).
  { assert (Hw : max_range - min_range < 2 * m * INR num_kernels).
    { assert (Hx : (max_range - min_range) * (INR num_kernels + 1)
                   < 2 * m * INR num_kernels * (INR num_kernels + 1)) by nra.
      apply Rmult_lt_reg_r with (INR num_kernels + 1); [lra | exact Hx]. }
    apply Rmult_lt_reg_r with (INR num_kernels - 1); [lra|].
    rewrite Hh. nra. }
  assert (Hcover : forall k, (k < num_kernels)%nat ->
            d < (min_range + m) + INR k * h + m ->
            exists i, (i <= k)%nat /\
                      Rabs (d - ((min_range + m) + INR i * h)) < m).
  { induction k as [|k IH]; intros Hk Hlt.
    - exists 0%nat. split; [lia|]. simpl INR in *.
      apply Rabs_def1; lra.
    - rewrite S_INR in Hlt.
      destruct (Rlt_le_dec d ((min_range + m) + INR k * h + m)) as [Hc|Hc].
      + destruct (IH ltac:(lia) Hc) as (i & Hi & Hin).
        exists i. split; [lia | exact Hin].
      + exists (S k). split; [lia|]. rewrite S_INR.
        apply Rabs_def1; lra. }
  destruct (Hcover (num_kernels - 1)%nat ltac:(lia)) as (i & Hi & Hin).
  { rewrite Hn1. lra. }
  exists i. split; [lia|].
  rewrite nth_get_edge_features by lia.
  rewrite nth_centers by lia.
  apply bump_inside; [exact Hm | exact Hin].
Qed.

Lemma rbf_no_blind_spot_witness :
  exists i, (i < 32)%nat /\ 0 < nth i (get_edge_features 0.25 2 0.4 0.1 32) 0.
Proof.
  apply rbf_no_blind_spot.
  - lia.
  - lra.
  - simpl. lra.
  - lra.
Defined.

(** X10.  With the centers in order ([2 * alpha <= num_kernels + 1], as
    with the defaults), the encoding vanishes outside the range: a
    distance at or below [min_range], or at or above [max_range], gives
    zero in every entry. *)
Theorem rbf_zero_outside_range (d alpha max_range min_range : R)
  (num_kernels i : nat) :
  0 < alpha -> min_range < max_range ->
  2 * alpha <= INR num_kernels + 1 ->
  d <= min_range \/ max_range <= d ->
  (i < num_kernels)%nat ->
  nth i (get_edge_features d alpha max_range min_range num_kernels) 0 = 0.
Proof.
  intros Ha Hr Hord Hd Hi.
  set (m := margin alpha max_range min_range num_kernels).
  assert (Hm : 0 < m) by (apply margin_pos; assumption).
  assert (Hmt : m * (INR num_kernels + 1) = alpha * (max_range - min_range))
    by apply margin_times.
  pose proof (pos_INR num_kernels) as HnR.
  assert (Hspan : 0 <= (max_range - m) - (min_range + m)) by nra.
  rewrite nth_get_edge_features by exact Hi.
  rewrite nth_centers by exact Hi. fold m.
  set (t := INR i * (((max_range - m) - (min_range + m))
                     / INR (num_kernels - 1))).
  assert (Ht : 0 <= t <= (max_range - m) - (min_range + m)).
  { unfold t. destruct (Nat.eq_dec num_kernels 1) as [E|E].
    - subst num_kernels. assert (i = 0%nat) by lia. subst i.
      simpl INR. rewrite Rmult_0_l. lra.
    - assert (Hp : 0 < INR (num_kernels - 1)) by (apply lt_0_INR; lia).
      assert (Hq : INR i <= INR (num_kernels - 1)) by (apply le_INR; lia).
      pose proof (pos_INR i) as Hi0.
      split.
      + apply Rmult_le_pos; [exact Hi0|].
        apply Rmult_le_pos; [exact Hspan|].
        apply Rlt_le, Rinv_0_lt_compat, Hp.
      + replace (INR i * ((max_range - m - (min_range + m))
                          / INR (num_kernels - 1)))
          with ((max_range - m - (min_range + m))
                * (INR i / INR (num_kernels - 1)))
          by (field; lra).
        assert (Hfrac : INR i / INR (num_kernels - 1) <= 1).
        { apply Rmult_le_reg_r with (INR (num_kernels - 1)); [exact Hp|].
          unfold Rdiv. rewrite Rmult_assoc, Rinv_l by lra. lra. }
        assert (Hfrac0 : 0 <= INR i / INR (num_kernels - 1)).
        { apply Rmult_le_pos; [exact Hi0|].
          apply Rlt_le, Rinv_0_lt_compat, Hp. }
        nra. }
  apply bump_outside; [exact Hm|].
  unfold Rabs. destruct (Rcase_abs (d - (min_range + m + t))); lra.
Qed.

Lemma rbf_zero_outside_range_witness :
  nth 5 (get_edge_features 0.45 2 0.4 0.1 32) 0 = 0.
Proof.
  apply rbf_zero_outside_range.
  - lra.
  - lra.
  - simpl. lra.
  - right. lra.
  - lia.
Defined.

(** ** The inputs on which [forward] runs *)

Lemma gather_ok_in_range (scale : list D) (batch : list nat) (l : list D) :
  gather scale batch = Ok l -> in_range (length scale) batch = true.
Proof.
  revert l. induction batch as [|b batch IH]; simpl; intros l H.
  - reflexivity.
  - destruct (nth_error scale b) as [v|] eqn:Hv; [|discriminate].
    destruct (gather scale batch) as [rest|] eqn:G; [|discriminate].
    apply andb_true_intro. split.
    + apply Nat.ltb_lt. apply nth_error_Some. congruence.
    + apply (IH rest). reflexivity.
Qed.

Lemma expand_ok (t : list D) (n : nat) (l : list D) :
  expand t n = Ok l -> expandable (length t) n = true /\ length l = n.
Proof.
  unfold expand, expandable.
  destruct (length t =? n)%nat eqn:E1.
  - intros H. injection H as <-. split; [reflexivity|].
    apply Nat.eqb_eq. exact E1.
  - destruct (length t =? 1)%nat eqn:E2; [|discriminate].
    intros H. injection H as <-. split; [reflexivity|].
    apply repeat_length.
Qed.

Lemma inputs_ok_well_formed (self : GNN3.t) (num_positions : nat)
  (lambda_sterics lambda_electrostatics : list R)
  (batch : option (list nat)) (atom_features : option (list (list R)))
  (v : list (list D) * list D * list D) :
  GNN3.inputs self num_positions lambda_sterics lambda_electrostatics
              batch atom_features = Ok v ->
  well_formed self num_positions lambda_sterics lambda_electrostatics
              batch atom_features = true.
Proof.
  unfold well_formed, GNN3.inputs, GNN3.default_batch, GNN3.node_features.
  destruct (GNN3.gnn_params self) as [gp|].
  - set (b := match batch with
              | Some b => b
              | None => repeat 0%nat (length gp)
              end).
    replace (match batch with
             | Some b0 => Ok b0
             | None => Ok (repeat 0%nat (length gp))
             end) with (Ok b) by (destruct batch; reflexivity).
    cbn [bind].
    destruct (expand (map Dual.const lambda_electrostatics) num_positions)
      as [xe|] eqn:Ee; [|discriminate].
    destruct (expand (map Dual.const lambda_sterics) num_positions)
      as [xs|] eqn:Es; [|discriminate].
    cbn [bind].
    apply expand_ok in Ee as [Ee Le]. apply expand_ok in Es as [Es Ls].
    rewrite length_map in Ee, Es.
    unfold cat_columns.
    destruct ((length (lift gp) =? length xe)
              && (length xe =? length xs))%nat eqn:Ec; [|discriminate].
    cbn [bind].
    destruct (gather (scales (GNN3.electrostatics_ff self)
                        lambda_electrostatics) b) as [le|] eqn:Ge;
      [|discriminate].
    destruct (gather (scales (GNN3.sterics_ff self) lambda_sterics) b)
      as [ls|] eqn:Gs; [|discriminate].
    cbn [bind].
    rewrite width_rows_app. cbn [negb].
    destruct (length b =? length (rows (length (lift gp))
                (fun i => nth i (lift gp) [] ++
                          [nth i xe Dual.zero; nth i xs Dual.zero])))%nat
      eqn:El; [|discriminate].
    intros _.
    apply gather_ok_in_range in Ge, Gs. rewrite length_scales in Ge, Gs.
    apply andb_prop in Ec as [Ec _]. apply Nat.eqb_eq in Ec.
    rewrite length_lift, Le in Ec.
    rewrite length_rows, length_lift in El.
    rewrite Ee, Es, Ge, Gs, El. rewrite Ec, Nat.eqb_refl. reflexivity.
  - destruct batch as [b|]; [|discriminate].
    destruct atom_features as [af|]; [|discriminate].
    cbn [bind].
    destruct (gather (scales (GNN3.electrostatics_ff self)
                        lambda_electrostatics) b) as [le|] eqn:Ge;
      [|discriminate].
    destruct (gather (scales (GNN3.sterics_ff self) lambda_sterics) b)
      as [ls|] eqn:Gs; [|discriminate].
    cbn [bind].
    rewrite width_lift, length_lift.
    destruct (forallb (fun row => (2 <=? length row)%nat) af);
      [|discriminate].
    cbn [negb].
    destruct (length b =? length af)%nat; [|discriminate].
    intros _.
    apply gather_ok_in_range in Ge, Gs. rewrite length_scales in Ge, Gs.
    rewrite Ge, Gs. reflexivity.
Qed.

(** X11.  [forward] raises (with either value of [retrieve_forces]) on
    every input whose shapes are not those of [well_formed]: parameters in
    neither representation, a feature row of fewer than two columns, a
    batch vector that is not as long as the feature rows or whose ids do
    not index both lambda tensors, or, with [gnn_params], lambda tensors
    that do not expand to one row per position. *)
Theorem forward_raises_unless_well_formed (self : GNN3.t)
  (positions : list (R * R * R))
  (lambda_sterics lambda_electrostatics : list R) (retrieve_forces : bool)
  (batch : option (list nat)) (atom_features : option (list (list R))) :
  well_formed self (length positions) lambda_sterics lambda_electrostatics
              batch atom_features = false ->
  raises (GNN3.forward self positions lambda_sterics lambda_electrostatics
            retrieve_forces batch atom_features).
Proof.
  intros Hwf. unfold GNN3.forward, GNN3.forward_with.
  destruct (GNN3.energies_with Dual.no_grad self (track None positions)
              lambda_sterics lambda_electrostatics batch atom_features)
    as [e|e] eqn:E.
  - exfalso. unfold GNN3.energies_with in E. rewrite length_track in E.
    destruct (GNN3.inputs self (length positions) lambda_sterics
                lambda_electrostatics batch atom_features)
      as [xl|] eqn:Ei; [|discriminate].
    rewrite (inputs_ok_well_formed _ _ _ _ _ _ _ Ei) in Hwf.
    discriminate.
  - exists e. reflexivity.
Qed.

Lemma forward_raises_unless_well_formed_witness :
  raises (GNN3.forward Demo.model Demo.positions [1] [] true
            (Some Demo.batch) (Some Demo.atom_features)).
Proof.
  apply (forward_raises_unless_well_formed Demo.model Demo.positions
           [1] [] true (Some Demo.batch) (Some Demo.atom_features)).
  reflexivity.
Defined.

(** ** Moving all atoms by one vector *)

Lemma length_translate (v : R * R * R) (positions : list (R * R * R)) :
  length (translate v positions) = length positions.
Proof. unfold translate. apply length_map. Qed.

Lemma nth_track (direction : option (nat * nat))
  (positions : list (R * R * R)) (i : nat) :
  (i < length positions)%nat ->
  nth i (track direction positions) zero3
  = let '(x, y, z) := nth i positions (0, 0, 0) in
    (mkD x (seed direction i 0), mkD y (seed direction i 1),
     mkD z (seed direction i 2)).
Proof.
  intros Hi. unfold track.
  set (f := fun ip : nat * (R * R * R) =>
              let '(i0, (x, y, z)) := ip in
              (mkD x (seed direction i0 0), mkD y (seed direction i0 1),
               mkD z (seed direction i0 2))).
  rewrite (nth_indep _ zero3 (f (0%nat, (0, 0, 0))))
    by (rewrite length_map, length_combine, length_seq; lia).
  rewrite (map_nth f).
  rewrite combine_nth by (rewrite length_seq; reflexivity).
  rewrite seq_nth by exact Hi. simpl.
  destruct (nth i positions (0, 0, 0)) as [[x y] z]. reflexivity.
Qed.

Lemma nth_translate (v : R * R * R) (positions : list (R * R * R))
  (i : nat) :
  (i < length positions)%nat ->
  nth i (translate v positions) (0, 0, 0)
  = let '(x, y, z) := nth i positions (0, 0, 0) in
    let '(vx, vy, vz) := v in
    (x + vx, y + vy, z + vz).
Proof.
  intros Hi. unfold translate.
  set (f := fun p : R * R * R =>
              let '(x, y, z) := p in
              let '(vx, vy, vz) := v in
              (x + vx, y + vy, z + vz)).
  rewrite (nth_indep _ (0, 0, 0) (f (0, 0, 0)))
    by (rewrite length_map; exact Hi).
  rewrite (map_nth f). reflexivity.
Qed.

Lemma distancer_translate (direction : option (nat * nat))
  (v : R * R * R) (positions : list (R * R * R)) (s t : nat) :
  (s < length positions)%nat -> (t < length positions)%nat ->
  distancer (nth s (track direction (translate v positions)) zero3)
            (nth t (track direction (translate v positions)) zero3)
  = distancer (nth s (track direction positions) zero3)
              (nth t (track direction positions) zero3).
Proof.
  intros Hs Ht.
  rewrite !nth_track by (rewrite ?length_translate; assumption).
  rewrite !nth_translate by assumption.
  destruct (nth s positions (0, 0, 0)) as [[xs ys] zs].
  destruct (nth t positions (0, 0, 0)) as [[xt yt] zt].
  destruct v as [[vx vy] vz].
  unfold distancer. f_equal.
  unfold shifted_norm2, Dual.sq, Dual.mul, Dual.add, Dual.sub, Dual.const.
  cbn [val tan]. f_equal; ring.
Qed.

Lemma euclid2_translate (direction : option (nat * nat))
  (v : R * R * R) (positions : list (R * R * R)) (s t : nat) :
  (s < length positions)%nat -> (t < length positions)%nat ->
  euclid2 (nth s (track direction (translate v positions)) zero3)
          (nth t (track direction (translate v positions)) zero3)
  = euclid2 (nth s (track direction positions) zero3)
            (nth t (track direction positions) zero3).
Proof.
  intros Hs Ht.
  rewrite !nth_track by (rewrite ?length_translate; assumption).
  rewrite !nth_translate by assumption.
  destruct (nth s positions (0, 0, 0)) as [[xs ys] zs].
  destruct (nth t positions (0, 0, 0)) as [[xt yt] zt].
  destruct v as [[vx vy] vz].
  unfold euclid2. cbn [val]. ring.
Qed.

Lemma radius_graph_ext (x x' : list vec3) (r : R)
  (batch batch' : option (list nat)) (loop : bool) (cap : nat) :
  length x = length x' ->
  (forall s t, (s < length x)%nat -> (t < length x)%nat ->
               euclid2 (nth s x zero3) (nth t x zero3)
               = euclid2 (nth s x' zero3) (nth t x' zero3)) ->
  (forall s t, same_batch batch s t = same_batch batch' s t) ->
  radius_graph x r batch loop cap = radius_graph x' r batch' loop cap.
Proof.
  intros Hl He Hb. unfold radius_graph. rewrite <- Hl.
  rewrite !flat_map_concat_map. f_equal.
  apply map_ext_in. intros t Ht. apply in_seq in Ht.
  f_equal. unfold neighbours. rewrite <- Hl. f_equal.
  rewrite (filter_ext_in
             (fun s => (loop || negb (s =? t)%nat) && same_batch batch s t
                       && within r (nth s x zero3) (nth t x zero3))
             (fun s => (loop || negb (s =? t)%nat) && same_batch batch' s t
                       && within r (nth s x' zero3) (nth t x' zero3))).
  - apply sort_by_ext. intros s Hs.
    apply filter_In in Hs as [Hs _]. apply in_seq in Hs.
    apply He; lia.
  - intros s Hs. apply in_seq in Hs.
    rewrite Hb. unfold within. rewrite He by lia. reflexivity.
Qed.

Lemma edge_distances_ext (x x' : list vec3) (edge_index : list edge) :
  (forall s t, In (s, t) edge_index ->
               distancer (nth s x zero3) (nth t x zero3)
               = distancer (nth s x' zero3) (nth t x' zero3)) ->
  edge_distances x edge_index = edge_distances x' edge_index.
Proof.
  intros H. unfold edge_distances. apply map_ext_in.
  intros [s t] Hin. apply H. exact Hin.
Qed.

Lemma in_radius_graph_range (x : list vec3) (r : R)
  (batch : option (list nat)) (loop : bool) (cap s t : nat) :
  In (s, t) (radius_graph x r batch loop cap) ->
  (s < length x)%nat /\ (t < length x)%nat.
Proof.
  intros H. apply in_radius_graph in H as [Ht Hs].
  apply in_neighbours in Hs as (_ & _ & Hs). split; assumption.
Qed.

Lemma energies_with_translate (under_no_grad : D -> D) (self : GNN3.t)
  (direction : option (nat * nat)) (v : R * R * R)
  (positions : list (R * R * R))
  (lambda_sterics lambda_electrostatics : list R)
  (batch : option (list nat)) (atom_features : option (list (list R))) :
  GNN3.energies_with under_no_grad self
    (track direction (translate v positions))
    lambda_sterics lambda_electrostatics batch atom_features
  = GNN3.energies_with under_no_grad self (track direction positions)
      lambda_sterics lambda_electrostatics batch atom_features.
Proof.
  assert (Hg : forall r cap,
             radius_graph (track direction (translate v positions)) r batch
                          false cap
             = radius_graph (track direction positions) r batch false cap).
  { intros r cap. apply radius_graph_ext.
    - rewrite !length_track, length_translate. reflexivity.
    - intros s t Hs Ht. rewrite length_track, length_translate in Hs, Ht.
      apply euclid2_translate; assumption.
    - reflexivity. }
  assert (Hd : forall r cap,
             edge_distances (track direction (translate v positions))
               (radius_graph (track direction positions) r batch false cap)
             = edge_distances (track direction positions)
                 (radius_graph (track direction positions) r batch false
                    cap)).
  { intros r cap. apply edge_distances_ext. intros s t Hin.
    apply in_radius_graph_range in Hin as [Hs Ht].
    rewrite length_track in Hs, Ht.
    apply distancer_translate; assumption. }
  unfold GNN3.energies_with, GNN3.edge_index, GNN3.gnn_edge_index.
  cbv zeta. rewrite !Hg, !Hd, !length_track, length_translate.
  reflexivity.
Qed.

Lemma forward_with_ext (under_no_grad under_no_grad' : D -> D)
  (self self' : GNN3.t) (positions positions' : list (R * R * R))
  (lambda_sterics lambda_electrostatics : list R) (retrieve_forces : bool)
  (batch batch' : option (list nat))
  (atom_features atom_features' : option (list (list R))) :
  length positions = length positions' ->
  (forall direction,
     GNN3.energies_with under_no_grad self (track direction positions)
       lambda_sterics lambda_electrostatics batch atom_features
     = GNN3.energies_with under_no_grad' self' (track direction positions')
         lambda_sterics lambda_electrostatics batch' atom_features') ->
  GNN3.forward_with under_no_grad self positions lambda_sterics
    lambda_electrostatics retrieve_forces batch atom_features
  = GNN3.forward_with under_no_grad' self' positions' lambda_sterics
      lambda_electrostatics retrieve_forces batch' atom_features'.
Proof.
  intros Hl H. unfold GNN3.forward_with. rewrite (H None), Hl.
  destruct (GNN3.energies_with under_no_grad' self' (track None positions')
              lambda_sterics lambda_electrostatics batch' atom_features')
    as [energies|e]; [|reflexivity].
  cbn [bind]. destruct retrieve_forces; [|reflexivity].
  do 3 f_equal. unfold rows. rewrite !map_map. apply map_ext. intros i.
  rewrite !H. reflexivity.
Qed.

(** X12.  Energy and forces do not change when all atoms are moved by the
    same vector: the positions enter only through the two neighbour graphs
    and the edge lengths. *)
Theorem forward_translation_invariant (self : GNN3.t) (v : R * R * R)
  (positions : list (R * R * R))
  (lambda_sterics lambda_electrostatics : list R) (retrieve_forces : bool)
  (batch : option (list nat)) (atom_features : option (list (list R))) :
  GNN3.forward self (translate v positions) lambda_sterics
    lambda_electrostatics retrieve_forces batch atom_features
  = GNN3.forward self positions lambda_sterics lambda_electrostatics
      retrieve_forces batch atom_features.
Proof.
  unfold GNN3.forward. apply forward_with_ext.
  - apply length_translate.
  - intros direction. apply energies_with_translate.
Qed.

(** ** The defaults of a model with stored parameters *)

Lemma same_batch_zeros (n s t : nat) :
  same_batch (Some (repeat 0%nat n)) s t = true.
Proof.
  unfold same_batch. rewrite !nth_repeat. reflexivity.
Qed.

(** X13.  With parameters stored in the model, one row per position, a
    call without a batch vector is the call with the batch vector of
    zeros, and [atom_features] is not looked at. *)
Theorem forward_stored_params_defaults (self : GNN3.t)
  (gp : list (list R)) (positions : list (R * R * R))
  (lambda_sterics lambda_electrostatics : list R) (retrieve_forces : bool)
  (atom_features atom_features' : option (list (list R))) :
  GNN3.gnn_params self = Some gp ->
  length gp = length positions ->
  GNN3.forward self positions lambda_sterics lambda_electrostatics
    retrieve_forces None atom_features
  = GNN3.forward self positions lambda_sterics lambda_electrostatics
      retrieve_forces (Some (repeat 0%nat (length positions)))
      atom_features'.
Proof.
  intros Hgp Hlen. unfold GNN3.forward.
  apply forward_with_ext; [reflexivity|].
  intros direction.
  assert (Hg : forall r cap,
             radius_graph (track direction positions) r None false cap
             = radius_graph (track direction positions) r
                 (Some (repeat 0%nat (length positions))) false cap).
  { intros r cap. apply radius_graph_ext; [reflexivity| reflexivity |].
    intros s t. rewrite same_batch_zeros. reflexivity. }
  unfold GNN3.energies_with, GNN3.edge_index, GNN3.gnn_edge_index.
  cbv zeta. rewrite !Hg.
  unfold GNN3.inputs, GNN3.default_batch, GNN3.node_features.
  rewrite Hgp, Hlen. reflexivity.
Qed.

Lemma forward_stored_params_defaults_witness :
  GNN3.forward (with_gnn_params Demo.model Demo.atom_features)
    Demo.positions [1] [1] true None None
  = GNN3.forward (with_gnn_params Demo.model Demo.atom_features)
      Demo.positions [1] [1] true
      (Some (repeat 0%nat (length Demo.positions)))
      (Some [[0]]).
Proof.
  apply (forward_stored_params_defaults
           (with_gnn_params Demo.model Demo.atom_features)
           Demo.atom_features).
  - reflexivity.
  - reflexivity.
Defined.

(** ** The scale learned from lambda *)

Lemma nth_scales (p : ff_params) (lambda : list R) (i : nat) :
  (i < length lambda)%nat ->
  nth i (scales p lambda) Dual.zero
  = (ff p (Dual.const (nth i lambda 0)) * Dual.const (nth i lambda 0))%D.
Proof.
  intros Hi. unfold scales.
  rewrite (nth_indep _ Dual.zero (ff p (Dual.const 0) * Dual.const 0)%D)
    by (rewrite length_map; exact Hi).
  rewrite (map_nth (fun l => (ff p (Dual.const l) * Dual.const l)%D)).
  reflexivity.
Qed.

(** X14.  The scale the networks on lambda give never exceeds lambda in
    size and never has the other sign: it is lambda times a factor strictly
    between zero and one. *)
Theorem lambda_scale_bounded (p : ff_params) (lambda : list R) (i : nat) :
  (i < length lambda)%nat ->
  exists factor,
    0 < factor < 1 /\
    val (nth i (scales p lambda) Dual.zero) = factor * nth i lambda 0 /\
    Rabs (val (nth i (scales p lambda) Dual.zero)) <= Rabs (nth i lambda 0).
Proof.
  intros Hi. rewrite nth_scales by exact Hi.
  set (l := nth i lambda 0).
  assert (Hv : val (ff p (Dual.const l) * Dual.const l)%D
               = val (ff p (Dual.const l)) * l) by reflexivity.
  rewrite Hv. clear Hv.
  set (s := val (ff p (Dual.const l))).
  assert (Hs : 0 < s < 1).
  { unfold s, ff, Dual.sigmoid. cbn [val]. apply sigmoidR_range. }
  exists s. split; [exact Hs|]. split; [reflexivity|].
  rewrite Rabs_mult. rewrite (Rabs_pos_eq s) by lra.
  pose proof (Rabs_pos l) as Hl. nra.
Qed.

Lemma lambda_scale_bounded_witness :
  exists factor,
    0 < factor < 1 /\
    val (nth 1 (scales (mk_ff [(1, 0, 1)] 0) [0.5; 1]) Dual.zero)
    = factor * nth 1 [0.5; 1] 0 /\
    Rabs (val (nth 1 (scales (mk_ff [(1, 0, 1)] 0) [0.5; 1]) Dual.zero))
    <= Rabs (nth 1 [0.5; 1] 0).
Proof.
  apply (lambda_scale_bounded (mk_ff [(1, 0, 1)] 0) [0.5; 1] 1).
  simpl. lia.
Defined.

(** ** What [torch.no_grad()] does to energy and forces *)

Lemma val_sum (l : list D) :
  val (Dual.sum l) = fold_right Rplus 0 (map val l).
Proof.
  induction l as [|d l IH]; simpl; [reflexivity|]. rewrite IH. reflexivity.
Qed.

Lemma tan_sum (l : list D) :
  tan (Dual.sum l) = fold_right Rplus 0 (map tan l).
Proof.
  induction l as [|d l IH]; simpl; [reflexivity|]. rewrite IH. reflexivity.
Qed.

Lemma tan_sum_zero (l : list D) :
  Forall (fun d => tan d = 0) l -> tan (Dual.sum l) = 0.
Proof.
  induction 1 as [|d l Hd _ IH]; simpl.
  - reflexivity.
  - rewrite Hd, IH. lra.
Qed.

Lemma tan_ff (p : ff_params) (l : R) : tan (ff p (Dual.const l)) = 0.
Proof.
  unfold ff. unfold Dual.sigmoid. cbn [tan].
  change (tan (Dual.sum
                 (map (fun u => let '(w1, b1, w2) := u in
                                (Dual.silu (Dual.const w1 * Dual.const l
                                            + Dual.const b1)
                                 * Dual.const w2)%D)
                      (hidden_units p))
               + Dual.const (out_bias p))%D)
    with (tan (Dual.sum
                 (map (fun u => let '(w1, b1, w2) := u in
                                (Dual.silu (Dual.const w1 * Dual.const l
                                            + Dual.const b1)
                                 * Dual.const w2)%D)
                      (hidden_units p))) + 0).
  rewrite tan_sum_zero.
  - ring.
  - apply Forall_forall. intros d Hd.
    apply in_map_iff in Hd as ([[w1 b1] w2] & <- & _).
    cbn. ring.
Qed.

Lemma tan_scales (p : ff_params) (lambda : list R) :
  Forall (fun s => tan s = 0) (scales p lambda).
Proof.
  unfold scales. apply Forall_forall. intros s Hin.
  apply in_map_iff in Hin as (l & <- & _).
  unfold Dual.mul. cbn [tan]. rewrite tan_ff.
  unfold Dual.const. cbn [tan val]. ring.
Qed.

Lemma gather_Forall (P : D -> Prop) (scale : list D) (batch : list nat)
  (l : list D) :
  Forall P scale -> gather scale batch = Ok l -> Forall P l.
Proof.
  intros HP. revert l. induction batch as [|b batch IH]; simpl; intros l H.
  - injection H as <-. constructor.
  - destruct (nth_error scale b) as [v|] eqn:Hv; [|discriminate].
    destruct (gather scale batch) as [rest|] eqn:G; [|discriminate].
    simpl in H. injection H as <-. constructor.
    + rewrite Forall_forall in HP. apply HP.
      apply (nth_error_In _ _ Hv).
    + apply IH. reflexivity.
Qed.

Lemma inputs_tan (self : GNN3.t) (num_positions : nat)
  (lambda_sterics lambda_electrostatics : list R)
  (batch : option (list nat)) (atom_features : option (list (list R)))
  (x : list (list D)) (l_sterics l_electrostatics : list D) :
  GNN3.inputs self num_positions lambda_sterics lambda_electrostatics
              batch atom_features = Ok (x, l_sterics, l_electrostatics) ->
  Forall (fun s => tan s = 0) l_electrostatics.
Proof.
  unfold GNN3.inputs.
  destruct (GNN3.default_batch self batch) as [b|]; [|discriminate].
  cbn [bind].
  destruct (GNN3.node_features self num_positions lambda_sterics
              lambda_electrostatics atom_features) as [x0|]; [|discriminate].
  cbn [bind].
  destruct (gather (scales (GNN3.electrostatics_ff self)
                      lambda_electrostatics) b) as [le|] eqn:Ge;
    [|discriminate].
  destruct (gather (scales (GNN3.sterics_ff self) lambda_sterics) b)
    as [ls|] eqn:Gs; [|discriminate].
  cbn [bind].
  destruct (negb (forallb (fun row => (2 <=? length row)%nat) x0));
    [discriminate|].
  destruct (negb (length b =? length x0)%nat); [discriminate|].
  intros H. injection H as <- <- <-.
  apply (gather_Forall _ _ _ _ (tan_scales _ _) Ge).
Qed.

Lemma nth_tan_zero (l : list D) (i : nat) :
  Forall (fun s => tan s = 0) l -> tan (nth i l Dual.zero) = 0.
Proof.
  intros H. destruct (Nat.lt_ge_cases i (length l)) as [Hi|Hi].
  - rewrite Forall_forall in H. apply H. apply nth_In. exact Hi.
  - rewrite nth_overflow by exact Hi. reflexivity.
Qed.

Lemma val_nth_no_grad (l : list D) (i : nat) :
  val (nth i (map Dual.no_grad l) Dual.zero) = val (nth i l Dual.zero).
Proof.
  pose proof (map_nth Dual.no_grad l Dual.zero i) as H.
  change (Dual.no_grad Dual.zero) with Dual.zero in H.
  rewrite H. reflexivity.
Qed.

Lemma val_mix (e e' le sa ls : D) :
  val e = val e' -> val (e * le + sa * ls)%D = val (e' * le + sa * ls)%D.
Proof. intros H. cbn. rewrite H. reflexivity. Qed.

Lemma tan_mix (e e' le sa ls : D) :
  tan e = 0 -> tan e' = 0 -> tan le = 0 ->
  tan (e * le + sa * ls)%D = tan (e' * le + sa * ls)%D.
Proof. intros H H' Hl. cbn. rewrite H, H', Hl. ring. Qed.

Lemma val_sum_rows (n : nat) (F G : nat -> D) :
  (forall i, val (F i) = val (G i)) ->
  val (Dual.sum (rows n F)) = val (Dual.sum (rows n G)).
Proof.
  intros H. rewrite !val_sum. f_equal.
  unfold rows. rewrite !map_map. apply map_ext. exact H.
Qed.

Lemma tan_sum_rows (n : nat) (F G : nat -> D) :
  (forall i, tan (F i) = tan (G i)) ->
  tan (Dual.sum (rows n F)) = tan (Dual.sum (rows n G)).
Proof.
  intros H. rewrite !tan_sum. f_equal.
  unfold rows. rewrite !map_map. apply map_ext. exact H.
Qed.

Lemma atom_energies_value (self : GNN3.t)
  (edge_index : list edge) (edge_attributes : list D)
  (gnn_edge_index : list edge) (gnn_edge_attributes : list D)
  (x : list (list D)) (l_sterics l_electrostatics : list D) :
  val (Dual.sum (GNN3.atom_energies Dual.no_grad self edge_index
                   edge_attributes gnn_edge_index gnn_edge_attributes x
                   l_sterics l_electrostatics))
  = val (Dual.sum (GNN3.atom_energies (fun e => e) self edge_index
                     edge_attributes gnn_edge_index gnn_edge_attributes x
                     l_sterics l_electrostatics)).
Proof.
  unfold GNN3.atom_energies. cbv zeta.
  apply val_sum_rows. intros i. apply val_mix.
  rewrite val_nth_no_grad, map_id. reflexivity.
Qed.

Lemma atom_energies_gradient (self : GNN3.t)
  (edge_index : list edge) (edge_attributes : list D)
  (gnn_edge_index : list edge) (gnn_edge_attributes : list D)
  (x : list (list D)) (l_sterics l_electrostatics : list D) :
  Forall (fun s => tan s = 0) l_electrostatics ->
  tan (Dual.sum (GNN3.atom_energies Dual.no_grad self edge_index
                   edge_attributes gnn_edge_index gnn_edge_attributes x
                   l_sterics l_electrostatics))
  = tan (Dual.sum (GNN3.atom_energies (fun e => e)
                     (with_calculate_energies self no_GB_energies)
                     edge_index edge_attributes gnn_edge_index
                     gnn_edge_attributes x l_sterics l_electrostatics)).
Proof.
  intros He. unfold GNN3.atom_energies. cbv zeta.
  apply tan_sum_rows. intros i. apply tan_mix.
  - apply nth_tan_zero. apply Forall_forall. intros d Hd.
    apply in_map_iff in Hd as (d' & <- & _). reflexivity.
  - apply nth_tan_zero. apply Forall_forall. intros d Hd.
    rewrite map_id in Hd. apply in_map_iff in Hd as (j & <- & _).
    reflexivity.
  - apply nth_tan_zero. exact He.
Qed.

Lemma energies_with_cases (under_no_grad : D -> D) (self : GNN3.t)
  (positions : list vec3) (lambda_sterics lambda_electrostatics : list R)
  (batch : option (list nat)) (atom_features : option (list (list R))) :
  GNN3.energies_with under_no_grad self positions lambda_sterics
    lambda_electrostatics batch atom_features
  = match GNN3.inputs self (length positions) lambda_sterics
            lambda_electrostatics batch atom_features with
    | Ok (x, l_sterics, l_electrostatics) =>
        Ok (GNN3.atom_energies under_no_grad self
              (GNN3.edge_index self positions batch)
              (edge_distances positions
                 (GNN3.edge_index self positions batch))
              (GNN3.gnn_edge_index self positions batch)
              (edge_distances positions
                 (GNN3.gnn_edge_index self positions batch))
              x l_sterics l_electrostatics)
    | Raise e => Raise e
    end.
Proof.
  unfold GNN3.energies_with.
  destruct (GNN3.inputs self (length positions) lambda_sterics
              lambda_electrostatics batch atom_features)
    as [[[x ls] le]|e]; reflexivity.
Qed.

Lemma derivative_without_GB (self : GNN3.t) (positions : list vec3)
  (lambda_sterics lambda_electrostatics : list R)
  (batch : option (list nat)) (atom_features : option (list (list R))) :
  match GNN3.energies_with Dual.no_grad self positions lambda_sterics
          lambda_electrostatics batch atom_features with
  | Ok e => tan (Dual.sum e)
  | Raise _ => 0
  end
  = match GNN3.energies_with (fun e => e)
            (with_calculate_energies self no_GB_energies) positions
            lambda_sterics lambda_electrostatics batch atom_features with
    | Ok e => tan (Dual.sum e)
    | Raise _ => 0
    end.
Proof.
  rewrite !energies_with_cases.
  change (GNN3.inputs (with_calculate_energies self no_GB_energies))
    with (GNN3.inputs self).
  destruct (GNN3.inputs self (length positions) lambda_sterics
              lambda_electrostatics batch atom_features)
    as [[[x ls] le]|e] eqn:Ei; [|reflexivity].
  apply inputs_tan in Ei.
  apply (atom_energies_gradient self _ _ _ _ _ _ _ Ei).
Qed.

(** X15.  The energy [forward] returns is the energy of the evaluation
    that keeps the GB energies in the graph; the forces it returns are
    those of the model without GB energies: the negative gradient of the
    surface-area part alone. *)
Theorem forward_energy_full_forces_SA_only (self : GNN3.t)
  (positions : list (R * R * R))
  (lambda_sterics lambda_electrostatics : list R) (retrieve_forces : bool)
  (batch : option (list nat)) (atom_features : option (list (list R))) :
  GNN3.returned_energy
    (GNN3.forward self positions lambda_sterics lambda_electrostatics
       retrieve_forces batch atom_features)
  = GNN3.returned_energy
      (GNN3.forward_connected self positions lambda_sterics
         lambda_electrostatics retrieve_forces batch atom_features)
  /\
  returned_forces
    (GNN3.forward self positions lambda_sterics lambda_electrostatics
       retrieve_forces batch atom_features)
  = returned_forces
      (GNN3.forward_connected (with_calculate_energies self no_GB_energies)
         positions lambda_sterics lambda_electrostatics retrieve_forces
         batch atom_features).
Proof.
  unfold GNN3.forward, GNN3.forward_connected, GNN3.forward_with.
  rewrite !(energies_with_cases _ _ (track None positions)).
  change (GNN3.inputs (with_calculate_energies self no_GB_energies))
    with (GNN3.inputs self).
  destruct (GNN3.inputs self (length (track None positions)) lambda_sterics
              lambda_electrostatics batch atom_features)
    as [[[x ls] le]|e] eqn:Ei; [|split; reflexivity].
  cbn [bind]. destruct retrieve_forces; [|split; reflexivity].
  cbn [GNN3.returned_energy returned_forces]. split.
  - f_equal. apply atom_energies_value.
  - f_equal. f_equal. unfold rows. apply map_ext. intros i.
    rewrite !derivative_without_GB. reflexivity.
Qed.

(** ** [JitGNN.forward] *)

(** X16.  [JitGNN.forward] with [vaccum] false never returns: the parent
    returns [None], which cannot be unpacked, so on well-formed inputs the
    call raises a [TypeError].  With [vaccum] true it returns exactly the
    pair the parent returns. *)
Theorem jitgnn_forward_needs_forces (self : GNN3.t)
  (positions : list (R * R * R))
  (lambda_sterics lambda_electrostatics : list R)
  (batch : option (list nat)) (atom_features : option (list (list R))) :
  raises (JitGNN.forward self positions lambda_sterics
            lambda_electrostatics false batch atom_features) /\
  (well_formed self (length positions) lambda_sterics lambda_electrostatics
               batch atom_features = true ->
   JitGNN.forward self positions lambda_sterics lambda_electrostatics false
     batch atom_features
   = Raise (TypeError "cannot unpack non-iterable NoneType object")) /\
  (forall energy forces,
     JitGNN.forward self positions lambda_sterics lambda_electrostatics true
       batch atom_features = Ok (energy, forces)
     <-> GNN3.forward self positions lambda_sterics lambda_electrostatics
           true batch atom_features = Ok (Some (energy, forces))).
Proof.
  unfold JitGNN.forward, GNN3.forward.
  split; [|split].
  - unfold GNN3.forward_with.
    destruct (GNN3.energies_with Dual.no_grad self (track None positions)
                lambda_sterics lambda_electrostatics batch atom_features)
      as [e|e]; cbn [bind]; eexists; reflexivity.
  - intros H.
    destruct (forward_with_well_formed Dual.no_grad self positions
                lambda_sterics lambda_electrostatics false batch
                atom_features H) as [forces Hf].
    rewrite Hf. reflexivity.
  - intros energy forces. unfold GNN3.forward_with.
    destruct (GNN3.energies_with Dual.no_grad self (track None positions)
                lambda_sterics lambda_electrostatics batch atom_features)
      as [e|e]; cbn [bind].
    + split; intros H; injection H as <- <-; reflexivity.
    + split; intros H; discriminate H.
Qed.

Lemma jitgnn_forward_needs_forces_witness :
  JitGNN.forward Demo.model Demo.positions [1] [1] false (Some Demo.batch)
    (Some Demo.atom_features)
  = Raise (TypeError "cannot unpack non-iterable NoneType object").
Proof.
  apply (proj1 (proj2 (jitgnn_forward_needs_forces Demo.model
                         Demo.positions [1] [1] (Some Demo.batch)
                         (Some Demo.atom_features)))).
  reflexivity.
Defined.

(** ** The replicas of the replica model *)

Lemma setslice_block (pre : list nat) (n k rest : nat) :
  length pre = (k * n)%nat ->
  setslice (pre ++ repeat 0%nat (n + rest)) (k * n) ((k + 1) * n) k
  = (pre ++ repeat k n) ++ repeat 0%nat rest.
Proof.
  intros H. unfold setslice.
  replace ((k + 1) * n)%nat with (length pre + n)%nat by (rewrite H; lia).
  rewrite <- H.
  rewrite length_app, repeat_length.
  replace (Nat.min (length pre + n) (length pre + (n + rest)))
    with (length pre + n)%nat by lia.
  replace (length pre + n - length pre)%nat with n by lia.
  replace (Nat.max (length pre) (length pre + n))
    with (length pre + n)%nat by lia.
  rewrite firstn_app, firstn_all, Nat.sub_diag, firstn_O, app_nil_r.
  rewrite skipn_app, skipn_all2 by lia.
  replace (length pre + n - length pre)%nat with n by lia.
  rewrite repeat_app, skipn_app, skipn_all2 by (rewrite repeat_length; lia).
  rewrite repeat_length, Nat.sub_diag, skipn_O.
  cbn [app]. rewrite <- app_assoc. reflexivity.
Qed.

Lemma length_blocks (n k : nat) :
  length (flat_map (fun i => repeat i n) (seq 0 k)) = (k * n)%nat.
Proof.
  induction k as [|k IH]; [reflexivity|].
  rewrite seq_S, flat_map_app, length_app, IH. cbn [flat_map].
  rewrite app_nil_r, repeat_length. lia.
Qed.

Lemma batch_loop (n : nat) :
  forall m k rest,
    fold_left (fun b i => setslice b (i * n) ((i + 1) * n) i) (seq k m)
      (flat_map (fun i => repeat i n) (seq 0 k)
       ++ repeat 0%nat (m * n + rest))
    = flat_map (fun i => repeat i n) (seq 0 (k + m)) ++ repeat 0%nat rest.
Proof.
  induction m as [|m IH]; intros k rest.
  - rewrite Nat.add_0_r. reflexivity.
  - cbn [seq fold_left].
    replace (S m * n + rest)%nat with (n + (m * n + rest))%nat by lia.
    rewrite setslice_block by apply length_blocks.
    replace (flat_map (fun i => repeat i n) (seq 0 k) ++ repeat k n)
      with (flat_map (fun i => repeat i n) (seq 0 (S k))).
    + rewrite IH. replace (S k + m)%nat with (k + S m)%nat by lia.
      reflexivity.
    + rewrite seq_S, flat_map_app. cbn [flat_map]. rewrite app_nil_r.
      reflexivity.
Qed.

Lemma batch_blocks (self : RunMultiple.t) :
  _batch self
  = flat_map (fun i => repeat i (length (RunMultiple._gbparameters self)))
             (seq 0 (RunMultiple._num_reps self)).
Proof.
  unfold _batch. cbv zeta.
  pose proof (batch_loop (length (RunMultiple._gbparameters self))
                (RunMultiple._num_reps self) 0 0) as H.
  cbn [seq flat_map app] in H. rewrite Nat.add_0_r in H.
  rewrite H. cbn [repeat]. rewrite app_nil_r. reflexivity.
Qed.

Lemma nth_blocks (n k j : nat) :
  (j < k * n)%nat ->
  nth j (flat_map (fun i => repeat i n) (seq 0 k)) 0%nat = (j / n)%nat.
Proof.
  induction k as [|k IH]; intros H; [lia|].
  rewrite seq_S, flat_map_app. cbn [flat_map]. rewrite app_nil_r.
  destruct (Nat.lt_ge_cases j (k * n)) as [Hj|Hj].
  - rewrite app_nth1 by (rewrite length_blocks; exact Hj). apply IH. exact Hj.
  - rewrite app_nth2 by (rewrite length_blocks; exact Hj).
    rewrite length_blocks, nth_repeat_lt by lia.
    apply (Nat.div_unique j n k (j - k * n)); lia.
Qed.

Lemma length_concat_repeat {A : Type} (l : list A) (k : nat) :
  length (concat (repeat l k)) = (k * length l)%nat.
Proof.
  induction k as [|k IH]; [reflexivity|].
  cbn [repeat concat]. rewrite length_app, IH. lia.
Qed.

Lemma nth_concat_repeat {A : Type} (l : list A) (d : A) (k : nat) :
  forall j, (j < k * length l)%nat ->
            nth j (concat (repeat l k)) d = nth (j mod length l) l d.
Proof.
  induction k as [|k IH]; intros j H; [lia|].
  cbn [repeat concat].
  destruct (Nat.lt_ge_cases j (length l)) as [Hj|Hj].
  - rewrite app_nth1 by exact Hj. rewrite Nat.mod_small by exact Hj.
    reflexivity.
  - rewrite app_nth2 by exact Hj. rewrite IH by lia.
    replace j with (j - length l + 1 * length l)%nat at 2 by lia.
    rewrite Nat.Div0.mod_add. reflexivity.
Qed.

(** X17.  [set_num_reps] lays the replicas out one after the other: with
    [n] parameter rows, [_batch] and [_batch_gbparameters] have
    [num_reps * n] entries, atom [j] belongs to replica [j // n] and
    carries the parameters of atom [j % n]. *)
Theorem replica_layout (self : RunMultiple.t) (j : nat) :
  let n := length (RunMultiple._gbparameters self) in
  let num_reps := RunMultiple._num_reps self in
  length (_batch self) = (num_reps * n)%nat /\
  length (RunMultiple._batch_gbparameters self) = (num_reps * n)%nat /\
  ((j < num_reps * n)%nat ->
   nth j (_batch self) 0%nat = (j / n)%nat /\
   nth j (RunMultiple._batch_gbparameters self) []
   = nth (j mod n) (RunMultiple._gbparameters self) []).
Proof.
  intros n num_reps. rewrite batch_blocks.
  unfold RunMultiple._batch_gbparameters.
  split; [apply length_blocks|].
  split; [apply length_concat_repeat|].
  intros Hj. split.
  - apply nth_blocks. exact Hj.
  - apply nth_concat_repeat. exact Hj.
Qed.

Lemma replica_layout_witness :
  nth 3 (_batch (RunMultiple.set_num_reps two_replicas 3)) 0%nat
  = (3 / 2)%nat /\
  nth 3 (RunMultiple._batch_gbparameters
           (RunMultiple.set_num_reps two_replicas 3)) []
  = nth (3 mod 2)
        (RunMultiple._gbparameters
           (RunMultiple.set_num_reps two_replicas 3)) [].
Proof.
  apply (proj2 (proj2 (replica_layout
                         (RunMultiple.set_num_reps two_replicas 3) 3))).
  simpl. lia.
Defined.

Lemma in_edge_index_iff (self : RunMultiple.t) (s t : nat) :
  In (s, t) (replica_pairs (length (RunMultiple._gbparameters self))
                           (RunMultiple._num_reps self))
  <-> s <> t /\
      (s < RunMultiple._num_reps self
           * length (RunMultiple._gbparameters self))%nat /\
      (t < RunMultiple._num_reps self
           * length (RunMultiple._gbparameters self))%nat /\
      nth s (_batch self) 0%nat = nth t (_batch self) 0%nat.
Proof.
  rewrite batch_blocks, in_replica_pairs.
  set (n := length (RunMultiple._gbparameters self)).
  set (reps := RunMultiple._num_reps self).
  split.
  - intros (rep & node & con & Hrep & Hnode & Hcon & Hne & -> & ->).
    assert (Hs : (rep * n + node < reps * n)%nat) by nia.
    assert (Ht : (rep * n + con < reps * n)%nat) by nia.
    split; [lia|]. split; [exact Hs|]. split; [exact Ht|].
    rewrite !nth_blocks by assumption.
    rewrite <- (Nat.div_unique (rep * n + node) n rep node) by lia.
    rewrite <- (Nat.div_unique (rep * n + con) n rep con) by lia.
    reflexivity.
  - intros (Hne & Hs & Ht & Hb).
    rewrite !nth_blocks in Hb by assumption.
    assert (Hn : n <> 0%nat) by (intros E; rewrite E in Hs; lia).
    pose proof (Nat.div_mod_eq s n) as Es.
    pose proof (Nat.div_mod_eq t n) as Et.
    pose proof (Nat.mod_upper_bound s n Hn) as Hsm.
    pose proof (Nat.mod_upper_bound t n Hn) as Htm.
    exists (s / n)%nat, (s mod n)%nat, (t mod n)%nat.
    split; [apply Nat.Div0.div_lt_upper_bound; lia|].
    split; [exact Hsm|]. split; [exact Htm|].
    split; [intros E; apply Hne; rewrite Es, Et, Hb, E; reflexivity|].
    split; [lia|]. rewrite Hb. lia.
Qed.

Lemma init_fields (fraction : R) (parameters : list (list R))
  (num_reps : nat)
  (aggregate_information :
     list (list D) -> list edge -> list D -> nat -> D * D)
  (interaction1 interaction2 :
     list edge -> list (list D) -> list D -> nat -> list D)
  (interaction3 : list edge -> list (list D) -> list D -> nat -> D * D)
  (calculate_energies : list (D * D) -> list edge -> list D -> nat -> D)
  (self : RunMultiple.t) :
  RunMultiple.__init__ fraction parameters num_reps aggregate_information
    interaction1 interaction2 interaction3 calculate_energies = Ok self ->
  RunMultiple._edge_index self = replica_pairs (length parameters) num_reps
  /\ RunMultiple._num_reps self = num_reps
  /\ RunMultiple._gbparameters self = parameters.
Proof.
  unfold RunMultiple.__init__. rewrite build_edge_idx_pairs. cbn [bind].
  rewrite columns_written. intros H. injection H as <-.
  split; [reflexivity|]. split; reflexivity.
Qed.

(** X18.  In the object [__init__] builds, the stored edge index agrees
    with the batch vector: two atoms are joined exactly when they are
    different atoms of the same replica.  [set_num_reps] does not build
    the index again: after [set_num_reps(k)] the index is still that of
    the replicas of construction while [_batch] has [k * n] entries, and
    for a smaller [k] (and at least two atoms) the index names atoms that
    [_batch] does not have. *)
Theorem edge_index_joins_replica (fraction : R)
  (parameters : list (list R)) (num_reps : nat)
  (aggregate_information :
     list (list D) -> list edge -> list D -> nat -> D * D)
  (interaction1 interaction2 :
     list edge -> list (list D) -> list D -> nat -> list D)
  (interaction3 : list edge -> list (list D) -> list D -> nat -> D * D)
  (calculate_energies : list (D * D) -> list edge -> list D -> nat -> D)
  (self : RunMultiple.t) :
  RunMultiple.__init__ fraction parameters num_reps aggregate_information
    interaction1 interaction2 interaction3 calculate_energies = Ok self ->
  (forall s t,
     In (s, t) (RunMultiple._edge_index self) <->
     s <> t /\
     (s < length (_batch self))%nat /\ (t < length (_batch self))%nat /\
     nth s (_batch self) 0%nat = nth t (_batch self) 0%nat) /\
  (forall k,
     RunMultiple._edge_index (RunMultiple.set_num_reps self k)
     = RunMultiple._edge_index self /\
     length (_batch (RunMultiple.set_num_reps self k))
     = (k * length parameters)%nat) /\
  (forall k,
     (k < num_reps)%nat -> (2 <= length parameters)%nat ->
     exists s t,
       In (s, t) (RunMultiple._edge_index (RunMultiple.set_num_reps self k))
       /\ (length (_batch (RunMultiple.set_num_reps self k)) <= s)%nat).
Proof.
  intros Hinit. apply init_fields in Hinit as (Hei & Hreps & Hgb).
  assert (Hlen : forall k,
             length (_batch (RunMultiple.set_num_reps self k))
             = (k * length parameters)%nat).
  { intros k. rewrite batch_blocks. cbn [RunMultiple.set_num_reps
      RunMultiple._gbparameters RunMultiple._num_reps].
    rewrite Hgb. apply length_blocks. }
  split; [|split].
  - intros s t. rewrite Hei, <- Hgb, <- Hreps. rewrite in_edge_index_iff.
    rewrite batch_blocks, length_blocks. reflexivity.
  - intros k. split; [reflexivity | apply Hlen].
  - intros k Hk Hn.
    exists ((num_reps - 1) * length parameters + 0)%nat,
           ((num_reps - 1) * length parameters + 1)%nat.
    split.
    + cbn [RunMultiple.set_num_reps RunMultiple._edge_index].
      rewrite Hei. apply in_replica_pairs.
      exists (num_reps - 1)%nat, 0%nat, 1%nat.
      split; [lia|]. split; [lia|]. split; [lia|]. split; [lia|].
      split; reflexivity.
    + rewrite Hlen. nia.
Qed.

Lemma edge_index_joins_replica_witness :
  In (0%nat, 1%nat) (RunMultiple._edge_index two_replicas) <->
  0%nat <> 1%nat /\
  (0 < length (_batch two_replicas))%nat /\
  (1 < length (_batch two_replicas))%nat /\
  nth 0 (_batch two_replicas) 0%nat = nth 1 (_batch two_replicas) 0%nat.
Proof.
  pose proof (edge_index_joins_replica 0.5 [[1; 0.15]; [-1; 0.17]] 2
                (fun _ _ _ _ => (Dual.zero, Dual.zero))
                (fun _ _ _ _ => []) (fun _ _ _ _ => [])
                (fun _ _ _ _ => (Dual.zero, Dual.zero))
                (fun _ _ _ _ => Dual.zero) two_replicas) as H.
  destruct H as [H _]; [reflexivity|].
  apply (H 0%nat 1%nat).
Defined.

(** ** Edge attributes and distances *)

Lemma norm_triangle (x y z a b c : R) :
  sqrt ((x + a) * (x + a) + (y + b) * (y + b) + (z + c) * (z + c))
  <= sqrt (x * x + y * y + z * z) + sqrt (a * a + b * b + c * c).
Proof.
  set (S := x * x + y * y + z * z).
  set (T := a * a + b * b + c * c).
  set (P := x * a + y * b + z * c).
  assert (Hsq : forall u v w, 0 <= u * u + v * v + w * w).
  { intros u v w. pose proof (Rle_0_sqr u). pose proof (Rle_0_sqr v).
    pose proof (Rle_0_sqr w). unfold Rsqr in *. lra. }
  assert (HS : 0 <= S) by apply Hsq.
  assert (HT : 0 <= T) by apply Hsq.
  assert (HL : 0 <= (x + a) * (x + a) + (y + b) * (y + b)
                    + (z + c) * (z + c)) by apply Hsq.
  assert (HP : P <= sqrt S * sqrt T).
  { rewrite <- sqrt_mult by assumption.
    apply Rle_trans with (Rabs P); [apply Rle_abs|].
    rewrite <- sqrt_Rsqr_abs. apply sqrt_le_1_alt.
    unfold Rsqr, P, S, T.
    pose proof (Hsq (x * b - y * a) (x * c - z * a) (y * c - z * b)) as H.
    replace ((x * x + y * y + z * z) * (a * a + b * b + c * c))
      with ((x * a + y * b + z * c) * (x * a + y * b + z * c)
            + ((x * b - y * a) * (x * b - y * a)
               + (x * c - z * a) * (x * c - z * a)
               + (y * c - z * b) * (y * c - z * b))) by ring.
    lra. }
  pose proof (sqrt_pos S) as HsS. pose proof (sqrt_pos T) as HsT.
  apply Rsqr_incr_0_var; [|lra].
  rewrite Rsqr_sqrt by exact HL.
  unfold Rsqr.
  replace ((sqrt S + sqrt T) * (sqrt S + sqrt T))
    with (sqrt S * sqrt S + sqrt T * sqrt T + 2 * (sqrt S * sqrt T)) by ring.
  rewrite !sqrt_sqrt by assumption.
  unfold S, T, P in *. lra.
Qed.

Lemma val_distancer (a b : vec3) :
  val (distancer a b)
  = let '(ax, ay, az) := a in
    let '(bx, b_y, bz) := b in
    sqrt ((val ax - val bx + 1e-6) * (val ax - val bx + 1e-6)
          + (val ay - val b_y + 1e-6) * (val ay - val b_y + 1e-6)
          + (val az - val bz + 1e-6) * (val az - val bz + 1e-6)).
Proof.
  destruct a as [[ax ay] az], b as [[bx b_y] bz]. reflexivity.
Qed.

Lemma sqrt_eps : sqrt (1e-6 * 1e-6 + 1e-6 * 1e-6 + 1e-6 * 1e-6)
                 = sqrt 3 * 1e-6.
Proof.
  replace (1e-6 * 1e-6 + 1e-6 * 1e-6 + 1e-6 * 1e-6)
    with (3 * (1e-6 * 1e-6)) by ring.
  rewrite sqrt_mult by lra. rewrite sqrt_square by lra. reflexivity.
Qed.

Lemma distancer_bounds (a b : vec3) :
  - (sqrt 3 * 1e-6) <= val (distancer a b) - sqrt (euclid2 a b)
  <= sqrt 3 * 1e-6.
Proof.
  rewrite val_distancer. unfold euclid2.
  destruct a as [[ax ay] az], b as [[bx b_y] bz].
  set (x := val ax - val bx). set (y := val ay - val b_y).
  set (z := val az - val bz).
  replace (x ^ 2 + y ^ 2 + z ^ 2) with (x * x + y * y + z * z) by ring.
  pose proof (norm_triangle x y z 1e-6 1e-6 1e-6) as Hup.
  pose proof (norm_triangle (x + 1e-6) (y + 1e-6) (z + 1e-6)
                (- 1e-6) (- 1e-6) (- 1e-6)) as Hlow.
  replace (x + 1e-6 + - 1e-6) with x in Hlow by lra.
  replace (y + 1e-6 + - 1e-6) with y in Hlow by lra.
  replace (z + 1e-6 + - 1e-6) with z in Hlow by lra.
  replace (- 1e-6 * - 1e-6 + - 1e-6 * - 1e-6 + - 1e-6 * - 1e-6)
    with (1e-6 * 1e-6 + 1e-6 * 1e-6 + 1e-6 * 1e-6) in Hlow by lra.
  rewrite sqrt_eps in Hup, Hlow.
  lra.
Qed.

Lemma distancer_near_euclid (a b : vec3) :
  Rabs (val (distancer a b) - sqrt (euclid2 a b)) <= sqrt 3 * 1e-6.
Proof. apply Rabs_le. apply distancer_bounds. Qed.

Lemma distancer_self (a : vec3) : val (distancer a a) = sqrt 3 * 1e-6.
Proof.
  rewrite val_distancer. destruct a as [[ax ay] az].
  replace (val ax - val ax + 1e-6) with 1e-6 by lra.
  replace (val ay - val ay + 1e-6) with 1e-6 by lra.
  replace (val az - val az + 1e-6) with 1e-6 by lra.
  apply sqrt_eps.
Qed.

(** X19.  An edge attribute is the length of the difference of the two
    positions shifted by 1e-6 in every coordinate: it stays within
    [sqrt 3 * 1e-6] of the distance between the two atoms, and the
    attribute of a pair of atoms at the same place is [sqrt 3 * 1e-6], not
    zero. *)
Theorem edge_attribute_near_distance (positions : list vec3)
  (edge_index : list edge) (k : nat) :
  (k < length edge_index)%nat ->
  let attribute :=
    val (nth k (edge_distances positions edge_index) Dual.zero) in
  Rabs (attribute - sqrt (euclid2 (nth (fst (nth k edge_index (0, 0)%nat))
                                       positions zero3)
                                  (nth (snd (nth k edge_index (0, 0)%nat))
                                       positions zero3)))
  <= sqrt 3 * 1e-6 /\
  (nth (fst (nth k edge_index (0, 0)%nat)) positions zero3
   = nth (snd (nth k edge_index (0, 0)%nat)) positions zero3 ->
   attribute = sqrt 3 * 1e-6).
Proof.
  intros Hk attribute. unfold attribute, edge_distances.
  rewrite (nth_indep _ Dual.zero
             (distancer (nth (fst (0, 0)%nat) positions zero3)
                        (nth (snd (0, 0)%nat) positions zero3)))
    by (rewrite length_map; exact Hk).
  rewrite (map_nth (fun e => distancer (nth (fst e) positions zero3)
                                       (nth (snd e) positions zero3))).
  cbv beta.
  split; [apply distancer_near_euclid|].
  intros E.
  rewrite <- (distancer_self
                (nth (snd (nth k edge_index (0, 0)%nat)) positions zero3)).
  f_equal. f_equal. exact E.
Qed.

Lemma edge_attribute_near_distance_witness :
  Rabs (val (nth 0 (edge_distances (track None Demo.positions)
                      [(0%nat, 1%nat)]) Dual.zero)
        - sqrt (euclid2 (nth (fst (nth 0 [(0%nat, 1%nat)] (0, 0)%nat))
                             (track None Demo.positions) zero3)
                        (nth (snd (nth 0 [(0%nat, 1%nat)] (0, 0)%nat))
                             (track None Demo.positions) zero3)))
  <= sqrt 3 * 1e-6.
Proof.
  apply (edge_attribute_near_distance (track None Demo.positions)
           [(0%nat, 1%nat)] 0).
  simpl. lia.
Defined.

Lemma length_insert_by (key : nat -> R) (a : nat) (l : list nat) :
  length (insert_by key a l) = S (length l).
Proof.
  induction l as [|b l IH]; simpl; [reflexivity|].
  destruct (Rle_dec (key a) (key b)); simpl; [reflexivity|].
  rewrite IH. reflexivity.
Qed.

Lemma length_sort_by (key : nat -> R) (l : list nat) :
  length (sort_by key l) = length l.
Proof.
  induction l as [|a l IH]; simpl; [reflexivity|].
  rewrite length_insert_by, IH. reflexivity.
Qed.

Lemma in_neighbours_iff (x : list vec3) (r : R) (batch : option (list nat))
  (loop : bool) (cap s t : nat) :
  (length (filter (fun s => (loop || negb (s =? t)%nat)
                            && same_batch batch s t
                            && within r (nth s x zero3) (nth t x zero3))
                  (seq 0 (length x))) <= cap)%nat ->
  In s (neighbours x r batch loop cap t) <->
  (s < length x)%nat /\
  (loop || negb (s =? t)%nat) && same_batch batch s t
  && within r (nth s x zero3) (nth t x zero3) = true.
Proof.
  intros Hcap. unfold neighbours.
  rewrite firstn_all2 by (rewrite length_sort_by; exact Hcap).
  rewrite in_sort_by, filter_In, in_seq. split.
  - intros [Hs H]. split; [lia | exact H].
  - intros [Hs H]. split; [lia | exact H].
Qed.

Lemma replica_candidates (self : RunMultiple.t) (r : R) (x : list vec3)
  (t : nat) :
  length x = length (_batch self) ->
  (t < length x)%nat ->
  (length (filter (fun s => (false || negb (s =? t)%nat)
                            && same_batch (Some (_batch self)) s t
                            && within r (nth s x zero3) (nth t x zero3))
                  (seq 0 (length x)))
   <= length (RunMultiple._gbparameters self) - 1)%nat.
Proof.
  intros Hlen Ht.
  set (n := length (RunMultiple._gbparameters self)).
  assert (HN : length x = (RunMultiple._num_reps self * n)%nat).
  { rewrite Hlen, batch_blocks. apply length_blocks. }
  assert (Hn : n <> 0%nat) by (intros E; rewrite E in HN; lia).
  pose proof (Nat.mod_upper_bound t n Hn) as Htm.
  assert (Hm : length (map (fun con => (t / n * n + con)%nat)
                           (filter (fun con => negb (con =? t mod n)%nat)
                                   (seq 0 n)))
               = (n - 1)%nat)
    by (rewrite length_map, length_others by lia; reflexivity).
  rewrite <- Hm.
  apply NoDup_incl_length.
  - apply NoDup_filter, seq_NoDup.
  - intros s Hs. apply filter_In in Hs as [Hs Hc]. apply in_seq in Hs.
    apply andb_prop in Hc as [Hc _]. apply andb_prop in Hc as [Hne Hb].
    cbn [orb] in Hne. apply negb_true_iff, Nat.eqb_neq in Hne.
    unfold same_batch in Hb. apply Nat.eqb_eq in Hb.
    rewrite batch_blocks in Hb. fold n in Hb.
    rewrite !nth_blocks in Hb by lia.
    pose proof (Nat.div_mod_eq s n) as Es.
    pose proof (Nat.div_mod_eq t n) as Et.
    pose proof (Nat.mod_upper_bound s n Hn) as Hsm.
    apply in_map_iff. exists (s mod n)%nat. split; [rewrite <- Hb; lia|].
    apply filter_In. split; [apply in_seq; lia|].
    apply negb_true_iff, Nat.eqb_neq.
    intros E. apply Hne. rewrite Es, Et, Hb, E. reflexivity.
Qed.

Lemma within_true (r : R) (a b : vec3) :
  within r a b = true -> sqrt (euclid2 a b) <= r.
Proof.
  unfold within. destruct (Rle_dec (sqrt (euclid2 a b)) r) as [H|H].
  - intros _. exact H.
  - discriminate.
Qed.

(** ** The short-range graph of the replica model *)

Lemma gnn_slices_filter (positions : list vec3) (edge_index : list edge) :
  map fst (RunMultiple.gnn_slices edge_index
             (edge_distances positions edge_index))
  = filter (fun e => if Rlt_dec (val (distancer (nth (fst e) positions zero3)
                                                (nth (snd e) positions zero3)))
                                0.6
                     then true else false) edge_index.
Proof.
  unfold RunMultiple.gnn_slices, edge_distances.
  rewrite combine_map_r, filter_map_comm. cbn [snd].
  rewrite !map_map. cbn [fst]. rewrite map_id. reflexivity.
Qed.

Lemma sqrt_3_le_2 : sqrt 3 <= 2.
Proof.
  rewrite <- (sqrt_square 2) by lra. apply sqrt_le_1_alt. lra.
Qed.

(** X20.  Which atoms the short-range graph of [forward] of the replica
    model joins, by their distance: an edge of the stored index whose
    atoms are closer than [0.6 - sqrt 3 * 1e-6] is in it, and every edge
    in it is an edge of the stored index whose atoms are closer than
    [0.6 + sqrt 3 * 1e-6]. *)
Theorem short_range_graph_by_distance (self : RunMultiple.t)
  (positions : list vec3) (s t : nat) :
  let edge_index := RunMultiple._edge_index self in
  let gnn_edge_index :=
    map fst (RunMultiple.gnn_slices edge_index
               (edge_distances positions edge_index)) in
  let distance :=
    sqrt (euclid2 (nth s positions zero3) (nth t positions zero3)) in
  (In (s, t) gnn_edge_index ->
   In (s, t) edge_index /\ distance < 0.6 + sqrt 3 * 1e-6) /\
  (In (s, t) edge_index -> distance + sqrt 3 * 1e-6 < 0.6 ->
   In (s, t) gnn_edge_index).
Proof.
  cbv zeta. rewrite gnn_slices_filter.
  pose proof (distancer_bounds (nth s positions zero3)
                (nth t positions zero3)) as Hd.
  split.
  - intros H. apply filter_In in H as [Hin Hlt]. cbn [fst snd] in Hlt.
    split; [exact Hin|].
    destruct (Rlt_dec (val (distancer (nth s positions zero3)
                                      (nth t positions zero3))) 0.6)
      as [Hl|_]; [lra | discriminate].
  - intros Hin Hlt. apply filter_In. split; [exact Hin|]. cbn [fst snd].
    destruct (Rlt_dec (val (distancer (nth s positions zero3)
                                      (nth t positions zero3))) 0.6)
      as [_|Hn]; [reflexivity | exfalso; apply Hn; lra].
Qed.

Lemma short_range_graph_by_distance_witness :
  In (0%nat, 1%nat)
     (map fst
        (RunMultiple.gnn_slices (RunMultiple._edge_index two_replicas)
           (edge_distances
              (track None [(0, 0, 0); (0.1, 0, 0); (5, 0, 0); (5.1, 0, 0)])
              (RunMultiple._edge_index two_replicas)))).
Proof.
  apply (proj2 (short_range_graph_by_distance two_replicas
                  (track None
                     [(0, 0, 0); (0.1, 0, 0); (5, 0, 0); (5.1, 0, 0)])
                  0 1)).
  - simpl. left. reflexivity.
  - replace (euclid2
               (nth 0 (track None
                         [(0, 0, 0); (0.1, 0, 0); (5, 0, 0); (5.1, 0, 0)])
                    zero3)
               (nth 1 (track None
                         [(0, 0, 0); (0.1, 0, 0); (5, 0, 0); (5.1, 0, 0)])
                    zero3))
      with (0.1 * 0.1) by (cbn; lra).
    rewrite sqrt_square by lra.
    pose proof sqrt_3_le_2. lra.
Defined.

(** X21.  [build_gnn_graph] of the object [__init__] builds, on as many
    positions as [_batch] has entries and with no more than 10001 atoms
    in a replica, gives exactly the edges of the stored index whose two
    atoms lie within the radius.  With a radius below 0.6 by more than
    [sqrt 3 * 1e-6] (the default 0.4 is), each of them is an edge of the
    short-range graph that [forward] cuts at 0.6. *)
Theorem build_gnn_graph_within_index (fraction : R)
  (parameters : list (list R)) (num_reps : nat)
  (aggregate_information :
     list (list D) -> list edge -> list D -> nat -> D * D)
  (interaction1 interaction2 :
     list edge -> list (list D) -> list D -> nat -> list D)
  (interaction3 : list edge -> list (list D) -> list D -> nat -> D * D)
  (calculate_energies : list (D * D) -> list edge -> list D -> nat -> D)
  (self : RunMultiple.t) (r : R) (positions : list vec3) (s t : nat) :
  RunMultiple.__init__ fraction parameters num_reps aggregate_information
    interaction1 interaction2 interaction3 calculate_energies = Ok self ->
  length positions = length (_batch self) ->
  (length parameters - 1 <= 100 * 100)%nat ->
  (In (s, t) (fst (build_gnn_graph self r positions)) <->
   In (s, t) (RunMultiple._edge_index self) /\
   within r (nth s positions zero3) (nth t positions zero3) = true) /\
  (r + sqrt 3 * 1e-6 < 0.6 ->
   In (s, t) (fst (build_gnn_graph self r positions)) ->
   In (s, t) (map fst (RunMultiple.gnn_slices (RunMultiple._edge_index self)
                         (edge_distances positions
                            (RunMultiple._edge_index self))))).
Proof.
  intros Hinit Hlen Hcap.
  apply init_fields in Hinit as (Hei & Hreps & Hgb).
  rewrite <- Hgb in Hcap.
  assert (Hiff : In (s, t) (fst (build_gnn_graph self r positions)) <->
                 In (s, t) (RunMultiple._edge_index self) /\
                 within r (nth s positions zero3) (nth t positions zero3)
                 = true);
    [|split; [exact Hiff|];
      intros Hr Hin; apply Hiff in Hin as [Hin Hw];
      rewrite gnn_slices_filter; apply filter_In; split; [exact Hin|];
      cbn [fst snd];
      apply within_true in Hw;
      pose proof (distancer_bounds (nth s positions zero3)
                    (nth t positions zero3)) as Hd;
      destruct (Rlt_dec (val (distancer (nth s positions zero3)
                                        (nth t positions zero3))) 0.6)
        as [_|Hn]; [reflexivity | exfalso; apply Hn; lra]].
  rewrite Hei, <- Hgb, <- Hreps.
  rewrite in_edge_index_iff.
  unfold build_gnn_graph. cbn [fst]. rewrite in_radius_graph.
  assert (HN : length positions
               = (RunMultiple._num_reps self
                  * length (RunMultiple._gbparameters self))%nat).
  { rewrite Hlen, batch_blocks. apply length_blocks. }
  rewrite <- HN.
  split.
  - intros [Ht Hs].
    apply in_neighbours_iff in Hs;
      [|eapply Nat.le_trans; [apply replica_candidates; assumption
                             | exact Hcap]].
    destruct Hs as [Hs Hc].
    apply andb_prop in Hc as [Hc Hw]. apply andb_prop in Hc as [Hne Hb].
    cbn [orb] in Hne. apply negb_true_iff, Nat.eqb_neq in Hne.
    unfold same_batch in Hb. apply Nat.eqb_eq in Hb.
    split; [|exact Hw].
    split; [exact Hne|]. split; [exact Hs|]. split; [exact Ht | exact Hb].
  - intros [(Hne & Hs & Ht & Hb) Hw].
    split; [exact Ht|].
    apply in_neighbours_iff;
      [eapply Nat.le_trans; [apply replica_candidates; assumption
                            | exact Hcap]|].
    split; [exact Hs|].
    rewrite Hw. unfold same_batch. rewrite Hb, Nat.eqb_refl.
    replace (s =? t)%nat with false by (symmetry; apply Nat.eqb_neq; exact Hne).
    reflexivity.
Qed.

Lemma build_gnn_graph_within_index_witness :
  In (0%nat, 1%nat)
     (fst (build_gnn_graph two_replicas 0.4
             (track None [(0, 0, 0); (0.1, 0, 0); (5, 0, 0); (5.1, 0, 0)])))
  <->
  In (0%nat, 1%nat) (RunMultiple._edge_index two_replicas) /\
  within 0.4
    (nth 0 (track None [(0, 0, 0); (0.1, 0, 0); (5, 0, 0); (5.1, 0, 0)])
         zero3)
    (nth 1 (track None [(0, 0, 0); (0.1, 0, 0); (5, 0, 0); (5.1, 0, 0)])
         zero3) = true.
Proof.
  apply (build_gnn_graph_within_index 0.5 [[1; 0.15]; [-1; 0.17]] 2
           (fun _ _ _ _ => (Dual.zero, Dual.zero))
           (fun _ _ _ _ => []) (fun _ _ _ _ => [])
           (fun _ _ _ _ => (Dual.zero, Dual.zero))
           (fun _ _ _ _ => Dual.zero) two_replicas 0.4
           (track None [(0, 0, 0); (0.1, 0, 0); (5, 0, 0); (5.1, 0, 0)])
           0 1).
  - reflexivity.
  - reflexivity.
  - apply Nat.leb_le. vm_compute. reflexivity.
Defined.

(** ** The two GB-Neck models *)

(** X22.  [GNN_GBNeck.forward] reads [lambda_electrostatics] with
    [.item()] off column 7 of [data.atom_features], and its [build_graph]
    reads [graph.atomic_features]: it returns only for an input of exactly
    one atom whose feature row has at least eight columns and which has
    the attribute [atomic_features], and raises for every other input. *)
Theorem gbneck_forward_single_atom (self : GBNeck.t) (d : GBNeck.data)
  (r : list (option R) * list (R * R * R)) :
  GBNeck.forward self d = Ok r ->
  exists row node_features,
    GBNeck.atom_features d = [row] /\ (8 <= length row)%nat /\
    GBNeck.atomic_features d = Some node_features.
Proof.
  unfold GBNeck.forward, GBNeck.column, GBNeck.node_features.
  destruct (forallb (fun row => (7 <? length row)%nat)
                    (GBNeck.atom_features d)) eqn:Hw; [|discriminate].
  cbn [bind].
  destruct (GBNeck.atom_features d) as [|row [|row' rest]];
    cbn [map GBNeck.item bind]; try discriminate.
  destruct (GBNeck.atomic_features d) as [node_features|];
    cbn [bind]; [|discriminate].
  intros _. exists row, node_features. split; [reflexivity|].
  split; [|reflexivity].
  cbn [forallb] in Hw. apply andb_prop in Hw as [Hw _].
  apply Nat.ltb_lt in Hw. lia.
Qed.

Lemma gbneck_forward_single_atom_witness :
  exists row node_features,
    GBNeck.atom_features one_atom = [row] /\ (8 <= length row)%nat /\
    GBNeck.atomic_features one_atom = Some node_features.
Proof.
  eapply (gbneck_forward_single_atom first_feature_model one_atom).
  reflexivity.
Defined.

(** *** The energy of every molecule *)

Lemma gather_all (energies : list D) (l : list nat) :
  (forall i, In i l -> (i < length energies)%nat) ->
  gather energies l = Ok (map (fun i => nth i energies Dual.zero) l).
Proof.
  intros H. apply gather_in_range. unfold in_range.
  apply forallb_forall. intros i Hi. apply Nat.ltb_lt. apply H. exact Hi.
Qed.

Lemma in_where_eq (batch : list nat) (b i : nat) :
  In i (GBNeck.where_eq batch b) <->
  (i < length batch)%nat /\ nth i batch 0%nat = b.
Proof.
  unfold GBNeck.where_eq. rewrite filter_In, in_seq, Nat.eqb_eq.
  split; intros [H1 H2]; split; try assumption; lia.
Qed.

Lemma where_eq_absent (batch : list nat) (b : nat) :
  existsb (Nat.eqb b) batch = false -> GBNeck.where_eq batch b = [].
Proof.
  intros H. destruct (GBNeck.where_eq batch b) as [|i l] eqn:E;
    [reflexivity|].
  exfalso.
  assert (Hi : In i (GBNeck.where_eq batch b)) by (rewrite E; left; reflexivity).
  apply in_where_eq in Hi as [Hi Hb].
  assert (Hex : existsb (Nat.eqb b) batch = true).
  { apply existsb_exists. exists (nth i batch 0%nat).
    split; [apply nth_In; exact Hi|]. apply Nat.eqb_eq. symmetry. exact Hb. }
  congruence.
Qed.

Lemma readout_loop (energies : list D) (batch : list nat) :
  length energies = length batch ->
  forall j k,
    for_range (filter (fun b => existsb (Nat.eqb b) batch) (seq k j))
      (fun b energy =>
         selected <- gather energies (GBNeck.where_eq batch b) ;;
         GBNeck.set_energy energy b (Dual.sum selected))
      (map (fun b => if existsb (Nat.eqb b) batch
                     then Some (Dual.sum
                                  (map (fun i => nth i energies Dual.zero)
                                       (GBNeck.where_eq batch b)))
                     else None) (seq 0 k)
       ++ repeat None j)
    = Ok (map (fun b => if existsb (Nat.eqb b) batch
                        then Some (Dual.sum
                                     (map (fun i => nth i energies Dual.zero)
                                          (GBNeck.where_eq batch b)))
                        else None) (seq 0 (k + j))).
Proof.
  intros Hlen.
  set (F := fun b => if existsb (Nat.eqb b) batch
                     then Some (Dual.sum
                                  (map (fun i => nth i energies Dual.zero)
                                       (GBNeck.where_eq batch b)))
                     else None).
  induction j as [|j IH]; intros k.
  - cbn [seq filter for_range repeat]. rewrite app_nil_r, Nat.add_0_r.
    reflexivity.
  - assert (Hnext : map F (seq 0 k) ++ F k :: repeat None j
                    = map F (seq 0 (S k)) ++ repeat None j).
    { rewrite seq_S, map_app. cbn [map]. rewrite <- app_assoc. reflexivity. }
    cbn [seq filter repeat].
    destruct (existsb (Nat.eqb k) batch) eqn:Hocc.
    + cbn [for_range].
      rewrite gather_all
        by (intros i Hi; apply in_where_eq in Hi as [Hi _]; lia).
      cbn [bind]. unfold GBNeck.set_energy.
      rewrite length_app, length_map, length_seq. cbn [length].
      replace (k <? k + S (length (repeat (@None D) j)))%nat with true
        by (symmetry; apply Nat.ltb_lt; lia).
      cbn [bind].
      replace (firstn k (map F (seq 0 k) ++ None :: repeat None j))
        with (map F (seq 0 k))
        by (rewrite firstn_app, firstn_all2, length_map, length_seq,
              Nat.sub_diag, firstn_O, app_nil_r
              by (rewrite length_map, length_seq; lia); reflexivity).
      replace (skipn (S k) (map F (seq 0 k) ++ None :: repeat None j))
        with (repeat (@None D) j)
        by (rewrite skipn_app, skipn_all2, length_map, length_seq
              by (rewrite length_map, length_seq; lia);
            replace (S k - k)%nat with 1%nat by lia; reflexivity).
      replace (Some (Dual.sum (map (fun i => nth i energies Dual.zero)
                                   (GBNeck.where_eq batch k))))
        with (F k) by (unfold F; rewrite Hocc; reflexivity).
      rewrite Hnext, IH. replace (S k + j)%nat with (k + S j)%nat by lia.
      reflexivity.
    + replace (@None D) with (F k) at 1
        by (unfold F; rewrite Hocc; reflexivity).
      rewrite Hnext, IH. replace (S k + j)%nat with (k + S j)%nat by lia.
      reflexivity.
Qed.

Lemma Rsum_add {A : Type} (f g : A -> R) (l : list A) :
  fold_right Rplus 0 (map (fun a => f a + g a) l)
  = fold_right Rplus 0 (map f l) + fold_right Rplus 0 (map g l).
Proof.
  induction l as [|a l IH]; simpl; [lra|]. rewrite IH. lra.
Qed.

Lemma Rsum_ext {A : Type} (f g : A -> R) (l : list A) :
  (forall a, In a l -> f a = g a) ->
  fold_right Rplus 0 (map f l) = fold_right Rplus 0 (map g l).
Proof.
  intros H. f_equal. apply map_ext_in. exact H.
Qed.

Lemma Rsum_zero {A : Type} (l : list A) :
  fold_right Rplus 0 (map (fun _ => 0) l) = 0.
Proof. induction l as [|a l IH]; simpl; [reflexivity|]. rewrite IH. lra. Qed.

Lemma Rsum_single (c : nat) (v : R) (k j : nat) :
  (k <= c < k + j)%nat ->
  fold_right Rplus 0
    (map (fun b => if (c =? b)%nat then v else 0) (seq k j)) = v.
Proof.
  revert k. induction j as [|j IH]; intros k H; [lia|].
  cbn [seq map fold_right].
  destruct (c =? k)%nat eqn:E.
  - apply Nat.eqb_eq in E. subst c.
    rewrite (Rsum_ext _ (fun _ => 0)).
    + rewrite Rsum_zero. lra.
    + intros b Hb. apply in_seq in Hb.
      replace (k =? b)%nat with false
        by (symmetry; apply Nat.eqb_neq; lia).
      reflexivity.
  - apply Nat.eqb_neq in E. rewrite IH by lia. lra.
Qed.

Lemma Rsum_groups (v : nat -> R) (key : nat -> nat) (bs l : list nat) :
  fold_right Rplus 0
    (map (fun b => fold_right Rplus 0
                     (map v (filter (fun i => (key i =? b)%nat) l))) bs)
  = fold_right Rplus 0
      (map (fun i => fold_right Rplus 0
                       (map (fun b => if (key i =? b)%nat then v i else 0)
                            bs)) l).
Proof.
  induction l as [|i l IH].
  - cbn [filter map fold_right]. apply Rsum_zero.
  - cbn [map fold_right]. rewrite <- IH, <- Rsum_add.
    apply Rsum_ext. intros b _. cbn [filter].
    destruct (key i =? b)%nat; cbn [map fold_right]; lra.
Qed.

Lemma map_nth_seq (energies : list D) :
  map (fun i => nth i energies Dual.zero) (seq 0 (length energies))
  = energies.
Proof.
  induction energies as [|e energies IH]; [reflexivity|].
  cbn [length seq map nth]. rewrite <- seq_shift, map_map.
  cbn [nth]. rewrite IH. reflexivity.
Qed.

Lemma groups_total (energies : list D) (batch : list nat) :
  length energies = length batch ->
  fold_right Rplus 0
    (map (fun b => val (Dual.sum (map (fun i => nth i energies Dual.zero)
                                      (GBNeck.where_eq batch b))))
         (seq 0 (S (list_max batch))))
  = val (Dual.sum energies).
Proof.
  intros Hlen.
  rewrite (Rsum_ext _
             (fun b => fold_right Rplus 0
                         (map (fun i => val (nth i energies Dual.zero))
                              (filter (fun i => (nth i batch 0 =? b)%nat)
                                      (seq 0 (length batch))))))
    by (intros b _; rewrite val_sum, map_map; reflexivity).
  rewrite Rsum_groups.
  rewrite (Rsum_ext _ (fun i => val (nth i energies Dual.zero))).
  - rewrite <- (map_map (fun i => nth i energies Dual.zero) val).
    rewrite <- Hlen, map_nth_seq, <- val_sum. reflexivity.
  - intros i Hi. apply in_seq in Hi. apply Rsum_single.
    assert (Hmax : Forall (fun k => (k <= list_max batch)%nat) batch)
      by (apply list_max_le; lia).
    rewrite Forall_forall in Hmax.
    assert (Hi' : (i < length batch)%nat) by lia.
    specialize (Hmax (nth i batch 0%nat) (nth_In batch 0%nat Hi')). lia.
Qed.

Lemma tensor_max_nonempty (batch : list nat) :
  batch <> [] -> GBNeck.tensor_max batch = Ok (list_max batch).
Proof. destruct batch; [contradiction | reflexivity]. Qed.

(** X23.  [GNN_GBNeck_2.forward] with one batch id and one feature row per
    atom returns one energy for every id up to the largest: the entry of
    an id that occurs is the sum of the energies of its atoms, the entry
    of an id that does not occur is never written, and the written entries
    add up to the sum of all atom energies.  The forces have one row per
    atom. *)
Theorem gbneck2_forward_readout (self : GBNeck.t) (d : GBNeck.data) :
  GBNeck._nobatch self = false ->
  GBNeck.batch d <> [] ->
  length (GBNeck.pos d) = length (GBNeck.batch d) ->
  length (GBNeck.atom_features d) = length (GBNeck.batch d) ->
  let energies :=
    GBNeck.energies_of self (lift (GBNeck.atom_features d))
      (track None (GBNeck.pos d)) (GBNeck.batch d) in
  exists energy forces,
    GBNeck.forward_2 self d = Ok (energy, forces) /\
    length energy = S (list_max (GBNeck.batch d)) /\
    length forces = length (GBNeck.pos d) /\
    (forall b, (b <= list_max (GBNeck.batch d))%nat ->
       nth b energy None
       = if existsb (Nat.eqb b) (GBNeck.batch d)
         then Some (val (Dual.sum
                           (map (fun i => nth i energies Dual.zero)
                                (GBNeck.where_eq (GBNeck.batch d) b))))
         else None) /\
    fold_right Rplus 0
      (map (fun e => match e with Some v => v | None => 0 end) energy)
    = val (Dual.sum energies).
Proof.
  intros Hno Hne Hpos Hfeat energies.
  assert (Hlen : length energies = length (GBNeck.batch d)).
  { unfold energies, GBNeck.energies_of. cbv zeta.
    rewrite length_rows, length_lift. exact Hfeat. }
  set (F := fun b => if existsb (Nat.eqb b) (GBNeck.batch d)
                     then Some (Dual.sum
                                  (map (fun i => nth i energies Dual.zero)
                                       (GBNeck.where_eq (GBNeck.batch d) b)))
                     else None).
  assert (Hread : GBNeck.readout self energies (GBNeck.batch d)
                  = Ok (map F (seq 0 (S (list_max (GBNeck.batch d)))))).
  { unfold GBNeck.readout. rewrite Hno.
    rewrite tensor_max_nonempty by exact Hne. cbn [bind].
    unfold GBNeck.unique.
    pose proof (readout_loop energies (GBNeck.batch d) Hlen
                  (S (list_max (GBNeck.batch d))) 0) as H.
    change (seq 0 0) with (@nil nat) in H. cbn [map app] in H.
    rewrite Nat.add_0_l in H.
    replace (list_max (GBNeck.batch d) + 1)%nat
      with (S (list_max (GBNeck.batch d))) by lia.
    exact H. }
  eexists. eexists.
  split.
  { unfold GBNeck.forward_2, GBNeck.outputs. cbv zeta.
    fold energies. rewrite Hread. cbn [bind]. reflexivity. }
  split; [rewrite !length_map, length_seq; reflexivity|].
  split; [rewrite length_map, length_rows; reflexivity|].
  split.
  - intros b Hb.
    rewrite map_map.
    rewrite (nth_indep _ None (option_map val (F 0%nat)))
      by (rewrite length_map, length_seq; lia).
    rewrite (map_nth (fun b => option_map val (F b))).
    rewrite seq_nth by lia. cbn [Nat.add]. unfold F.
    destruct (existsb (Nat.eqb b) (GBNeck.batch d)); reflexivity.
  - rewrite !map_map. rewrite <- (groups_total energies _ Hlen).
    apply Rsum_ext. intros b _. unfold F.
    destruct (existsb (Nat.eqb b) (GBNeck.batch d)) eqn:Hocc;
      cbn [option_map].
    + reflexivity.
    + rewrite where_eq_absent by exact Hocc. reflexivity.
Qed.

Lemma gbneck2_forward_readout_witness :
  exists energy forces,
    GBNeck.forward_2 first_feature_model three_atoms = Ok (energy, forces) /\
    length energy = S (list_max (GBNeck.batch three_atoms)) /\
    length forces = length (GBNeck.pos three_atoms) /\
    (forall b, (b <= list_max (GBNeck.batch three_atoms))%nat ->
       nth b energy None
       = if existsb (Nat.eqb b) (GBNeck.batch three_atoms)
         then Some (val (Dual.sum
                           (map (fun i =>
                                   nth i (GBNeck.energies_of
                                            first_feature_model
                                            (lift (GBNeck.atom_features
                                                     three_atoms))
                                            (track None
                                               (GBNeck.pos three_atoms))
                                            (GBNeck.batch three_atoms))
                                       Dual.zero)
                                (GBNeck.where_eq (GBNeck.batch three_atoms)
                                   b))))
         else None) /\
    fold_right Rplus 0
      (map (fun e => match e with Some v => v | None => 0 end) energy)
    = val (Dual.sum (GBNeck.energies_of first_feature_model
                       (lift (GBNeck.atom_features three_atoms))
                       (track None (GBNeck.pos three_atoms))
                       (GBNeck.batch three_atoms))).
Proof.
  apply (gbneck2_forward_readout first_feature_model three_atoms).
  - reflexivity.
  - discriminate.
  - reflexivity.
  - reflexivity.
Defined.

(** ** Moving the replicas *)

Lemma replica_forward_translate (self : RunMultiple.t)
  (direction : option (nat * nat)) (v : R * R * R)
  (positions : list (R * R * R)) :
  (forall s t, In (s, t) (RunMultiple._edge_index self) ->
               (s < length positions)%nat /\ (t < length positions)%nat) ->
  RunMultiple.forward self (track direction (translate v positions))
  = RunMultiple.forward self (track direction positions).
Proof.
  intros Hrange. unfold RunMultiple.forward. cbv zeta.
  rewrite (edge_distances_ext (track direction (translate v positions))
             (track direction positions)); [reflexivity|].
  intros s t Hin. apply Hrange in Hin as [Hs Ht].
  apply distancer_translate; assumption.
Qed.

(** X24.  [forward] of the replica model, for the object [__init__]
    builds and for what [set_num_reps] makes of it, on at least as many
    positions as the stored index covers, gives the same energy, with the
    same derivative along every direction, when all atoms are moved by one
    vector: the positions enter only through the edge lengths. *)
Theorem replica_forward_translation_invariant (fraction : R)
  (parameters : list (list R)) (num_reps : nat)
  (aggregate_information :
     list (list D) -> list edge -> list D -> nat -> D * D)
  (interaction1 interaction2 :
     list edge -> list (list D) -> list D -> nat -> list D)
  (interaction3 : list edge -> list (list D) -> list D -> nat -> D * D)
  (calculate_energies : list (D * D) -> list edge -> list D -> nat -> D)
  (self : RunMultiple.t) (direction : option (nat * nat)) (v : R * R * R)
  (positions : list (R * R * R)) :
  RunMultiple.__init__ fraction parameters num_reps aggregate_information
    interaction1 interaction2 interaction3 calculate_energies = Ok self ->
  (num_reps * length parameters <= length positions)%nat ->
  RunMultiple.forward self (track direction (translate v positions))
  = RunMultiple.forward self (track direction positions) /\
  forall k,
    RunMultiple.forward (RunMultiple.set_num_reps self k)
      (track direction (translate v positions))
    = RunMultiple.forward (RunMultiple.set_num_reps self k)
        (track direction positions).
Proof.
  intros Hinit Hlen. apply init_fields in Hinit as (Hei & _ & _).
  assert (Hrange : forall s t,
             In (s, t) (RunMultiple._edge_index self) ->
             (s < length positions)%nat /\ (t < length positions)%nat).
  { intros s t Hin. rewrite Hei in Hin. apply in_replica_pairs in Hin
      as (rep & node & con & Hrep & Hnode & Hcon & _ & -> & ->).
    split; nia. }
  split.
  - apply replica_forward_translate. exact Hrange.
  - intros k. apply replica_forward_translate. exact Hrange.
Qed.

Lemma replica_forward_translation_invariant_witness :
  RunMultiple.forward two_replicas
    (track None (translate (1, 2, 3)
                   [(0, 0, 0); (0.1, 0, 0); (5, 0, 0); (5.1, 0, 0)]))
  = RunMultiple.forward two_replicas
      (track None [(0, 0, 0); (0.1, 0, 0); (5, 0, 0); (5.1, 0, 0)]).
Proof.
  apply (replica_forward_translation_invariant 0.5
           [[1; 0.15]; [-1; 0.17]] 2
           (fun _ _ _ _ => (Dual.zero, Dual.zero))
           (fun _ _ _ _ => []) (fun _ _ _ _ => [])
           (fun _ _ _ _ => (Dual.zero, Dual.zero))
           (fun _ _ _ _ => Dual.zero) two_replicas None (1, 2, 3)
           [(0, 0, 0); (0.1, 0, 0); (5, 0, 0); (5.1, 0, 0)]).
  - reflexivity.
  - simpl. lia.
Defined.
